(** * DexClass.h: interned dex entities, their orderings and encoders

    A shallow embedding of [include/DexClass.h].  The interned objects
    live in stores indexed by address, one per class; a C++ pointer is
    an address and [nullptr] is [None].  A member function takes the
    object it is called on and returns its new state or the fatal
    path it took; the factories and the comparators take the stores. *)

From Stdlib Require Import ZArith Lia Ascii String List Bool.
From Stdlib Require Import Sorted Permutation.
From stdpp Require Import base option list gmap strings.

Local Open Scope Z_scope.

(** ** Machine integers and C strings *)

(** Two's complement [int] (32 bits) and [uint32_t]. *)
Definition to_int (x : Z) : Z := (x + 2 ^ 31) mod 2 ^ 32 - 2 ^ 31.
Definition to_uint32 (x : Z) : Z := x mod 2 ^ 32.
Definition INT_MAX : Z := 2 ^ 31 - 1.

(** A [const char*] argument is represented by the bytes that precede
    its terminator; [*s == 0] is [s = EmptyString]. *)
Definition byte_val (c : ascii) : Z := Z.of_N (N_of_ascii c).

Fixpoint bytes_of (s : string) : list Z :=
  match s with
  | EmptyString => []
  | String c r => byte_val c :: bytes_of r
  end.

Definition strlen (s : string) : Z := Z.of_nat (String.length s).

(** [strcmp]: bytes compared as [unsigned char]; only the sign of the
    result is specified and used.  The content of a C string holds no
    zero byte, so where one string ends first the pair that differs is
    the terminator against a non-zero byte. *)
Fixpoint strcmp (s1 s2 : string) : Z :=
  match s1, s2 with
  | EmptyString, EmptyString => 0
  | EmptyString, String _ _ => -1
  | String _ _, EmptyString => 1
  | String c1 r1, String c2 r2 =>
      if byte_val c1 =? byte_val c2 then strcmp r1 r2
      else byte_val c1 - byte_val c2
  end.

(** [strcpy(dst, src)] writes the bytes of [src] and the terminator. *)
Definition strcpy (src : string) : list Z := bytes_of src ++ [0].

(** ** LEB128 helpers (declared outside this header) *)

(** Modelled from the spec: [write_uleb128] is not part of this header;
    the spec names it the LEB128-style variable-length unsigned integer
    encoding: seven payload bits per byte, least significant group
    first, the high bit set on every byte but the last.  The value
    returned is the run of bytes written; the returned pointer is the
    argument advanced by its length. *)
Fixpoint write_uleb128_from (fuel : nat) (val : Z) : list Z :=
  match fuel with
  | O => []
  | S n =>
      let v := Z.land val 127 in
      if v =? val then [v]
      else Z.lor v 128 :: write_uleb128_from n (Z.shiftr val 7)
  end.

Definition write_uleb128 (val : Z) : list Z :=
  write_uleb128_from 5 (to_uint32 val).

(** Modelled from the spec: [uleb128_encoding_size] is not part of this
    header; it is the number of bytes the LEB128-style encoding of a
    [uint32_t] takes. *)
Definition uleb128_encoding_size (val : Z) : Z :=
  let v := to_uint32 val in
  if v <? 2 ^ 7 then 1
  else if v <? 2 ^ 14 then 2
  else if v <? 2 ^ 21 then 3
  else if v <? 2 ^ 28 then 4
  else 5.

(** ** Fatal paths *)

(** An argument of an assertion message, kept symbolic: the pointer the
    printed text is derived from. *)
Inductive fmt_arg : Type :=
  | arg_type_name (type : nat)      (* type->get_name()->c_str() *)
  | arg_string (str : nat)          (* str->c_str() *)
  | arg_show_short (method : nat)   (* show_short(method).c_str() *)
  | arg_int (n : Z).

Inductive fatal : Type :=
  | assertion_failed (expr : string)
  | assertion_failed_log (fmt : string) (args : list fmt_arg).

Inductive result (A : Type) : Type :=
  | Ok (a : A)
  | Abort (f : fatal).
Arguments Ok {A} a.
Arguments Abort {A} f.

Definition is_ok {A} (r : result A) : bool :=
  match r with Ok _ => true | Abort _ => false end.

(** [always_assert(e)]: continue when [e] holds, abort otherwise. *)
Definition always_assert {A} (e : bool) (expr : string) (k : result A)
  : result A :=
  if e then k else Abort (assertion_failed expr).

(** [assert(e)]: the same check in builds that keep assertions
    ([NDEBUG] undefined), nothing otherwise. *)
Definition assert {A} (NDEBUG : bool) (e : bool) (expr : string)
  (k : result A) : result A :=
  if NDEBUG then k else always_assert e expr k.

(** ** DexString *)

Module DexString.

Record t : Type := mk {
  m_cstr : string;
  m_utfsize : Z;
  m_strlen : Z
}.

(** The private constructor. *)
Definition new (nstr : string) (utfsize : Z) : t :=
  {| m_cstr := nstr;
     m_utfsize := utfsize;
     m_strlen := to_int (strlen nstr) |}.

Definition is_simple (s : t) : bool :=
  if m_strlen s =? m_utfsize s then true else false.

Definition c_str (s : t) : string := m_cstr s.

Definition get_entry_size (s : t) : Z :=
  let len := to_int (uleb128_encoding_size (m_utfsize s)) in
  let len := to_int (len + m_strlen s) in
  let len := to_int (len + 1) in
  len.

(** The bytes written at [output]. *)
Definition encode (s : t) : list Z :=
  write_uleb128 (m_utfsize s) ++ strcpy (m_cstr s).

End DexString.

(** ** Pointers

    The address of an object is its index in the store of its class.
    A pointer that may be null is an [option]. *)
Abbreviation ptr := nat (only parsing).

(** [DexAccessFlags] is an enumeration over [uint32_t]. *)
Abbreviation DexAccessFlags := Z (only parsing).

(** Modelled from the spec: [ParamAnnotations] is declared in
    DexAnnotation.h; the spec describes it as the per-parameter
    annotation sets keyed by parameter index, and this header uses it
    as a map from [int] to annotation-set pointers ([size], [count],
    [operator[]]). *)
Abbreviation ParamAnnotations := (gmap Z (option nat)) (only parsing).

(** ** DexType *)

Module DexType.

Record t : Type := mk { m_name : ptr }.

Definition new (dstring : ptr) : t := {| m_name := dstring |}.

Definition get_name (ty : t) : ptr := m_name ty.

End DexType.

(** ** DexField

    The public member [rstate] (a [ReferencedState], declared
    elsewhere) is read by no member function of this header and is left
    out, here and in [DexMethod] and [DexClass]. *)

Module DexField.

Record t : Type := mk {
  m_class : ptr;
  m_name : ptr;
  m_type : ptr;
  m_anno : option ptr;
  m_value : option ptr;
  m_access : DexAccessFlags;
  m_concrete : bool;
  m_external : bool
}.

(** The private constructor. *)
Definition new (container name type : ptr) : t :=
  {| m_concrete := false;
     m_external := false;
     m_anno := None;
     m_value := None;
     m_class := container;
     m_name := name;
     m_type := type;
     m_access := 0 |}.

Definition get_anno_set (f : t) : option ptr := m_anno f.
Definition get_static_value (f : t) : option ptr := m_value f.
Definition get_class (f : t) : ptr := m_class f.
Definition get_name (f : t) : ptr := m_name f.
Definition get_type (f : t) : ptr := m_type f.
Definition is_concrete (f : t) : bool := m_concrete f.
Definition is_external (f : t) : bool := m_external f.
Definition is_def (f : t) : bool := is_concrete f || is_external f.

Definition get_access (f : t) : result DexAccessFlags :=
  always_assert (is_def f) "is_def()" (Ok (m_access f)).

Definition with_access (access : DexAccessFlags) (f : t) : t :=
  {| m_class := m_class f; m_name := m_name f; m_type := m_type f;
     m_anno := m_anno f; m_value := m_value f; m_access := access;
     m_concrete := m_concrete f; m_external := m_external f |}.

Definition with_external (e : bool) (f : t) : t :=
  {| m_class := m_class f; m_name := m_name f; m_type := m_type f;
     m_anno := m_anno f; m_value := m_value f; m_access := m_access f;
     m_concrete := m_concrete f; m_external := e |}.

Definition with_anno (a : option ptr) (f : t) : t :=
  {| m_class := m_class f; m_name := m_name f; m_type := m_type f;
     m_anno := a; m_value := m_value f; m_access := m_access f;
     m_concrete := m_concrete f; m_external := m_external f |}.

Definition set_access (NDEBUG : bool) (access : DexAccessFlags) (f : t)
  : result t :=
  assert NDEBUG (negb (m_external f)) "!m_external"
    (Ok (with_access access f)).

Definition set_external (f : t) : result t :=
  always_assert (negb (m_concrete f)) "!m_concrete"
    (Ok (with_external true f)).

Definition clear_annotations (f : t) : t := with_anno None f.

Definition attach_annotation_set (aset : option ptr) (f : t) : result t :=
  if bool_decide (m_anno f = None) && bool_decide (m_concrete f = false)
  then Ok (with_anno aset f)
  else Abort (assertion_failed_log
                "attach_annotation_set failed for field %s.%s\n"
                [arg_type_name (m_class f); arg_string (m_name f)]).

End DexField.

(** ** DexTypeList and DexProto *)

Module DexTypeList.

Record t : Type := mk { m_list : list ptr }.

Definition new (p : list ptr) : t := {| m_list := p |}.

Definition get_type_list (l : t) : list ptr := m_list l.

End DexTypeList.

Module DexProto.

Record t : Type := mk {
  m_args : ptr;
  m_rtype : ptr;
  m_shorty : ptr
}.

Definition new (rtype args shorty : ptr) : t :=
  {| m_rtype := rtype; m_args := args; m_shorty := shorty |}.

Definition get_rtype (p : t) : ptr := m_rtype p.
Definition get_args (p : t) : ptr := m_args p.
Definition get_shorty (p : t) : ptr := m_shorty p.

End DexProto.

(** ** DexMethod *)

Module DexMethod.

Record t : Type := mk {
  m_class : ptr;
  m_name : ptr;
  m_proto : ptr;
  m_anno : option ptr;
  m_code : option ptr;
  m_access : DexAccessFlags;
  m_concrete : bool;
  m_virtual : bool;
  m_external : bool;
  m_param_anno : ParamAnnotations
}.

(** The private constructor; [m_param_anno] is default-constructed. *)
Definition new (type name proto : ptr) : t :=
  {| m_concrete := false;
     m_virtual := false;
     m_external := false;
     m_anno := None;
     m_code := None;
     m_class := type;
     m_name := name;
     m_proto := proto;
     m_access := 0;
     m_param_anno := ∅ |}.

Definition get_anno_set (m : t) : option ptr := m_anno m.
Definition get_class (m : t) : ptr := m_class m.
Definition get_name (m : t) : ptr := m_name m.
Definition get_proto (m : t) : ptr := m_proto m.
Definition get_code (m : t) : option ptr := m_code m.
Definition is_concrete (m : t) : bool := m_concrete m.
Definition is_virtual (m : t) : bool := m_virtual m.
Definition is_external (m : t) : bool := m_external m.
Definition is_def (m : t) : bool := is_concrete m || is_external m.

Definition get_access (m : t) : result DexAccessFlags :=
  always_assert (is_def m) "is_def()" (Ok (m_access m)).

(** [nullptr] when the map is empty, its address otherwise (the
    address is represented by the map it points to). *)
Definition get_param_anno (m : t) : option ParamAnnotations :=
  if (size (m_param_anno m) =? 0)%nat then None
  else Some (m_param_anno m).

Definition with_access (access : DexAccessFlags) (m : t) : t :=
  {| m_class := m_class m; m_name := m_name m; m_proto := m_proto m;
     m_anno := m_anno m; m_code := m_code m; m_access := access;
     m_concrete := m_concrete m; m_virtual := m_virtual m;
     m_external := m_external m; m_param_anno := m_param_anno m |}.

Definition with_virtual (v : bool) (m : t) : t :=
  {| m_class := m_class m; m_name := m_name m; m_proto := m_proto m;
     m_anno := m_anno m; m_code := m_code m; m_access := m_access m;
     m_concrete := m_concrete m; m_virtual := v;
     m_external := m_external m; m_param_anno := m_param_anno m |}.

Definition with_external (e : bool) (m : t) : t :=
  {| m_class := m_class m; m_name := m_name m; m_proto := m_proto m;
     m_anno := m_anno m; m_code := m_code m; m_access := m_access m;
     m_concrete := m_concrete m; m_virtual := m_virtual m;
     m_external := e; m_param_anno := m_param_anno m |}.

Definition with_code (c : option ptr) (m : t) : t :=
  {| m_class := m_class m; m_name := m_name m; m_proto := m_proto m;
     m_anno := m_anno m; m_code := c; m_access := m_access m;
     m_concrete := m_concrete m; m_virtual := m_virtual m;
     m_external := m_external m; m_param_anno := m_param_anno m |}.

Definition with_anno (a : option ptr) (m : t) : t :=
  {| m_class := m_class m; m_name := m_name m; m_proto := m_proto m;
     m_anno := a; m_code := m_code m; m_access := m_access m;
     m_concrete := m_concrete m; m_virtual := m_virtual m;
     m_external := m_external m; m_param_anno := m_param_anno m |}.

Definition with_param_anno (pa : ParamAnnotations) (m : t) : t :=
  {| m_class := m_class m; m_name := m_name m; m_proto := m_proto m;
     m_anno := m_anno m; m_code := m_code m; m_access := m_access m;
     m_concrete := m_concrete m; m_virtual := m_virtual m;
     m_external := m_external m; m_param_anno := pa |}.

Definition set_access (NDEBUG : bool) (access : DexAccessFlags) (m : t)
  : result t :=
  assert NDEBUG (negb (m_external m)) "!m_external"
    (Ok (with_access access m)).

Definition set_virtual (NDEBUG : bool) (is_virtual : bool) (m : t)
  : result t :=
  assert NDEBUG (negb (m_external m)) "!m_external"
    (Ok (with_virtual is_virtual m)).

Definition set_external (m : t) : result t :=
  always_assert (negb (m_concrete m)) "!m_concrete"
    (Ok (with_external true m)).

Definition set_code (code : option ptr) (m : t) : t := with_code code m.

Definition clear_annotations (m : t) : t := with_anno None m.

(** [this] is the address of [m]; the message prints
    [show_short(this)]. *)
Definition attach_annotation_set (this : ptr) (aset : option ptr) (m : t)
  : result t :=
  if bool_decide (m_anno m = None) && bool_decide (m_concrete m = false)
  then Ok (with_anno aset m)
  else Abort (assertion_failed_log
                "attach_annotation_set failed for method %s\n"
                [arg_show_short this]).

Definition attach_param_annotation_set (this : ptr) (paramno : Z)
  (aset : option ptr) (m : t) : result t :=
  if bool_decide (m_param_anno m !! paramno = None)
     && bool_decide (m_concrete m = false)
  then Ok (with_param_anno (<[paramno := aset]> (m_param_anno m)) m)
  else Abort (assertion_failed_log
                "attach_param_annotation_set failed for param %d to method %s\n"
                [arg_int paramno; arg_show_short this]).

End DexMethod.

(** ** DexClass *)

Module DexClass.

Record t : Type := mk {
  m_access_flags : DexAccessFlags;
  m_super_class : option ptr;
  m_self : ptr;
  m_interfaces : option ptr;
  m_source_file : option ptr;
  m_anno : option ptr;
  m_sfields : list ptr;
  m_ifields : list ptr;
  m_dmethods : list ptr;
  m_vmethods : list ptr;
  m_has_class_data : bool;
  m_external : bool
}.

(** The [const] accessors. *)
Definition get_dmethods_const (c : t) : list ptr := m_dmethods c.
Definition get_vmethods_const (c : t) : list ptr := m_vmethods c.
Definition get_sfields_const (c : t) : list ptr := m_sfields c.
Definition get_ifields_const (c : t) : list ptr := m_ifields c.

(** The accessors that hand out a mutable reference. *)
Definition get_dmethods (NDEBUG : bool) (c : t) : result (list ptr) :=
  assert NDEBUG (negb (m_external c)) "!m_external" (Ok (m_dmethods c)).
Definition get_vmethods (NDEBUG : bool) (c : t) : result (list ptr) :=
  assert NDEBUG (negb (m_external c)) "!m_external" (Ok (m_vmethods c)).
Definition get_sfields (NDEBUG : bool) (c : t) : result (list ptr) :=
  assert NDEBUG (negb (m_external c)) "!m_external" (Ok (m_sfields c)).
Definition get_ifields (NDEBUG : bool) (c : t) : result (list ptr) :=
  assert NDEBUG (negb (m_external c)) "!m_external" (Ok (m_ifields c)).

Definition get_access (c : t) : DexAccessFlags := m_access_flags c.
Definition get_super_class (c : t) : option ptr := m_super_class c.
Definition get_type (c : t) : ptr := m_self c.
Definition get_interfaces (c : t) : option ptr := m_interfaces c.
Definition get_source_file (c : t) : option ptr := m_source_file c.
Definition has_class_data (c : t) : bool := m_has_class_data c.
Definition is_external (c : t) : bool := m_external c.
Definition get_anno_set (c : t) : option ptr := m_anno c.

Definition with_access (access : DexAccessFlags) (c : t) : t :=
  {| m_access_flags := access; m_super_class := m_super_class c;
     m_self := m_self c; m_interfaces := m_interfaces c;
     m_source_file := m_source_file c; m_anno := m_anno c;
     m_sfields := m_sfields c; m_ifields := m_ifields c;
     m_dmethods := m_dmethods c; m_vmethods := m_vmethods c;
     m_has_class_data := m_has_class_data c;
     m_external := m_external c |}.

Definition with_source_file (sf : option ptr) (c : t) : t :=
  {| m_access_flags := m_access_flags c; m_super_class := m_super_class c;
     m_self := m_self c; m_interfaces := m_interfaces c;
     m_source_file := sf; m_anno := m_anno c;
     m_sfields := m_sfields c; m_ifields := m_ifields c;
     m_dmethods := m_dmethods c; m_vmethods := m_vmethods c;
     m_has_class_data := m_has_class_data c;
     m_external := m_external c |}.

Definition with_interfaces (intfs : option ptr) (c : t) : t :=
  {| m_access_flags := m_access_flags c; m_super_class := m_super_class c;
     m_self := m_self c; m_interfaces := intfs;
     m_source_file := m_source_file c; m_anno := m_anno c;
     m_sfields := m_sfields c; m_ifields := m_ifields c;
     m_dmethods := m_dmethods c; m_vmethods := m_vmethods c;
     m_has_class_data := m_has_class_data c;
     m_external := m_external c |}.

Definition with_anno (a : option ptr) (c : t) : t :=
  {| m_access_flags := m_access_flags c; m_super_class := m_super_class c;
     m_self := m_self c; m_interfaces := m_interfaces c;
     m_source_file := m_source_file c; m_anno := a;
     m_sfields := m_sfields c; m_ifields := m_ifields c;
     m_dmethods := m_dmethods c; m_vmethods := m_vmethods c;
     m_has_class_data := m_has_class_data c;
     m_external := m_external c |}.

Definition set_access (NDEBUG : bool) (access : DexAccessFlags) (c : t)
  : result t :=
  assert NDEBUG (negb (m_external c)) "!m_external"
    (Ok (with_access access c)).

Definition set_source_file (source_file : option ptr) (c : t) : t :=
  with_source_file source_file c.

Definition set_interfaces (NDEBUG : bool) (intfs : option ptr) (c : t)
  : result t :=
  assert NDEBUG (negb (m_external c)) "!m_external"
    (Ok (with_interfaces intfs c)).

Definition clear_annotations (c : t) : t := with_anno None c.

End DexClass.

(** ** RedexContext: the interning authority *)

(** Modelled from the spec: RedexContext.h is not part of this header.
    The spec gives the authority one lookup table per entity kind,
    keyed by the identifying attributes (String: byte content; Type:
    its name String; Type-List: the sequence of Types; Prototype:
    return Type and Type-List, the attributes [get_proto] is given;
    Field and Method: declaring Type, name and Type or Prototype).
    [make_X] returns the canonical object and
    creates it on the first call, [get_X] never creates and answers
    not-found when the key is absent; a re-keying operation removes the
    old key, mutates the object in place and inserts the new key.  A
    table owns the objects it created: [objs] is the store of the kind
    (address = position) and [index] the lookup table. *)
Module RedexContext.

Section Table.
Context {K : Type} `{Countable K} {V : Type}.

Record table : Type := mk_table {
  objs : list V;
  index : gmap K nat
}.

Definition empty_table : table := {| objs := []; index := ∅ |}.

Definition find (k : K) (tb : table) : option ptr := index tb !! k.

(** Create-or-reuse: [v] is the object a first call constructs. *)
Definition intern (k : K) (v : V) (tb : table) : ptr * table :=
  match index tb !! k with
  | Some p => (p, tb)
  | None =>
      let p := length (objs tb) in
      (p, {| objs := objs tb ++ [v]; index := <[k := p]> (index tb) |})
  end.

(** Remove the old key, mutate the object in place, insert the new
    key. *)
Definition rekey (old new : K) (this : ptr) (v : V) (tb : table) : table :=
  {| objs := <[this := v]> (objs tb);
     index := <[new := this]> (delete old (index tb)) |}.
End Table.
Arguments table K {_ _} V.

Record t : Type := mk {
  strings : table string DexString.t;
  types : table nat DexType.t;
  fields : table (nat * nat * nat) DexField.t;
  typelists : table (list nat) DexTypeList.t;
  protos : table (nat * nat) DexProto.t;
  methods : table (nat * nat * nat) DexMethod.t
}.

Definition empty : t :=
  {| strings := empty_table; types := empty_table; fields := empty_table;
     typelists := empty_table; protos := empty_table;
     methods := empty_table |}.

Definition with_strings (tb : table string DexString.t) (g : t) : t :=
  {| strings := tb; types := types g; fields := fields g;
     typelists := typelists g; protos := protos g; methods := methods g |}.
Definition with_types (tb : table nat DexType.t) (g : t) : t :=
  {| strings := strings g; types := tb; fields := fields g;
     typelists := typelists g; protos := protos g; methods := methods g |}.
Definition with_fields (tb : table (nat * nat * nat) DexField.t) (g : t) : t :=
  {| strings := strings g; types := types g; fields := tb;
     typelists := typelists g; protos := protos g; methods := methods g |}.
Definition with_typelists (tb : table (list nat) DexTypeList.t) (g : t) : t :=
  {| strings := strings g; types := types g; fields := fields g;
     typelists := tb; protos := protos g; methods := methods g |}.
Definition with_protos (tb : table (nat * nat) DexProto.t) (g : t) : t :=
  {| strings := strings g; types := types g; fields := fields g;
     typelists := typelists g; protos := tb; methods := methods g |}.
Definition with_methods (tb : table (nat * nat * nat) DexMethod.t) (g : t) : t :=
  {| strings := strings g; types := types g; fields := fields g;
     typelists := typelists g; protos := protos g; methods := tb |}.

Definition make_string (nstr : string) (utfsize : Z) (g : t) : ptr * t :=
  let '(p, tb) := intern nstr (DexString.new nstr utfsize) (strings g) in
  (p, with_strings tb g).
Definition get_string (nstr : string) (utfsize : Z) (g : t) : option ptr :=
  find nstr (strings g).

Definition make_type (dstring : ptr) (g : t) : ptr * t :=
  let '(p, tb) := intern dstring (DexType.new dstring) (types g) in
  (p, with_types tb g).
Definition get_type (dstring : ptr) (g : t) : option ptr :=
  find dstring (types g).

Definition make_field (container name type : ptr) (g : t) : ptr * t :=
  let '(p, tb) := intern (container, name, type)
                    (DexField.new container name type) (fields g) in
  (p, with_fields tb g).
Definition get_field (container name type : ptr) (g : t) : option ptr :=
  find (container, name, type) (fields g).

Definition make_type_list (p : list ptr) (g : t) : ptr * t :=
  let '(q, tb) := intern p (DexTypeList.new p) (typelists g) in
  (q, with_typelists tb g).
Definition get_type_list (p : list ptr) (g : t) : option ptr :=
  find p (typelists g).

Definition make_proto (rtype args shorty : ptr) (g : t) : ptr * t :=
  let '(p, tb) := intern (rtype, args)
                    (DexProto.new rtype args shorty) (protos g) in
  (p, with_protos tb g).
Definition get_proto (rtype args : ptr) (g : t) : option ptr :=
  find (rtype, args) (protos g).

Definition make_method (type name proto : ptr) (g : t) : ptr * t :=
  let '(p, tb) := intern (type, name, proto)
                    (DexMethod.new type name proto) (methods g) in
  (p, with_methods tb g).
Definition get_method (type name proto : ptr) (g : t) : option ptr :=
  find (type, name, proto) (methods g).

(** Re-keying; [None] when [this] is not a live object. *)
Definition alias_type_name (this new_name : ptr) (g : t) : option t :=
  ty ← objs (types g) !! this;
  Some (with_types
          (rekey (DexType.m_name ty) new_name this
                 (DexType.mk new_name) (types g)) g).

Definition method_with_class (cls : ptr) (m : DexMethod.t) : DexMethod.t :=
  {| DexMethod.m_class := cls; DexMethod.m_name := DexMethod.m_name m;
     DexMethod.m_proto := DexMethod.m_proto m;
     DexMethod.m_anno := DexMethod.m_anno m;
     DexMethod.m_code := DexMethod.m_code m;
     DexMethod.m_access := DexMethod.m_access m;
     DexMethod.m_concrete := DexMethod.m_concrete m;
     DexMethod.m_virtual := DexMethod.m_virtual m;
     DexMethod.m_external := DexMethod.m_external m;
     DexMethod.m_param_anno := DexMethod.m_param_anno m |}.

Definition method_with_proto (proto : ptr) (m : DexMethod.t) : DexMethod.t :=
  {| DexMethod.m_class := DexMethod.m_class m;
     DexMethod.m_name := DexMethod.m_name m;
     DexMethod.m_proto := proto;
     DexMethod.m_anno := DexMethod.m_anno m;
     DexMethod.m_code := DexMethod.m_code m;
     DexMethod.m_access := DexMethod.m_access m;
     DexMethod.m_concrete := DexMethod.m_concrete m;
     DexMethod.m_virtual := DexMethod.m_virtual m;
     DexMethod.m_external := DexMethod.m_external m;
     DexMethod.m_param_anno := DexMethod.m_param_anno m |}.

Definition mutate_method_class (this cls : ptr) (g : t) : option t :=
  m ← objs (methods g) !! this;
  Some (with_methods
          (rekey (DexMethod.m_class m, DexMethod.m_name m, DexMethod.m_proto m)
                 (cls, DexMethod.m_name m, DexMethod.m_proto m) this
                 (method_with_class cls m) (methods g)) g).

Definition mutate_method_proto (this proto : ptr) (g : t) : option t :=
  m ← objs (methods g) !! this;
  Some (with_methods
          (rekey (DexMethod.m_class m, DexMethod.m_name m, DexMethod.m_proto m)
                 (DexMethod.m_class m, DexMethod.m_name m, proto) this
                 (method_with_proto proto m) (methods g)) g).

End RedexContext.

(** ** The static factories of the entity classes

    Each forwards to the global context [g_redex], threaded here as an
    explicit state. *)

Definition DexString_make_string (nstr : string) (utfsize : Z)
  (g_redex : RedexContext.t) : ptr * RedexContext.t :=
  RedexContext.make_string nstr utfsize g_redex.

Definition DexString_make_string_cstr (nstr : string)
  (g_redex : RedexContext.t) : ptr * RedexContext.t :=
  DexString_make_string nstr (to_int (strlen nstr)) g_redex.

Definition DexString_get_string (nstr : string) (utfsize : Z)
  (g_redex : RedexContext.t) : option ptr :=
  RedexContext.get_string nstr utfsize g_redex.

Definition DexString_get_string_cstr (nstr : string)
  (g_redex : RedexContext.t) : option ptr :=
  DexString_get_string nstr (to_int (strlen nstr)) g_redex.

Definition DexType_make_type (dstring : ptr) (g_redex : RedexContext.t)
  : ptr * RedexContext.t :=
  RedexContext.make_type dstring g_redex.

Definition DexType_make_type_cstr (type_string : string)
  (g_redex : RedexContext.t) : ptr * RedexContext.t :=
  let '(s, g1) := DexString_make_string_cstr type_string g_redex in
  DexType_make_type s g1.

Definition DexType_get_type (dstring : ptr) (g_redex : RedexContext.t)
  : option ptr :=
  RedexContext.get_type dstring g_redex.

(** [get_type(DexString::get_string(type_string))]; the authority is
    handed a null String when the text was never interned.  Modelled
    from the spec: [get_X] answers not-found when the key is absent, so
    a null String resolves to no Type. *)
Definition DexType_get_type_cstr (type_string : string)
  (g_redex : RedexContext.t) : option ptr :=
  s ← DexString_get_string_cstr type_string g_redex;
  DexType_get_type s g_redex.

Definition DexType_assign_name_alias (this new_name : ptr)
  (g_redex : RedexContext.t) : option RedexContext.t :=
  RedexContext.alias_type_name this new_name g_redex.

Definition DexField_make_field (container name type : ptr)
  (g_redex : RedexContext.t) : ptr * RedexContext.t :=
  RedexContext.make_field container name type g_redex.

Definition DexField_get_field (container name type : ptr)
  (g_redex : RedexContext.t) : option ptr :=
  RedexContext.get_field container name type g_redex.

Definition DexTypeList_make_type_list (p : list ptr)
  (g_redex : RedexContext.t) : ptr * RedexContext.t :=
  RedexContext.make_type_list p g_redex.

Definition DexTypeList_get_type_list (p : list ptr)
  (g_redex : RedexContext.t) : option ptr :=
  RedexContext.get_type_list p g_redex.

Definition DexProto_make_proto (rtype args shorty : ptr)
  (g_redex : RedexContext.t) : ptr * RedexContext.t :=
  RedexContext.make_proto rtype args shorty g_redex.

Definition DexProto_get_proto (rtype args : ptr)
  (g_redex : RedexContext.t) : option ptr :=
  RedexContext.get_proto rtype args g_redex.

Definition DexMethod_make_method (type name proto : ptr)
  (g_redex : RedexContext.t) : ptr * RedexContext.t :=
  RedexContext.make_method type name proto g_redex.

Definition DexMethod_get_method (type name proto : ptr)
  (g_redex : RedexContext.t) : option ptr :=
  RedexContext.get_method type name proto g_redex.

Definition DexMethod_change_class (this cls : ptr)
  (g_redex : RedexContext.t) : option RedexContext.t :=
  RedexContext.mutate_method_class this cls g_redex.

Definition DexMethod_change_proto (this proto : ptr)
  (g_redex : RedexContext.t) : option RedexContext.t :=
  RedexContext.mutate_method_proto this proto g_redex.

(** Dereferencing a pointer of each class. *)
Definition deref_string (g : RedexContext.t) (p : ptr) : option DexString.t :=
  RedexContext.objs (RedexContext.strings g) !! p.
Definition deref_type (g : RedexContext.t) (p : ptr) : option DexType.t :=
  RedexContext.objs (RedexContext.types g) !! p.
Definition deref_field (g : RedexContext.t) (p : ptr) : option DexField.t :=
  RedexContext.objs (RedexContext.fields g) !! p.
Definition deref_typelist (g : RedexContext.t) (p : ptr)
  : option DexTypeList.t :=
  RedexContext.objs (RedexContext.typelists g) !! p.
Definition deref_proto (g : RedexContext.t) (p : ptr) : option DexProto.t :=
  RedexContext.objs (RedexContext.protos g) !! p.
Definition deref_method (g : RedexContext.t) (p : ptr) : option DexMethod.t :=
  RedexContext.objs (RedexContext.methods g) !! p.

(** ** The orderings *)

Fixpoint string_drop (k : nat) (s : string) : string :=
  match k, s with
  | O, _ => s
  | S k', EmptyString => EmptyString
  | S k', String _ r => string_drop k' r
  end.

Section Ordering.

(** [mutf8_next_code_point(const char*& s)] is declared outside this
    header: it reads the unit at [s], advances [s] past the units of
    one code point and returns the code point.  [mutf8_units v rest]
    stands for its body: for the first unit [v] and the bytes [rest]
    that follow it, the value returned and the number of further
    units consumed. *)
Variable mutf8_units : ascii -> string -> Z * nat.

Definition mutf8_next_code_point (s : string) : Z * string :=
  match s with
  | EmptyString =>
      let '(cp, _) := mutf8_units zero EmptyString in
      (to_uint32 cp, EmptyString)
  | String v rest =>
      let '(cp, k) := mutf8_units v rest in
      (to_uint32 cp, string_drop k rest)
  end.

(** The [while (1)] loop of [compare_dexstrings]; every round
    consumes a unit of [sa], so [String.length sa] rounds suffice. *)
Fixpoint code_point_loop (fuel : nat) (sa sb : string) : option bool :=
  match fuel with
  | O => None
  | S fuel' =>
      let '(cpa, sa') := mutf8_next_code_point sa in
      let '(cpb, sb') := mutf8_next_code_point sb in
      if cpa =? cpb then
        if bool_decide (sa' = EmptyString) then Some true
        else if bool_decide (sb' = EmptyString) then Some false
        else code_point_loop fuel' sa' sb'
      else Some (cpa <? cpb)
  end.

(** [compare_dexstrings] on the two objects. *)
Definition dexstring_less (a b : DexString.t) : option bool :=
  if DexString.is_simple a && DexString.is_simple b
  then Some (strcmp (DexString.c_str a) (DexString.c_str b) <? 0)
  else
    let sa := DexString.c_str a in
    let sb := DexString.c_str b in
    if strcmp sa sb =? 0 then Some false
    else if strlen sa =? 0 then Some true
    else if strlen sb =? 0 then Some false
    else code_point_loop (String.length sa) sa sb.

Definition compare_dexstrings (g : RedexContext.t) (a b : ptr)
  : option bool :=
  da ← deref_string g a;
  db ← deref_string g b;
  dexstring_less da db.

Definition compare_dextypes (g : RedexContext.t) (a b : ptr)
  : option bool :=
  ta ← deref_type g a;
  tb ← deref_type g b;
  compare_dexstrings g (DexType.get_name ta) (DexType.get_name tb).

Definition compare_dexfields (g : RedexContext.t) (a b : ptr)
  : option bool :=
  fa ← deref_field g a;
  fb ← deref_field g b;
  if negb (DexField.get_class fa =? DexField.get_class fb)%nat
  then compare_dextypes g (DexField.get_class fa) (DexField.get_class fb)
  else if negb (DexField.get_name fa =? DexField.get_name fb)%nat
  then compare_dexstrings g (DexField.get_name fa) (DexField.get_name fb)
  else compare_dextypes g (DexField.get_type fa) (DexField.get_type fb).

(** [operator<] on two type lists, walking both iterators. *)
Fixpoint typelist_lt (g : RedexContext.t) (ita itb : list ptr)
  : option bool :=
  match itb with
  | [] => Some false
  | tb :: itb' =>
      match ita with
      | [] => Some true
      | ta :: ita' =>
          if negb (ta =? tb)%nat then compare_dextypes g ta tb
          else typelist_lt g ita' itb'
      end
  end.

Definition DexTypeList_operator_lt (g : RedexContext.t)
  (a b : DexTypeList.t) : option bool :=
  typelist_lt g (DexTypeList.m_list a) (DexTypeList.m_list b).

Definition compare_dextypelists (g : RedexContext.t) (a b : ptr)
  : option bool :=
  la ← deref_typelist g a;
  lb ← deref_typelist g b;
  DexTypeList_operator_lt g la lb.

Definition compare_dexprotos (g : RedexContext.t) (a b : ptr)
  : option bool :=
  pa ← deref_proto g a;
  pb ← deref_proto g b;
  if negb (DexProto.get_rtype pa =? DexProto.get_rtype pb)%nat
  then compare_dextypes g (DexProto.get_rtype pa) (DexProto.get_rtype pb)
  else
    la ← deref_typelist g (DexProto.get_args pa);
    lb ← deref_typelist g (DexProto.get_args pb);
    DexTypeList_operator_lt g la lb.

Definition compare_dexmethods (g : RedexContext.t) (a b : ptr)
  : option bool :=
  ma ← deref_method g a;
  mb ← deref_method g b;
  if negb (DexMethod.get_class ma =? DexMethod.get_class mb)%nat
  then compare_dextypes g (DexMethod.get_class ma) (DexMethod.get_class mb)
  else if negb (DexMethod.get_name ma =? DexMethod.get_name mb)%nat
  then compare_dexstrings g (DexMethod.get_name ma) (DexMethod.get_name mb)
  else compare_dexprotos g (DexMethod.get_proto ma) (DexMethod.get_proto mb).

(** The code points of a string, read front to back by
    [mutf8_next_code_point]. *)
Fixpoint code_points_from (fuel : nat) (s : string) : list Z :=
  match fuel with
  | O => []
  | S fuel' =>
      match s with
      | EmptyString => []
      | String _ _ =>
          let '(cp, s') := mutf8_next_code_point s in
          cp :: code_points_from fuel' s'
      end
  end.

Definition code_points (s : string) : list Z :=
  code_points_from (String.length s) s.

End Ordering.

(** Modelled from the spec: the decoder is not part of this header; the
    spec calls the text UTF-8-like with single-unit and multi-unit
    code points.  This instance reads one unit below 0x80, two units
    under a 110xxxxx lead and three units otherwise, taking the low
    bits of each unit as in UTF-8. *)
Definition mutf8_units_std (v : ascii) (rest : string) : Z * nat :=
  let b := byte_val v in
  let unit (i : nat) :=
    match String.get i rest with
    | Some c => byte_val c
    | None => 0
    end in
  if Z.land b 128 =? 0 then (b, 0%nat)
  else if Z.land b 224 =? 192
  then (Z.lor (Z.shiftl (Z.land b 31) 6) (Z.land (unit 0%nat) 63), 1%nat)
  else (Z.lor (Z.lor (Z.shiftl (Z.land b 15) 12)
                     (Z.shiftl (Z.land (unit 0%nat) 63) 6))
              (Z.land (unit 1%nat) 63), 2%nat).

(** ** Runs of mutator calls

    The mutators whose body is in this header and acts on the object
    itself, for a field and for a method ([make_concrete] and
    [become_virtual] are only declared here; [change_class] and
    [change_proto] are calls on the context), and a run of such calls
    on one entity.  A call that takes the fatal
    path leaves the entity as it was (the abort is caught by the
    caller).  [field_attachments] and [method_attachments] count the
    calls of the run that attached an annotation set: the
    [attach_annotation_set] calls that returned normally with a
    non-null [aset]. *)
Inductive field_call : Type :=
  | FieldSetAccess (access : DexAccessFlags)
  | FieldSetExternal
  | FieldClearAnnotations
  | FieldAttach (aset : option ptr).

Definition field_call_apply (NDEBUG : bool) (c : field_call) (f : DexField.t)
  : result DexField.t :=
  match c with
  | FieldSetAccess access => DexField.set_access NDEBUG access f
  | FieldSetExternal => DexField.set_external f
  | FieldClearAnnotations => Ok (DexField.clear_annotations f)
  | FieldAttach aset => DexField.attach_annotation_set aset f
  end.

Definition field_call_attaches (c : field_call) : nat :=
  match c with FieldAttach (Some _) => 1%nat | _ => 0%nat end.

Fixpoint field_attachments (NDEBUG : bool) (calls : list field_call)
  (f : DexField.t) : nat :=
  match calls with
  | [] => 0%nat
  | c :: rest =>
      match field_call_apply NDEBUG c f with
      | Ok f' =>
          (field_call_attaches c + field_attachments NDEBUG rest f')%nat
      | Abort _ => field_attachments NDEBUG rest f
      end
  end.

Inductive method_call : Type :=
  | MethodSetAccess (access : DexAccessFlags)
  | MethodSetVirtual (is_virtual : bool)
  | MethodSetExternal
  | MethodSetCode (code : option ptr)
  | MethodClearAnnotations
  | MethodAttach (aset : option ptr)
  | MethodAttachParam (paramno : Z) (aset : option ptr).

Definition method_call_apply (NDEBUG : bool) (this : ptr) (c : method_call)
  (m : DexMethod.t) : result DexMethod.t :=
  match c with
  | MethodSetAccess access => DexMethod.set_access NDEBUG access m
  | MethodSetVirtual v => DexMethod.set_virtual NDEBUG v m
  | MethodSetExternal => DexMethod.set_external m
  | MethodSetCode code => Ok (DexMethod.set_code code m)
  | MethodClearAnnotations => Ok (DexMethod.clear_annotations m)
  | MethodAttach aset => DexMethod.attach_annotation_set this aset m
  | MethodAttachParam paramno aset =>
      DexMethod.attach_param_annotation_set this paramno aset m
  end.

Definition method_call_attaches (c : method_call) : nat :=
  match c with MethodAttach (Some _) => 1%nat | _ => 0%nat end.

Fixpoint method_attachments (NDEBUG : bool) (this : ptr)
  (calls : list method_call) (m : DexMethod.t) : nat :=
  match calls with
  | [] => 0%nat
  | c :: rest =>
      match method_call_apply NDEBUG this c m with
      | Ok m' =>
          (method_call_attaches c
           + method_attachments NDEBUG this rest m')%nat
      | Abort _ => method_attachments NDEBUG this rest m
      end
  end.

(** ** Mutator steps

    One successful call of a mutator whose body is in this header and
    acts on the object itself, per class.  [make_concrete] and
    [become_virtual] are only declared here; [change_class] and
    [change_proto] hand the Method to the authority, which re-keys it,
    and are calls on the context ([DexMethod_change_class],
    [DexMethod_change_proto]), not steps. *)
Inductive field_step (NDEBUG : bool) : DexField.t -> DexField.t -> Prop :=
  | field_set_access access f f' :
      DexField.set_access NDEBUG access f = Ok f' -> field_step NDEBUG f f'
  | field_set_external f f' :
      DexField.set_external f = Ok f' -> field_step NDEBUG f f'
  | field_clear_annotations f :
      field_step NDEBUG f (DexField.clear_annotations f)
  | field_attach_annotation_set aset f f' :
      DexField.attach_annotation_set aset f = Ok f' -> field_step NDEBUG f f'.

Inductive method_step (NDEBUG : bool) : DexMethod.t -> DexMethod.t -> Prop :=
  | method_set_access access m m' :
      DexMethod.set_access NDEBUG access m = Ok m' -> method_step NDEBUG m m'
  | method_set_virtual v m m' :
      DexMethod.set_virtual NDEBUG v m = Ok m' -> method_step NDEBUG m m'
  | method_set_external m m' :
      DexMethod.set_external m = Ok m' -> method_step NDEBUG m m'
  | method_set_code code m :
      method_step NDEBUG m (DexMethod.set_code code m)
  | method_clear_annotations m :
      method_step NDEBUG m (DexMethod.clear_annotations m)
  | method_attach_annotation_set this aset m m' :
      DexMethod.attach_annotation_set this aset m = Ok m' ->
      method_step NDEBUG m m'
  | method_attach_param_annotation_set this paramno aset m m' :
      DexMethod.attach_param_annotation_set this paramno aset m = Ok m' ->
      method_step NDEBUG m m'.

Inductive class_step (NDEBUG : bool) : DexClass.t -> DexClass.t -> Prop :=
  | class_set_access access c c' :
      DexClass.set_access NDEBUG access c = Ok c' -> class_step NDEBUG c c'
  | class_set_source_file sf c :
      class_step NDEBUG c (DexClass.set_source_file sf c)
  | class_set_interfaces intfs c c' :
      DexClass.set_interfaces NDEBUG intfs c = Ok c' -> class_step NDEBUG c c'
  | class_clear_annotations c :
      class_step NDEBUG c (DexClass.clear_annotations c).

(** ** Factory traffic

    The calls a client makes on the factories, and their effect on the
    context; a [get_*] call returns the context it was given. *)
Inductive request : Type :=
  | MakeString (nstr : string) (utfsize : Z)
  | GetString (nstr : string) (utfsize : Z)
  | MakeType (dstring : ptr)
  | GetType (dstring : ptr)
  | MakeField (container name type : ptr)
  | GetField (container name type : ptr)
  | MakeTypeList (p : list ptr)
  | GetTypeList (p : list ptr)
  | MakeProto (rtype args shorty : ptr)
  | GetProto (rtype args : ptr)
  | MakeMethod (type name proto : ptr)
  | GetMethod (type name proto : ptr).

Definition serve (r : request) (g : RedexContext.t)
  : option ptr * RedexContext.t :=
  match r with
  | MakeString nstr utfsize =>
      let '(p, g') := DexString_make_string nstr utfsize g in (Some p, g')
  | GetString nstr utfsize => (DexString_get_string nstr utfsize g, g)
  | MakeType dstring =>
      let '(p, g') := DexType_make_type dstring g in (Some p, g')
  | GetType dstring => (DexType_get_type dstring g, g)
  | MakeField c n t =>
      let '(p, g') := DexField_make_field c n t g in (Some p, g')
  | GetField c n t => (DexField_get_field c n t g, g)
  | MakeTypeList l =>
      let '(p, g') := DexTypeList_make_type_list l g in (Some p, g')
  | GetTypeList l => (DexTypeList_get_type_list l g, g)
  | MakeProto r a sh =>
      let '(p, g') := DexProto_make_proto r a sh g in (Some p, g')
  | GetProto r a => (DexProto_get_proto r a g, g)
  | MakeMethod t n p =>
      let '(q, g') := DexMethod_make_method t n p g in (Some q, g')
  | GetMethod t n p => (DexMethod_get_method t n p g, g)
  end.

Fixpoint serve_all (rs : list request) (g : RedexContext.t)
  : RedexContext.t :=
  match rs with
  | [] => g
  | r :: rest => serve_all rest (serve r g).2
  end.

Definition makes_string (nstr : string) (r : request) : Prop :=
  match r with MakeString n _ => n = nstr | _ => False end.
Definition makes_type (dstring : ptr) (r : request) : Prop :=
  match r with MakeType d => d = dstring | _ => False end.
Definition makes_field (c n t : ptr) (r : request) : Prop :=
  match r with MakeField c' n' t' => (c', n', t') = (c, n, t) | _ => False end.
Definition makes_method (t n p : ptr) (r : request) : Prop :=
  match r with MakeMethod t' n' p' => (t', n', p') = (t, n, p) | _ => False end.

(** A later context resolves every key an earlier one resolved, to the
    same pointer. *)
Record extends (g g' : RedexContext.t) : Prop := {
  ext_strings k p :
    RedexContext.find k (RedexContext.strings g) = Some p ->
    RedexContext.find k (RedexContext.strings g') = Some p;
  ext_types k p :
    RedexContext.find k (RedexContext.types g) = Some p ->
    RedexContext.find k (RedexContext.types g') = Some p;
  ext_fields k p :
    RedexContext.find k (RedexContext.fields g) = Some p ->
    RedexContext.find k (RedexContext.fields g') = Some p;
  ext_methods k p :
    RedexContext.find k (RedexContext.methods g) = Some p ->
    RedexContext.find k (RedexContext.methods g') = Some p
}.

(** ** Orders used to state the comparators *)

(** Lexicographic order on lists over a strict order [lt]; a proper
    prefix is below. *)
Fixpoint lex_list {A : Type} (lt : A -> A -> bool) (xs ys : list A) : bool :=
  match xs, ys with
  | _, [] => false
  | [], _ :: _ => true
  | x :: xs', y :: ys' =>
      if lt x y then true
      else if lt y x then false
      else lex_list lt xs' ys'
  end.

(** Lexicographic order on pairs. *)
Definition lex_pair {A B : Type} (ltA : A -> A -> bool)
  (ltB : B -> B -> bool) (p q : A * B) : bool :=
  if ltA p.1 q.1 then true
  else if ltA q.1 p.1 then false
  else ltB p.2 q.2.

(** The verdict of the code-point loop on two non-empty code-point
    sequences. *)
Fixpoint lockstep (xs ys : list Z) : bool :=
  match xs, ys with
  | x :: xs', y :: ys' =>
      if x =? y then
        match xs', ys' with
        | [], _ => true
        | _ :: _, [] => false
        | _ :: _, _ :: _ => lockstep xs' ys'
        end
      else x <? y
  | _, _ => true
  end.

(** A strict total order given as a boolean test. *)
Record StrictTotal {A : Type} (lt : A -> A -> bool) : Prop := {
  st_irrefl x : lt x x = false;
  st_trans x y z : lt x y = true -> lt y z = true -> lt x z = true;
  st_total x y : lt x y = false -> lt y x = false -> x = y
}.

(** ** Well-formed stores

    Every pointer held by an object is live. *)
Definition store_closed (g : RedexContext.t) : Prop :=
  Forall (fun ty => (DexType.m_name ty
                     < length (RedexContext.objs (RedexContext.strings g)))%nat)
         (RedexContext.objs (RedexContext.types g))
  /\ Forall (fun tl =>
               Forall (fun t =>
                         (t < length (RedexContext.objs
                                        (RedexContext.types g)))%nat)
                      (DexTypeList.m_list tl))
            (RedexContext.objs (RedexContext.typelists g))
  /\ Forall (fun p =>
               (DexProto.m_rtype p
                < length (RedexContext.objs (RedexContext.types g)))%nat
               /\ (DexProto.m_args p
                   < length (RedexContext.objs
                               (RedexContext.typelists g)))%nat)
            (RedexContext.objs (RedexContext.protos g))
  /\ Forall (fun m =>
               (DexMethod.m_class m
                < length (RedexContext.objs (RedexContext.types g)))%nat
               /\ (DexMethod.m_name m
                   < length (RedexContext.objs (RedexContext.strings g)))%nat
               /\ (DexMethod.m_proto m
                   < length (RedexContext.objs (RedexContext.protos g)))%nat)
            (RedexContext.objs (RedexContext.methods g)).

(** The interning invariant on the objects: no two objects of a class
    have the same identifying attributes. *)
Definition interned (g : RedexContext.t) : Prop :=
  NoDup (DexString.m_cstr <$> RedexContext.objs (RedexContext.strings g))
  /\ NoDup (DexType.m_name <$> RedexContext.objs (RedexContext.types g))
  /\ NoDup (DexTypeList.m_list
              <$> RedexContext.objs (RedexContext.typelists g))
  /\ NoDup ((fun p => (DexProto.m_rtype p, DexProto.m_args p))
              <$> RedexContext.objs (RedexContext.protos g))
  /\ NoDup ((fun m => (DexMethod.m_class m, DexMethod.m_name m,
                       DexMethod.m_proto m))
              <$> RedexContext.objs (RedexContext.methods g)).

(** The Strings are well-formed encoded text: a String whose encoded
    length equals its raw length has one code point per byte, and
    different Strings spell different code-point sequences. *)
Definition strings_well_formed (mutf8_units : ascii -> string -> Z * nat)
  (g : RedexContext.t) : Prop :=
  Forall (fun s =>
            DexString.is_simple s = true ->
            code_points mutf8_units (DexString.m_cstr s)
            = bytes_of (DexString.m_cstr s))
         (RedexContext.objs (RedexContext.strings g))
  /\ NoDup ((fun s => code_points mutf8_units (DexString.m_cstr s))
              <$> RedexContext.objs (RedexContext.strings g)).

(** The sort keys: the code points of a String, of a Type's name, of
    each Type of a list; for a Prototype the return Type then the
    arguments; for a Method the class, the name, the Prototype. *)
Definition string_key (mutf8_units : ascii -> string -> Z * nat)
  (g : RedexContext.t) (p : ptr) : list Z :=
  match deref_string g p with
  | Some s => code_points mutf8_units (DexString.c_str s)
  | None => []
  end.

Definition type_key (mutf8_units : ascii -> string -> Z * nat)
  (g : RedexContext.t) (t : ptr) : list Z :=
  match deref_type g t with
  | Some ty => string_key mutf8_units g (DexType.get_name ty)
  | None => []
  end.

Definition typelist_key (mutf8_units : ascii -> string -> Z * nat)
  (g : RedexContext.t) (l : ptr) : list (list Z) :=
  match deref_typelist g l with
  | Some tl => type_key mutf8_units g <$> DexTypeList.m_list tl
  | None => []
  end.

Definition proto_key (mutf8_units : ascii -> string -> Z * nat)
  (g : RedexContext.t) (p : ptr) : list Z * list (list Z) :=
  match deref_proto g p with
  | Some pr => (type_key mutf8_units g (DexProto.get_rtype pr),
                typelist_key mutf8_units g (DexProto.get_args pr))
  | None => ([], [])
  end.

Definition method_key (mutf8_units : ascii -> string -> Z * nat)
  (g : RedexContext.t) (m : ptr)
  : list Z * (list Z * (list Z * list (list Z))) :=
  match deref_method g m with
  | Some me => (type_key mutf8_units g (DexMethod.get_class me),
                (string_key mutf8_units g (DexMethod.get_name me),
                 proto_key mutf8_units g (DexMethod.get_proto me)))
  | None => ([], ([], ([], [])))
  end.

Definition proto_key_lt : list Z * list (list Z)
                          -> list Z * list (list Z) -> bool :=
  lex_pair (lex_list Z.ltb) (lex_list (lex_list Z.ltb)).

Definition method_key_lt
  : list Z * (list Z * (list Z * list (list Z)))
    -> list Z * (list Z * (list Z * list (list Z))) -> bool :=
  lex_pair (lex_list Z.ltb) (lex_pair (lex_list Z.ltb) proto_key_lt).

(** A list of Methods in which no element is above its successor. *)
Definition methods_sorted (mutf8_units : ascii -> string -> Z * nat)
  (g : RedexContext.t) (l : list ptr) : Prop :=
  Sorted (fun x y => compare_dexmethods mutf8_units g y x = Some false) l.

(** ** A small store

    Strings "LA;", "LB;", "run", "go", "V" and the two-byte text C3 A9
    (one code point, U+00E9); Types LA;, LB;, V; the type lists [] and
    [LA;]; the Prototypes ()V and (LA;)V; Methods LA;.run()V,
    LA;.go()V, LB;.run(LA;)V and LA;.<U+00E9>()V. *)
Definition example_requests : list request :=
  [ MakeString "LA;" 3; MakeString "LB;" 3; MakeString "run" 3;
    MakeString "go" 2; MakeString "V" 1;
    MakeString (String (ascii_of_nat 195) (String (ascii_of_nat 169) "")) 1;
    MakeType 0; MakeType 1; MakeType 4;
    MakeTypeList []; MakeTypeList [0%nat];
    MakeProto 2 0 4; MakeProto 2 1 4;
    MakeMethod 0 2 0; MakeMethod 0 3 0; MakeMethod 1 2 1; MakeMethod 0 5 0 ].

Definition example_store : RedexContext.t :=
  serve_all example_requests RedexContext.empty.

(** ** A store with a text passed without its encoded length

    Strings: the two bytes C0 80 made by the one-argument
    [make_string], which takes the raw length 2 for the encoded
    length; the byte 02; the bytes 01 C0 80 with encoded length 2;
    "LA;" and "V".  Types LA; and V, the empty type list, the
    Prototype ()V, and three Methods of LA; named by the first three
    Strings. *)
Definition text_c0_80 : string :=
  String (ascii_of_nat 192) (String (ascii_of_nat 128) "").
Definition text_02 : string := String (ascii_of_nat 2) "".
Definition text_01_c0_80 : string :=
  String (ascii_of_nat 1)
    (String (ascii_of_nat 192) (String (ascii_of_nat 128) "")).

Definition cyclic_requests : list request :=
  [ MakeString text_c0_80 (to_int (strlen text_c0_80));
    MakeString text_02 (to_int (strlen text_02));
    MakeString text_01_c0_80 2;
    MakeString "LA;" 3; MakeString "V" 1;
    MakeType 3; MakeType 4;
    MakeTypeList [];
    MakeProto 1 0 4;
    MakeMethod 0 0 0; MakeMethod 0 1 0; MakeMethod 0 2 0 ].

Definition cyclic_store : RedexContext.t :=
  serve_all cyclic_requests RedexContext.empty.

(** ** DexClasses

    The vector of classes.  [std::vector::at] checks its index and
    throws [std::out_of_range]; an [int] index is converted to the
    unsigned size type, so a negative one is out of range too.  The
    sized constructor value-initialises its elements, to null; a
    negative [int] size converts to a size above [max_size()], for
    which the constructor throws [std::length_error].  An iterator is
    the position it points at. *)
Inductive cxx_exception : Type :=
  | std_out_of_range
  | std_length_error.

Inductive throwing (A : Type) : Type :=
  | Returns (a : A)
  | Throws (e : cxx_exception).
Arguments Returns {A} a.
Arguments Throws {A} e.

Module DexClasses.

Record t : Type := mk { m_classes : list (option ptr) }.

Definition new (size : Z) : throwing t :=
  if size <? 0 then Throws std_length_error
  else Returns {| m_classes := replicate (Z.to_nat size) None |}.

(** [m_classes.at(num)], the element it designates. *)
Definition at_ (c : t) (num : Z) : throwing (option ptr) :=
  if (0 <=? num) && (num <? Z.of_nat (length (m_classes c)))
  then match m_classes c !! Z.to_nat num with
       | Some cls => Returns cls
       | None => Throws std_out_of_range
       end
  else Throws std_out_of_range.

Definition insert_at (cls : option ptr) (num : Z) (c : t) : throwing t :=
  match at_ c num with
  | Returns _ =>
      Returns {| m_classes := <[Z.to_nat num := cls]> (m_classes c) |}
  | Throws e => Throws e
  end.

Definition get (num : Z) (c : t) : throwing (option ptr) := at_ c num.

(** [erase(begin, end)] on a valid range; the iterator returned points
    at the element that followed the range. *)
Definition erase (first last : nat) (c : t) : nat * t :=
  (first, {| m_classes := take first (m_classes c)
                          ++ drop last (m_classes c) |}).

Definition size (c : t) : Z := to_int (Z.of_nat (length (m_classes c))).
Definition begin_ (c : t) : nat := 0%nat.
Definition end_ (c : t) : nat := length (m_classes c).

End DexClasses.

(** ** The text overloads with an encoded length *)

Definition DexType_make_type_cstr_utf (type_string : string) (utfsize : Z)
  (g_redex : RedexContext.t) : ptr * RedexContext.t :=
  let '(s, g1) := DexString_make_string type_string utfsize g_redex in
  DexType_make_type s g1.

Definition DexType_get_type_cstr_utf (type_string : string) (utfsize : Z)
  (g_redex : RedexContext.t) : option ptr :=
  s ← DexString_get_string type_string utfsize g_redex;
  DexType_get_type s g_redex.

(** ** Orders on the live objects of a class *)

(** A comparator that returns on live pointers and is a strict total
    order on them. *)
Record strict_order_on (live : nat -> Prop)
  (cmp : nat -> nat -> option bool) : Prop := {
  so_returns a b : live a -> live b -> is_Some (cmp a b);
  so_irrefl a : live a -> cmp a a = Some false;
  so_asym a b : live a -> live b -> cmp a b = Some true -> cmp b a = Some false;
  so_trans a b c :
    live a -> live b -> live c ->
    cmp a b = Some true -> cmp b c = Some true -> cmp a c = Some true;
  so_total a b :
    live a -> live b -> a <> b -> cmp a b = Some true \/ cmp b a = Some true
}.

Definition live_string (g : RedexContext.t) (p : ptr) : Prop :=
  (p < length (RedexContext.objs (RedexContext.strings g)))%nat.
Definition live_type (g : RedexContext.t) (p : ptr) : Prop :=
  (p < length (RedexContext.objs (RedexContext.types g)))%nat.
Definition live_typelist (g : RedexContext.t) (p : ptr) : Prop :=
  (p < length (RedexContext.objs (RedexContext.typelists g)))%nat.
Definition live_proto (g : RedexContext.t) (p : ptr) : Prop :=
  (p < length (RedexContext.objs (RedexContext.protos g)))%nat.
Definition live_field (g : RedexContext.t) (p : ptr) : Prop :=
  (p < length (RedexContext.objs (RedexContext.fields g)))%nat.

(** Every pointer held by a Field is live, and no two Fields have the
    same declaring Type, name and Type. *)
Definition fields_closed (g : RedexContext.t) : Prop :=
  Forall (fun f =>
            live_type g (DexField.m_class f)
            /\ live_string g (DexField.m_name f)
            /\ live_type g (DexField.m_type f))
         (RedexContext.objs (RedexContext.fields g)).

Definition fields_interned (g : RedexContext.t) : Prop :=
  NoDup ((fun f => (DexField.m_class f, DexField.m_name f, DexField.m_type f))
           <$> RedexContext.objs (RedexContext.fields g)).

Definition field_key (mutf8_units : ascii -> string -> Z * nat)
  (g : RedexContext.t) (f : ptr) : list Z * (list Z * list Z) :=
  match deref_field g f with
  | Some fo => (type_key mutf8_units g (DexField.get_class fo),
                (string_key mutf8_units g (DexField.get_name fo),
                 type_key mutf8_units g (DexField.get_type fo)))
  | None => ([], ([], []))
  end.

Definition field_key_lt
  : list Z * (list Z * list Z) -> list Z * (list Z * list Z) -> bool :=
  lex_pair (lex_list Z.ltb) (lex_pair (lex_list Z.ltb) (lex_list Z.ltb)).

(** The small store with three Fields of Type V: LA;.run, LA;.go and
    LB;.run. *)
Definition example_field_store : RedexContext.t :=
  serve_all [MakeField 0 2 2; MakeField 0 3 2; MakeField 1 2 2] example_store.

(** A store with the text "A" and the two bytes C1 81, both of encoded
    length 1; the second is a two-unit spelling of the same code
    point. *)
Definition text_c1_81 : string :=
  String (ascii_of_nat 193) (String (ascii_of_nat 129) "").

Definition overlong_store : RedexContext.t :=
  serve_all [MakeString "A" 1; MakeString text_c1_81 1] RedexContext.empty.

(** A list of Fields in which no element is above its successor. *)
Definition fields_sorted (mutf8_units : ascii -> string -> Z * nat)
  (g : RedexContext.t) (l : list ptr) : Prop :=
  Sorted (fun x y => compare_dexfields mutf8_units g y x = Some false) l.

(** ** Factory and re-keying traffic

    The calls a client makes on the context: the factory calls, and
    the re-keying calls [assign_name_alias], [change_class] and
    [change_proto].  A re-keying call is made on a live object; on a
    pointer that is not live it is no call and the context stays as it
    is. *)
Inductive call : Type :=
  | Factory (r : request)
  | AssignNameAlias (this new_name : ptr)
  | ChangeClass (this cls : ptr)
  | ChangeProto (this proto : ptr).

Definition perform (c : call) (g : RedexContext.t) : RedexContext.t :=
  match c with
  | Factory r => (serve r g).2
  | AssignNameAlias this new_name =>
      default g (DexType_assign_name_alias this new_name g)
  | ChangeClass this cls => default g (DexMethod_change_class this cls g)
  | ChangeProto this proto => default g (DexMethod_change_proto this proto g)
  end.

Fixpoint perform_all (cs : list call) (g : RedexContext.t)
  : RedexContext.t :=
  match cs with
  | [] => g
  | c :: rest => perform_all rest (perform c g)
  end.

(** [P] holds of every call of the run, in the context the call is made
    in. *)
Fixpoint throughout (P : call -> RedexContext.t -> Prop) (cs : list call)
  (g : RedexContext.t) : Prop :=
  match cs with
  | [] => True
  | c :: rest => P c g /\ throughout P rest (perform c g)
  end.

(** The call puts a key into a table: a [make_*] call with that key, or
    a re-keying call whose new key it is. *)
Definition installs_string (nstr : string) (c : call) (g : RedexContext.t)
  : Prop :=
  match c with Factory r => makes_string nstr r | _ => False end.

Definition installs_type (dstring : ptr) (c : call) (g : RedexContext.t)
  : Prop :=
  match c with
  | Factory r => makes_type dstring r
  | AssignNameAlias _ new_name => new_name = dstring
  | _ => False
  end.

Definition installs_field (container name type : ptr) (c : call)
  (g : RedexContext.t) : Prop :=
  match c with Factory r => makes_field container name type r | _ => False end.

Definition installs_method (type name proto : ptr) (c : call)
  (g : RedexContext.t) : Prop :=
  match c with
  | Factory r => makes_method type name proto r
  | ChangeClass this cls =>
      exists m, deref_method g this = Some m
                /\ (cls, DexMethod.get_name m, DexMethod.get_proto m)
                   = (type, name, proto)
  | ChangeProto this proto' =>
      exists m, deref_method g this = Some m
                /\ (DexMethod.get_class m, DexMethod.get_name m, proto')
                   = (type, name, proto)
  | _ => False
  end.

(** The call re-keys an object away from a key or onto it. *)
Definition rekeys_type (dstring : ptr) (c : call) (g : RedexContext.t)
  : Prop :=
  match c with
  | AssignNameAlias this new_name =>
      new_name = dstring
      \/ exists ty, deref_type g this = Some ty
                    /\ DexType.get_name ty = dstring
  | _ => False
  end.

Definition rekeys_method (type name proto : ptr) (c : call)
  (g : RedexContext.t) : Prop :=
  match c with
  | ChangeClass this cls =>
      exists m, deref_method g this = Some m
                /\ ((cls, DexMethod.get_name m, DexMethod.get_proto m)
                    = (type, name, proto)
                    \/ (DexMethod.get_class m, DexMethod.get_name m,
                        DexMethod.get_proto m) = (type, name, proto))
  | ChangeProto this proto' =>
      exists m, deref_method g this = Some m
                /\ ((DexMethod.get_class m, DexMethod.get_name m, proto')
                    = (type, name, proto)
                    \/ (DexMethod.get_class m, DexMethod.get_name m,
                        DexMethod.get_proto m) = (type, name, proto))
  | _ => False
  end.

(** The Type table is the inverse of the names: a key resolves to a
    pointer exactly when the Type at that pointer has the key for
    name. *)
Definition types_indexed (g : RedexContext.t) : Prop :=
  forall k p,
    DexType_get_type k g = Some p
    <-> exists ty, deref_type g p = Some ty /\ DexType.get_name ty = k.


(** Strings "Foo;" and "Bar;" and the Type Foo;, before and after the
    Type is given the name "Bar;". *)
Definition foo_calls : list call :=
  [Factory (MakeString "Foo;" 4); Factory (MakeString "Bar;" 4);
   Factory (MakeType 0)].

Definition foo_store : RedexContext.t :=
  perform_all foo_calls RedexContext.empty.

Definition foo_bar_store : RedexContext.t :=
  perform (AssignNameAlias 0 1) foo_store.

(** The bytes C0 80 and the byte 02, each with encoded length 1. *)
Definition two_unit_store : RedexContext.t :=
  serve_all [MakeString text_c0_80 1; MakeString text_02 1]
    RedexContext.empty.

(** ** Theorems *)

Lemma uleb128_low_group (x : Z) :
  0 <= x -> (Z.land x 127 =? x) = (x <? 2 ^ 7).
Proof.
  intros Hx. change 127 with (Z.ones 7). rewrite Z.land_ones by lia.
  destruct (Z.ltb_spec x (2 ^ 7)).
  - apply Z.eqb_eq. apply Z.mod_small. lia.
  - apply Z.eqb_neq. intros E.
    pose proof (Z.mod_pos_bound x (2 ^ 7) ltac:(lia)). lia.
Qed.

Lemma write_uleb128_from_length (fuel : nat) :
  forall (v : Z) (n : nat),
    (0 < n <= fuel)%nat -> 0 <= v ->
    (n = 1%nat \/ 2 ^ (7 * (Z.of_nat n - 1)) <= v) ->
    v < 2 ^ (7 * Z.of_nat n) ->
    length (write_uleb128_from fuel v) = n.
Proof.
  induction fuel as [|fuel IH]; intros v n Hn Hv Hlo Hhi; [lia|].
  cbn [write_uleb128_from]. rewrite uleb128_low_group by lia.
  destruct (Z.ltb_spec v (2 ^ 7)) as [Hs|Hs].
  - destruct Hlo as [->|Hlo]; [reflexivity|].
    destruct n as [|[|n]]; [lia|reflexivity|].
    exfalso.
    assert (2 ^ 7 <= 2 ^ (7 * (Z.of_nat (S (S n)) - 1)))
      by (apply Z.pow_le_mono_r; lia).
    lia.
  - destruct n as [|[|n]]; [lia| |].
    + change (7 * Z.of_nat 1) with 7 in Hhi. lia.
    + cbn [length]. f_equal. apply IH.
      * lia.
      * apply Z.shiftr_nonneg; lia.
      * destruct n as [|n]; [left; reflexivity|right].
        rewrite Z.shiftr_div_pow2 by lia.
        apply Z.div_le_lower_bound; [lia|].
        rewrite <- Z.pow_add_r by lia.
        destruct Hlo as [Hlo|Hlo]; [lia|].
        replace (7 + 7 * (Z.of_nat (S (S n)) - 1))
          with (7 * (Z.of_nat (S (S (S n))) - 1)) by lia.
        exact Hlo.
      * rewrite Z.shiftr_div_pow2 by lia.
        apply Z.div_lt_upper_bound; [lia|].
        rewrite <- Z.pow_add_r by lia.
        replace (7 + 7 * Z.of_nat (S n)) with (7 * Z.of_nat (S (S n))) by lia.
        exact Hhi.
Qed.

Lemma write_uleb128_length (val : Z) :
  Z.of_nat (length (write_uleb128 val)) = uleb128_encoding_size val.
Proof.
  unfold write_uleb128, uleb128_encoding_size.
  assert (Hr : 0 <= to_uint32 val < 2 ^ 32)
    by (unfold to_uint32; apply Z.mod_pos_bound; lia).
  set (v := to_uint32 val) in *. clearbody v.
  destruct (Z.ltb_spec v (2 ^ 7));
    [rewrite (write_uleb128_from_length 5 v 1); [reflexivity|lia|lia|auto|lia]|].
  destruct (Z.ltb_spec v (2 ^ 14));
    [rewrite (write_uleb128_from_length 5 v 2); [reflexivity|lia|lia|right; lia|lia]|].
  destruct (Z.ltb_spec v (2 ^ 21));
    [rewrite (write_uleb128_from_length 5 v 3); [reflexivity|lia|lia|right; lia|lia]|].
  destruct (Z.ltb_spec v (2 ^ 28));
    [rewrite (write_uleb128_from_length 5 v 4); [reflexivity|lia|lia|right; lia|lia]|].
  rewrite (write_uleb128_from_length 5 v 5); [reflexivity|lia|lia|right; lia|lia].
Qed.

(** *** Machine-integer facts *)

Lemma to_int_small (x : Z) : - 2 ^ 31 <= x <= INT_MAX -> to_int x = x.
Proof.
  unfold to_int, INT_MAX. intros Hx.
  rewrite Z.mod_small by lia. lia.
Qed.

Lemma uleb128_encoding_size_range (val : Z) :
  1 <= uleb128_encoding_size val <= 5.
Proof.
  unfold uleb128_encoding_size.
  repeat match goal with |- context [if ?c then _ else _] => destruct c end;
    lia.
Qed.

Lemma bytes_of_length (s : string) :
  Z.of_nat (length (bytes_of s)) = strlen s.
Proof.
  unfold strlen. induction s as [|c r IH]; cbn [bytes_of length String.length];
    [reflexivity|lia].
Qed.

Lemma strlen_nonneg (s : string) : 0 <= strlen s.
Proof. unfold strlen. lia. Qed.

(** *** String entry size and encoding *)

(** C3.  For the DexString built from [nstr] and [utfsize] (the raw
    length fitting an [int] with room for prefix and terminator),
    [get_entry_size] is the LEB128 size of the encoded-text length plus
    the raw length plus one; [encode] writes the LEB128 prefix of the
    encoded-text length, the raw bytes and one zero byte, exactly
    [get_entry_size] bytes in all.  For "hello" with encoded length 5
    the size is 7 and the bytes are 05 'h' 'e' 'l' 'l' 'o' 00. *)
Theorem dexstring_size_encode_agree (nstr : string) (utfsize : Z) :
  strlen nstr + 6 <= INT_MAX ->
  let s := DexString.new nstr utfsize in
  DexString.get_entry_size s
    = uleb128_encoding_size utfsize + strlen nstr + 1
  /\ DexString.encode s = write_uleb128 utfsize ++ bytes_of nstr ++ [0]
  /\ Z.of_nat (length (DexString.encode s)) = DexString.get_entry_size s
  /\ DexString.get_entry_size (DexString.new "hello" 5) = 7
  /\ DexString.encode (DexString.new "hello" 5)
     = [5; 104; 101; 108; 108; 111; 0].
Proof.
  intros Hfit s.
  pose proof (uleb128_encoding_size_range utfsize) as Hu.
  pose proof (strlen_nonneg nstr) as Hl.
  assert (Hsize : DexString.get_entry_size s
                  = uleb128_encoding_size utfsize + strlen nstr + 1).
  { unfold DexString.get_entry_size, s, DexString.new; cbn.
    unfold INT_MAX in *.
    rewrite (to_int_small (strlen nstr)) by (unfold INT_MAX; lia).
    rewrite (to_int_small (uleb128_encoding_size utfsize))
      by (unfold INT_MAX; lia).
    rewrite (to_int_small (_ + strlen nstr)) by (unfold INT_MAX; lia).
    rewrite to_int_small by (unfold INT_MAX; lia).
    reflexivity. }
  split; [exact Hsize|].
  split; [reflexivity|].
  split.
  - rewrite Hsize. unfold DexString.encode, strcpy, s, DexString.new.
    cbn [DexString.m_cstr DexString.m_utfsize].
    rewrite !length_app, !Nat2Z.inj_add, write_uleb128_length,
      bytes_of_length.
    cbn [length]. lia.
  - split; reflexivity.
Qed.

Lemma dexstring_size_encode_agree_witness :
  strlen "hello" + 6 <= INT_MAX
  /\ Z.of_nat (length (DexString.encode (DexString.new "hello" 5)))
     = DexString.get_entry_size (DexString.new "hello" 5).
Proof.
  assert (H : strlen "hello" + 6 <= INT_MAX) by (vm_compute; discriminate).
  split; [exact H|].
  exact (proj1 (proj2 (proj2 (dexstring_size_encode_agree "hello" 5 H)))).
Defined.

(** *** Access flags *)

(** C8.  For a DexField and for a DexMethod, [is_def] is concrete or
    external; [get_access] returns the stored flags on a definition and
    takes the assertion path on a bare reference. *)
Theorem get_access_requires_def :
  (forall f : DexField.t,
      DexField.is_def f = DexField.is_concrete f || DexField.is_external f
      /\ (DexField.is_def f = true ->
          DexField.get_access f = Ok (DexField.m_access f))
      /\ (DexField.is_def f = false ->
          DexField.get_access f = Abort (assertion_failed "is_def()")))
  /\ (forall m : DexMethod.t,
      DexMethod.is_def m = DexMethod.is_concrete m || DexMethod.is_external m
      /\ (DexMethod.is_def m = true ->
          DexMethod.get_access m = Ok (DexMethod.m_access m))
      /\ (DexMethod.is_def m = false ->
          DexMethod.get_access m = Abort (assertion_failed "is_def()"))).
Proof.
  split.
  - intros f. split; [reflexivity|].
    unfold DexField.get_access, always_assert.
    split; intros ->; reflexivity.
  - intros m. split; [reflexivity|].
    unfold DexMethod.get_access, always_assert.
    split; intros ->; reflexivity.
Qed.

Lemma get_access_requires_def_witness :
  DexField.get_access (DexField.with_access 1 (DexField.with_external true
                         (DexField.new 0 1 2))) = Ok 1
  /\ DexMethod.get_access (DexMethod.new 0 1 2)
     = Abort (assertion_failed "is_def()").
Proof.
  split.
  - exact (proj1 (proj2 (proj1 get_access_requires_def
             (DexField.with_access 1 (DexField.with_external true
                (DexField.new 0 1 2))))) eq_refl).
  - exact (proj2 (proj2 (proj2 get_access_requires_def
             (DexMethod.new 0 1 2))) eq_refl).
Defined.

(** *** Fresh members *)

Lemma intern_fresh {K : Type} `{Countable K} {V : Type}
  (k : K) (v : V) (tb : RedexContext.table K V) :
  RedexContext.find k tb = None ->
  RedexContext.objs tb !! (RedexContext.intern k v tb).1 = None
  /\ RedexContext.objs (RedexContext.intern k v tb).2
       !! (RedexContext.intern k v tb).1 = Some v.
Proof.
  unfold RedexContext.find, RedexContext.intern. intros ->. cbn. split.
  - apply lookup_ge_None. lia.
  - rewrite lookup_app_r by lia. by rewrite Nat.sub_diag.
Qed.

(** C10.  The first [make_field] / [make_method] call for a key
    creates, at an address not live before, the object the private
    constructor builds: not concrete, not external, hence not a
    definition; no annotation set; access flags 0; a field has no
    static value; a method has no code, is not virtual and
    [get_param_anno] is null. *)
Theorem fresh_member_is_bare_reference (g : RedexContext.t) :
  (forall container name type : ptr,
      DexField_get_field container name type g = None ->
      let r := DexField_make_field container name type g in
      deref_field g r.1 = None
      /\ exists f,
          deref_field r.2 r.1 = Some f
          /\ f = DexField.new container name type
          /\ DexField.is_concrete f = false
          /\ DexField.is_external f = false
          /\ DexField.is_def f = false
          /\ DexField.get_anno_set f = None
          /\ DexField.m_access f = 0
          /\ DexField.get_static_value f = None)
  /\ (forall type name proto : ptr,
      DexMethod_get_method type name proto g = None ->
      let r := DexMethod_make_method type name proto g in
      deref_method g r.1 = None
      /\ exists m,
          deref_method r.2 r.1 = Some m
          /\ m = DexMethod.new type name proto
          /\ DexMethod.is_concrete m = false
          /\ DexMethod.is_external m = false
          /\ DexMethod.is_def m = false
          /\ DexMethod.get_anno_set m = None
          /\ DexMethod.m_access m = 0
          /\ DexMethod.get_code m = None
          /\ DexMethod.is_virtual m = false
          /\ DexMethod.get_param_anno m = None).
Proof.
  split.
  - intros c n t Hnone r.
    destruct (intern_fresh (c, n, t) (DexField.new c n t)
                (RedexContext.fields g) Hnone) as [Hold Hnew].
    subst r. unfold DexField_make_field, RedexContext.make_field, deref_field.
    destruct (RedexContext.intern (c, n, t) (DexField.new c n t)
                (RedexContext.fields g)) as [p tb] eqn:E.
    cbn in *. split; [exact Hold|].
    exists (DexField.new c n t). repeat split; assumption.
  - intros t n p Hnone r.
    destruct (intern_fresh (t, n, p) (DexMethod.new t n p)
                (RedexContext.methods g) Hnone) as [Hold Hnew].
    subst r. unfold DexMethod_make_method, RedexContext.make_method,
      deref_method.
    destruct (RedexContext.intern (t, n, p) (DexMethod.new t n p)
                (RedexContext.methods g)) as [q tb] eqn:E.
    cbn in *. split; [exact Hold|].
    exists (DexMethod.new t n p). repeat split; assumption.
Qed.

Lemma fresh_member_is_bare_reference_witness :
  deref_field (DexField_make_field 0 1 2 RedexContext.empty).2
              (DexField_make_field 0 1 2 RedexContext.empty).1
    = Some (DexField.new 0 1 2)
  /\ deref_method (DexMethod_make_method 0 1 2 RedexContext.empty).2
                  (DexMethod_make_method 0 1 2 RedexContext.empty).1
    = Some (DexMethod.new 0 1 2).
Proof.
  split.
  - destruct (proj1 (fresh_member_is_bare_reference RedexContext.empty)
                0%nat 1%nat 2%nat eq_refl) as [_ [f [Hf [-> _]]]].
    exact Hf.
  - destruct (proj2 (fresh_member_is_bare_reference RedexContext.empty)
                0%nat 1%nat 2%nat eq_refl) as [_ [m [Hm [-> _]]]].
    exact Hm.
Defined.

(** *** Annotation attachment *)

Lemma field_attach_spec (aset : option ptr) (f : DexField.t) :
  DexField.attach_annotation_set aset f
  = if bool_decide (DexField.m_anno f = None /\ DexField.m_concrete f = false)
    then Ok (DexField.with_anno aset f)
    else Abort (assertion_failed_log
                  "attach_annotation_set failed for field %s.%s\n"
                  [arg_type_name (DexField.m_class f);
                   arg_string (DexField.m_name f)]).
Proof.
  unfold DexField.attach_annotation_set.
  destruct (DexField.m_anno f), (DexField.m_concrete f); reflexivity.
Qed.

Lemma method_attach_spec (this : ptr) (aset : option ptr) (m : DexMethod.t) :
  DexMethod.attach_annotation_set this aset m
  = if bool_decide (DexMethod.m_anno m = None
                    /\ DexMethod.m_concrete m = false)
    then Ok (DexMethod.with_anno aset m)
    else Abort (assertion_failed_log
                  "attach_annotation_set failed for method %s\n"
                  [arg_show_short this]).
Proof.
  unfold DexMethod.attach_annotation_set.
  destruct (DexMethod.m_anno m), (DexMethod.m_concrete m); reflexivity.
Qed.

Lemma assert_is_ok {A} (NDEBUG e : bool) (expr : string) (a : A) :
  is_ok (assert NDEBUG e expr (Ok a)) = NDEBUG || e.
Proof. destruct NDEBUG, e; reflexivity. Qed.

Lemma assert_Ok_inv {A} (NDEBUG e : bool) (expr : string) (a b : A) :
  assert NDEBUG e expr (Ok a) = Ok b -> a = b.
Proof. destruct NDEBUG, e; cbn; congruence. Qed.

Lemma always_assert_Ok_inv {A} (e : bool) (expr : string) (a b : A) :
  always_assert e expr (Ok a) = Ok b -> e = true /\ a = b.
Proof. destruct e; cbn; [intros [= ->]; auto|discriminate]. Qed.

Lemma field_call_keeps_anno (NDEBUG : bool) (c : field_call)
  (f f' : DexField.t) :
  c <> FieldClearAnnotations ->
  field_call_apply NDEBUG c f = Ok f' ->
  DexField.m_anno f <> None -> DexField.m_anno f' <> None.
Proof.
  intros Hc Happ Hf. destruct c as [access| | |aset]; cbn in Happ.
  - apply assert_Ok_inv in Happ. by subst f'.
  - apply always_assert_Ok_inv in Happ. destruct Happ as [_ <-]. exact Hf.
  - done.
  - rewrite field_attach_spec in Happ.
    rewrite bool_decide_eq_false_2 in Happ by (intros [? _]; contradiction).
    discriminate.
Qed.

Lemma method_call_keeps_anno (NDEBUG : bool) (this : ptr) (c : method_call)
  (m m' : DexMethod.t) :
  c <> MethodClearAnnotations ->
  method_call_apply NDEBUG this c m = Ok m' ->
  DexMethod.m_anno m <> None -> DexMethod.m_anno m' <> None.
Proof.
  intros Hc Happ Hm.
  destruct c as [access|v| |code| |aset|paramno aset]; cbn in Happ.
  - apply assert_Ok_inv in Happ. by subst m'.
  - apply assert_Ok_inv in Happ. by subst m'.
  - apply always_assert_Ok_inv in Happ. destruct Happ as [_ <-]. exact Hm.
  - injection Happ as <-. exact Hm.
  - done.
  - rewrite method_attach_spec in Happ.
    rewrite bool_decide_eq_false_2 in Happ by (intros [? _]; contradiction).
    discriminate.
  - unfold DexMethod.attach_param_annotation_set in Happ.
    destruct (_ && _); [|discriminate]. injection Happ as <-. exact Hm.
Qed.

Lemma field_attachments_attached (NDEBUG : bool) (calls : list field_call) :
  forall f : DexField.t,
    Forall (fun c => c <> FieldClearAnnotations) calls ->
    DexField.m_anno f <> None ->
    field_attachments NDEBUG calls f = 0%nat.
Proof.
  induction calls as [|c rest IH]; intros f Hcalls Hf; [reflexivity|].
  inversion Hcalls as [|? ? Hc Hrest]; subst.
  cbn [field_attachments].
  destruct (field_call_apply NDEBUG c f) as [f'|e] eqn:E;
    [|by apply IH].
  rewrite (IH f' Hrest (field_call_keeps_anno _ _ _ _ Hc E Hf)).
  destruct c as [| | |[a|]]; try reflexivity.
  cbn in E. rewrite field_attach_spec in E.
  rewrite bool_decide_eq_false_2 in E by (intros [? _]; contradiction).
  discriminate.
Qed.

Lemma method_attachments_attached (NDEBUG : bool) (this : ptr)
  (calls : list method_call) :
  forall m : DexMethod.t,
    Forall (fun c => c <> MethodClearAnnotations) calls ->
    DexMethod.m_anno m <> None ->
    method_attachments NDEBUG this calls m = 0%nat.
Proof.
  induction calls as [|c rest IH]; intros m Hcalls Hm; [reflexivity|].
  inversion Hcalls as [|? ? Hc Hrest]; subst.
  cbn [method_attachments].
  destruct (method_call_apply NDEBUG this c m) as [m'|e] eqn:E;
    [|by apply IH].
  rewrite (IH m' Hrest (method_call_keeps_anno _ _ _ _ _ Hc E Hm)).
  destruct c as [| | | | |[a|]|]; try reflexivity.
  cbn in E. rewrite method_attach_spec in E.
  rewrite bool_decide_eq_false_2 in E by (intros [? _]; contradiction).
  discriminate.
Qed.

Lemma field_attachments_le_1 (NDEBUG : bool) (calls : list field_call) :
  forall f : DexField.t,
    Forall (fun c => c <> FieldClearAnnotations) calls ->
    (field_attachments NDEBUG calls f <= 1)%nat.
Proof.
  induction calls as [|c rest IH]; intros f Hcalls; [cbn; lia|].
  inversion Hcalls as [|? ? Hc Hrest]; subst.
  cbn [field_attachments].
  destruct (field_call_apply NDEBUG c f) as [f'|e] eqn:E;
    [|by apply IH].
  destruct c as [| | |[a|]]; cbn [field_call_attaches];
    try (specialize (IH f' Hrest); lia).
  cbn in E. rewrite field_attach_spec in E.
  case_bool_decide; [|discriminate]. injection E as <-.
  rewrite field_attachments_attached by (assumption || (cbn; discriminate)).
  lia.
Qed.

Lemma method_attachments_le_1 (NDEBUG : bool) (this : ptr)
  (calls : list method_call) :
  forall m : DexMethod.t,
    Forall (fun c => c <> MethodClearAnnotations) calls ->
    (method_attachments NDEBUG this calls m <= 1)%nat.
Proof.
  induction calls as [|c rest IH]; intros m Hcalls; [cbn; lia|].
  inversion Hcalls as [|? ? Hc Hrest]; subst.
  cbn [method_attachments].
  destruct (method_call_apply NDEBUG this c m) as [m'|e] eqn:E;
    [|by apply IH].
  destruct c as [| | | | |[a|]|]; cbn [method_call_attaches];
    try (specialize (IH m' Hrest); lia).
  cbn in E. rewrite method_attach_spec in E.
  case_bool_decide; [|discriminate]. injection E as <-.
  rewrite method_attachments_attached by (assumption || (cbn; discriminate)).
  lia.
Qed.

(** C7, as the code has it.  For a DexField and for a DexMethod,
    [attach_annotation_set] stores the set and returns exactly when no
    annotation set is attached and the entity is not concrete; in
    every other case it takes the assertion path, whose message names
    the field's class and name, or the method.  Hence in a run of
    mutator calls on one entity that does not call
    [clear_annotations], at most one call attaches a set. *)
Theorem attach_annotation_set_once (NDEBUG : bool) :
  (forall (aset : option ptr) (f : DexField.t),
      (DexField.m_anno f = None /\ DexField.m_concrete f = false ->
       DexField.attach_annotation_set aset f
       = Ok (DexField.with_anno aset f))
      /\ (~ (DexField.m_anno f = None /\ DexField.m_concrete f = false) ->
          DexField.attach_annotation_set aset f
          = Abort (assertion_failed_log
                     "attach_annotation_set failed for field %s.%s\n"
                     [arg_type_name (DexField.m_class f);
                      arg_string (DexField.m_name f)])))
  /\ (forall (calls : list field_call) (f : DexField.t),
      Forall (fun c => c <> FieldClearAnnotations) calls ->
      (field_attachments NDEBUG calls f <= 1)%nat)
  /\ (forall (this : ptr) (aset : option ptr) (m : DexMethod.t),
      (DexMethod.m_anno m = None /\ DexMethod.m_concrete m = false ->
       DexMethod.attach_annotation_set this aset m
       = Ok (DexMethod.with_anno aset m))
      /\ (~ (DexMethod.m_anno m = None /\ DexMethod.m_concrete m = false) ->
          DexMethod.attach_annotation_set this aset m
          = Abort (assertion_failed_log
                     "attach_annotation_set failed for method %s\n"
                     [arg_show_short this])))
  /\ (forall (this : ptr) (calls : list method_call) (m : DexMethod.t),
      Forall (fun c => c <> MethodClearAnnotations) calls ->
      (method_attachments NDEBUG this calls m <= 1)%nat).
Proof.
  split; [|split; [|split]].
  - intros aset f. rewrite field_attach_spec. split; intros Hc.
    + by rewrite bool_decide_eq_true_2.
    + by rewrite bool_decide_eq_false_2.
  - intros calls f. apply field_attachments_le_1.
  - intros this aset m. rewrite method_attach_spec. split; intros Hc.
    + by rewrite bool_decide_eq_true_2.
    + by rewrite bool_decide_eq_false_2.
  - intros this calls m. apply method_attachments_le_1.
Qed.

Lemma attach_annotation_set_once_witness :
  DexField.attach_annotation_set (Some 7%nat) (DexField.new 0 1 2)
  = Ok (DexField.with_anno (Some 7%nat) (DexField.new 0 1 2))
  /\ (field_attachments false
        [FieldAttach (Some 7%nat); FieldSetAccess 1; FieldAttach (Some 8%nat)]
        (DexField.new 0 1 2) <= 1)%nat.
Proof.
  split.
  - exact (proj1 (proj1 (attach_annotation_set_once false) (Some 7%nat)
                    (DexField.new 0 1 2)) (conj eq_refl eq_refl)).
  - refine (proj1 (proj2 (attach_annotation_set_once false)) _ _ _).
    repeat constructor; discriminate.
Defined.

(** C7 as stated fails: [clear_annotations] empties the slot, so a
    field that is never concrete takes two attachments. *)
Lemma attach_twice_after_clear :
  field_attachments false
    [FieldAttach (Some 7%nat); FieldClearAnnotations; FieldAttach (Some 8%nat)]
    (DexField.new 0 1 2) = 2%nat
  /\ DexField.attach_annotation_set (Some 7%nat) (DexField.new 0 1 2)
     = Ok (DexField.with_anno (Some 7%nat) (DexField.new 0 1 2))
  /\ DexField.clear_annotations
       (DexField.with_anno (Some 7%nat) (DexField.new 0 1 2))
     = DexField.new 0 1 2
  /\ DexField.attach_annotation_set (Some 8%nat) (DexField.new 0 1 2)
     = Ok (DexField.with_anno (Some 8%nat) (DexField.new 0 1 2))
  /\ DexField.is_concrete
       (DexField.with_anno (Some 8%nat) (DexField.new 0 1 2)) = false.
Proof. repeat split. Qed.

(** *** Concreteness and externality *)

Lemma field_step_flags (NDEBUG : bool) (f f' : DexField.t) :
  field_step NDEBUG f f' ->
  (DexField.is_concrete f = true -> DexField.is_concrete f' = true)
  /\ (DexField.is_external f = true -> DexField.is_external f' = true).
Proof.
  intros Hstep. destruct Hstep as [a f f' H|f f' H|f|aset f f' H].
  - apply assert_Ok_inv in H. subst f'. auto.
  - apply always_assert_Ok_inv in H. destruct H as [_ <-]. auto.
  - auto.
  - rewrite field_attach_spec in H. case_bool_decide; [|discriminate].
    injection H as <-. auto.
Qed.

Lemma method_step_flags (NDEBUG : bool) (m m' : DexMethod.t) :
  method_step NDEBUG m m' ->
  (DexMethod.is_concrete m = true -> DexMethod.is_concrete m' = true)
  /\ (DexMethod.is_external m = true -> DexMethod.is_external m' = true).
Proof.
  intros Hstep.
  destruct Hstep as [a m m' H|v m m' H|m m' H|c m|m|this aset m m' H
                    |this pn aset m m' H].
  - apply assert_Ok_inv in H. subst m'. auto.
  - apply assert_Ok_inv in H. subst m'. auto.
  - apply always_assert_Ok_inv in H. destruct H as [_ <-]. auto.
  - auto.
  - auto.
  - rewrite method_attach_spec in H. case_bool_decide; [|discriminate].
    injection H as <-. auto.
  - unfold DexMethod.attach_param_annotation_set in H.
    destruct (_ && _); [|discriminate]. injection H as <-. auto.
Qed.

Lemma class_step_flags (NDEBUG : bool) (c c' : DexClass.t) :
  class_step NDEBUG c c' ->
  DexClass.is_external c = true -> DexClass.is_external c' = true.
Proof.
  intros Hstep. destruct Hstep as [a c c' H|sf c|i c c' H|c].
  - apply assert_Ok_inv in H. subst c'. auto.
  - auto.
  - apply assert_Ok_inv in H. subst c'. auto.
  - auto.
Qed.

(** C9, as the code has it.  No mutator defined in this header clears
    the concrete or external flag, so along any sequence of successful
    mutator calls an entity stays concrete, and stays external.
    Rejection is per operation: [set_external] takes the fatal path
    exactly on a concrete entity; [attach_annotation_set] exactly on an
    entity that is concrete or has an annotation set; [set_access],
    [set_virtual], [set_interfaces] and the mutable member-list
    accessors exactly on an external entity, in a build that keeps
    [assert]. *)
Theorem concreteness_monotonic (NDEBUG : bool) :
  ((forall access f, is_ok (DexField.set_access NDEBUG access f)
                     = NDEBUG || negb (DexField.is_external f))
   /\ (forall f, is_ok (DexField.set_external f)
                 = negb (DexField.is_concrete f))
   /\ (forall aset f, is_ok (DexField.attach_annotation_set aset f)
                      = bool_decide (DexField.get_anno_set f = None)
                        && negb (DexField.is_concrete f)))
  /\ ((forall access m, is_ok (DexMethod.set_access NDEBUG access m)
                        = NDEBUG || negb (DexMethod.is_external m))
      /\ (forall v m, is_ok (DexMethod.set_virtual NDEBUG v m)
                      = NDEBUG || negb (DexMethod.is_external m))
      /\ (forall m, is_ok (DexMethod.set_external m)
                    = negb (DexMethod.is_concrete m))
      /\ (forall this aset m,
             is_ok (DexMethod.attach_annotation_set this aset m)
             = bool_decide (DexMethod.get_anno_set m = None)
               && negb (DexMethod.is_concrete m)))
  /\ ((forall access c, is_ok (DexClass.set_access NDEBUG access c)
                        = NDEBUG || negb (DexClass.is_external c))
      /\ (forall intfs c, is_ok (DexClass.set_interfaces NDEBUG intfs c)
                          = NDEBUG || negb (DexClass.is_external c))
      /\ (forall c, is_ok (DexClass.get_dmethods NDEBUG c)
                    = NDEBUG || negb (DexClass.is_external c))
      /\ (forall c, is_ok (DexClass.get_vmethods NDEBUG c)
                    = NDEBUG || negb (DexClass.is_external c))
      /\ (forall c, is_ok (DexClass.get_sfields NDEBUG c)
                    = NDEBUG || negb (DexClass.is_external c))
      /\ (forall c, is_ok (DexClass.get_ifields NDEBUG c)
                    = NDEBUG || negb (DexClass.is_external c)))
  /\ (forall f f', rtc (field_step NDEBUG) f f' ->
        (DexField.is_concrete f = true -> DexField.is_concrete f' = true)
        /\ (DexField.is_external f = true -> DexField.is_external f' = true))
  /\ (forall m m', rtc (method_step NDEBUG) m m' ->
        (DexMethod.is_concrete m = true -> DexMethod.is_concrete m' = true)
        /\ (DexMethod.is_external m = true ->
            DexMethod.is_external m' = true))
  /\ (forall c c', rtc (class_step NDEBUG) c c' ->
        DexClass.is_external c = true -> DexClass.is_external c' = true).
Proof.
  repeat split; intros; try apply assert_is_ok.
  - unfold DexField.set_external, always_assert, DexField.is_concrete.
    by destruct (DexField.m_concrete f).
  - unfold DexField.attach_annotation_set, DexField.get_anno_set,
      DexField.is_concrete.
    by destruct (DexField.m_anno f), (DexField.m_concrete f).
  - unfold DexMethod.set_external, always_assert, DexMethod.is_concrete.
    by destruct (DexMethod.m_concrete m).
  - unfold DexMethod.attach_annotation_set, DexMethod.get_anno_set,
      DexMethod.is_concrete.
    by destruct (DexMethod.m_anno m), (DexMethod.m_concrete m).
  - match goal with H : rtc _ _ _ |- _ => induction H as [|x y z Hs _ IH] end;
      [assumption|].
    apply IH. by apply (field_step_flags _ _ _ Hs).
  - match goal with H : rtc _ _ _ |- _ => induction H as [|x y z Hs _ IH] end;
      [assumption|].
    apply IH. by apply (field_step_flags _ _ _ Hs).
  - match goal with H : rtc _ _ _ |- _ => induction H as [|x y z Hs _ IH] end;
      [assumption|].
    apply IH. by apply (method_step_flags _ _ _ Hs).
  - match goal with H : rtc _ _ _ |- _ => induction H as [|x y z Hs _ IH] end;
      [assumption|].
    apply IH. by apply (method_step_flags _ _ _ Hs).
  - match goal with H : rtc _ _ _ |- _ => induction H as [|x y z Hs _ IH] end;
      [assumption|].
    apply IH. by apply (class_step_flags _ _ _ Hs).
Qed.

Lemma concreteness_monotonic_witness :
  DexField.is_external
    (DexField.with_anno (Some 7%nat)
       (DexField.with_external true (DexField.new 0 1 2))) = true.
Proof.
  refine (proj2 (proj1 (proj2 (proj2 (proj2 (concreteness_monotonic false))))
                   (DexField.with_external true (DexField.new 0 1 2))
                   (DexField.with_anno (Some 7%nat)
                      (DexField.with_external true (DexField.new 0 1 2)))
                   _) eq_refl).
  apply rtc_once.
  apply (field_attach_annotation_set false (Some 7%nat)).
  reflexivity.
Defined.

(** C9 as stated fails: an external field accepts [set_external] and
    [attach_annotation_set], and a concrete field accepts [set_access]
    with assertions kept. *)
Lemma external_or_concrete_still_accepts :
  DexField.set_external (DexField.new 0 1 2)
  = Ok (DexField.with_external true (DexField.new 0 1 2))
  /\ DexField.is_external (DexField.with_external true (DexField.new 0 1 2))
     = true
  /\ DexField.set_external (DexField.with_external true (DexField.new 0 1 2))
     = Ok (DexField.with_external true (DexField.new 0 1 2))
  /\ DexField.attach_annotation_set (Some 7%nat)
       (DexField.with_external true (DexField.new 0 1 2))
     = Ok (DexField.with_anno (Some 7%nat)
             (DexField.with_external true (DexField.new 0 1 2)))
  /\ DexField.is_concrete (DexField.mk 0 1 2 None None 0 true false) = true
  /\ DexField.set_access false 1 (DexField.mk 0 1 2 None None 0 true false)
     = Ok (DexField.mk 0 1 2 None None 1 true false).
Proof. repeat split. Qed.

(** *** Interning *)

Section TableFacts.
Context {K : Type} `{Countable K} {V : Type}.
Implicit Types (k : K) (v : V) (tb : RedexContext.table K V).

Lemma intern_found k v tb p :
  RedexContext.find k tb = Some p -> RedexContext.intern k v tb = (p, tb).
Proof. unfold RedexContext.find, RedexContext.intern. by intros ->. Qed.

Lemma intern_find k v tb :
  RedexContext.find k (RedexContext.intern k v tb).2
  = Some (RedexContext.intern k v tb).1.
Proof.
  unfold RedexContext.find, RedexContext.intern.
  destruct (RedexContext.index tb !! k) as [p|] eqn:E; cbn; [exact E|].
  apply lookup_insert_eq.
Qed.

Lemma intern_preserves k k' v tb p :
  RedexContext.find k tb = Some p ->
  RedexContext.find k (RedexContext.intern k' v tb).2 = Some p.
Proof.
  unfold RedexContext.find, RedexContext.intern. intros Hk.
  destruct (RedexContext.index tb !! k') as [q|] eqn:E; cbn; [exact Hk|].
  rewrite lookup_insert_ne; [exact Hk|]. intros ->. congruence.
Qed.

Lemma intern_absent k k' v tb :
  RedexContext.find k tb = None -> k' <> k ->
  RedexContext.find k (RedexContext.intern k' v tb).2 = None.
Proof.
  unfold RedexContext.find, RedexContext.intern. intros Hk Hne.
  destruct (RedexContext.index tb !! k') as [q|] eqn:E; cbn; [exact Hk|].
  by rewrite lookup_insert_ne.
Qed.

End TableFacts.

Lemma make_string_eq nstr utfsize g :
  DexString_make_string nstr utfsize g
  = ((RedexContext.intern nstr (DexString.new nstr utfsize)
        (RedexContext.strings g)).1,
     RedexContext.with_strings
       (RedexContext.intern nstr (DexString.new nstr utfsize)
          (RedexContext.strings g)).2 g).
Proof.
  unfold DexString_make_string, RedexContext.make_string.
  by destruct (RedexContext.intern _ _ _).
Qed.

Lemma make_type_eq dstring g :
  DexType_make_type dstring g
  = ((RedexContext.intern dstring (DexType.new dstring)
        (RedexContext.types g)).1,
     RedexContext.with_types
       (RedexContext.intern dstring (DexType.new dstring)
          (RedexContext.types g)).2 g).
Proof.
  unfold DexType_make_type, RedexContext.make_type.
  by destruct (RedexContext.intern _ _ _).
Qed.

Lemma make_field_eq c n t g :
  DexField_make_field c n t g
  = ((RedexContext.intern (c, n, t) (DexField.new c n t)
        (RedexContext.fields g)).1,
     RedexContext.with_fields
       (RedexContext.intern (c, n, t) (DexField.new c n t)
          (RedexContext.fields g)).2 g).
Proof.
  unfold DexField_make_field, RedexContext.make_field.
  by destruct (RedexContext.intern _ _ _).
Qed.

Lemma make_type_list_eq l g :
  DexTypeList_make_type_list l g
  = ((RedexContext.intern l (DexTypeList.new l)
        (RedexContext.typelists g)).1,
     RedexContext.with_typelists
       (RedexContext.intern l (DexTypeList.new l)
          (RedexContext.typelists g)).2 g).
Proof.
  unfold DexTypeList_make_type_list, RedexContext.make_type_list.
  by destruct (RedexContext.intern _ _ _).
Qed.

Lemma make_proto_eq r a sh g :
  DexProto_make_proto r a sh g
  = ((RedexContext.intern (r, a) (DexProto.new r a sh)
        (RedexContext.protos g)).1,
     RedexContext.with_protos
       (RedexContext.intern (r, a) (DexProto.new r a sh)
          (RedexContext.protos g)).2 g).
Proof.
  unfold DexProto_make_proto, RedexContext.make_proto.
  by destruct (RedexContext.intern _ _ _).
Qed.

Lemma make_method_eq t n p g :
  DexMethod_make_method t n p g
  = ((RedexContext.intern (t, n, p) (DexMethod.new t n p)
        (RedexContext.methods g)).1,
     RedexContext.with_methods
       (RedexContext.intern (t, n, p) (DexMethod.new t n p)
          (RedexContext.methods g)).2 g).
Proof.
  unfold DexMethod_make_method, RedexContext.make_method.
  by destruct (RedexContext.intern _ _ _).
Qed.

Lemma extends_refl g : extends g g.
Proof. by split. Qed.

Lemma extends_trans g1 g2 g3 : extends g1 g2 -> extends g2 g3 -> extends g1 g3.
Proof. intros [] []. split; eauto. Qed.

Lemma serve_extends r g : extends g (serve r g).2.
Proof.
  destruct r; cbn [serve]; try apply extends_refl.
  - rewrite make_string_eq. cbn. split; cbn; auto using @intern_preserves.
  - rewrite make_type_eq. cbn. split; cbn; auto using @intern_preserves.
  - rewrite make_field_eq. cbn. split; cbn; auto using @intern_preserves.
  - rewrite make_type_list_eq. cbn. split; cbn; auto.
  - rewrite make_proto_eq. cbn. split; cbn; auto.
  - rewrite make_method_eq. cbn. split; cbn; auto using @intern_preserves.
Qed.

Lemma serve_all_extends rs : forall g, extends g (serve_all rs g).
Proof.
  induction rs as [|r rest IH]; intros g; cbn [serve_all].
  - apply extends_refl.
  - eapply extends_trans; [apply serve_extends|apply IH].
Qed.

Lemma never_made_string nstr rs :
  forall g,
    RedexContext.find nstr (RedexContext.strings g) = None ->
    Forall (fun r => ~ makes_string nstr r) rs ->
    RedexContext.find nstr (RedexContext.strings (serve_all rs g)) = None.
Proof.
  induction rs as [|r rest IH]; intros g Hg Hrs; [exact Hg|].
  inversion Hrs as [|? ? Hr Hrest]; subst. cbn [serve_all].
  apply IH; [|exact Hrest].
  destruct r; cbn [serve]; try exact Hg;
    rewrite ?make_type_eq, ?make_field_eq, ?make_type_list_eq,
      ?make_proto_eq, ?make_method_eq; try exact Hg.
  rewrite make_string_eq. cbn. apply intern_absent; [exact Hg|exact Hr].
Qed.

Lemma never_made_type dstring rs :
  forall g,
    RedexContext.find dstring (RedexContext.types g) = None ->
    Forall (fun r => ~ makes_type dstring r) rs ->
    RedexContext.find dstring (RedexContext.types (serve_all rs g)) = None.
Proof.
  induction rs as [|r rest IH]; intros g Hg Hrs; [exact Hg|].
  inversion Hrs as [|? ? Hr Hrest]; subst. cbn [serve_all].
  apply IH; [|exact Hrest].
  destruct r; cbn [serve]; try exact Hg;
    rewrite ?make_string_eq, ?make_field_eq, ?make_type_list_eq,
      ?make_proto_eq, ?make_method_eq; try exact Hg.
  rewrite make_type_eq. cbn. apply intern_absent; [exact Hg|exact Hr].
Qed.

Lemma never_made_field c n t rs :
  forall g,
    RedexContext.find (c, n, t) (RedexContext.fields g) = None ->
    Forall (fun r => ~ makes_field c n t r) rs ->
    RedexContext.find (c, n, t) (RedexContext.fields (serve_all rs g)) = None.
Proof.
  induction rs as [|r rest IH]; intros g Hg Hrs; [exact Hg|].
  inversion Hrs as [|? ? Hr Hrest]; subst. cbn [serve_all].
  apply IH; [|exact Hrest].
  destruct r; cbn [serve]; try exact Hg;
    rewrite ?make_string_eq, ?make_type_eq, ?make_type_list_eq,
      ?make_proto_eq, ?make_method_eq; try exact Hg.
  rewrite make_field_eq. cbn. apply intern_absent; [exact Hg|exact Hr].
Qed.

Lemma never_made_method t n p rs :
  forall g,
    RedexContext.find (t, n, p) (RedexContext.methods g) = None ->
    Forall (fun r => ~ makes_method t n p r) rs ->
    RedexContext.find (t, n, p) (RedexContext.methods (serve_all rs g)) = None.
Proof.
  induction rs as [|r rest IH]; intros g Hg Hrs; [exact Hg|].
  inversion Hrs as [|? ? Hr Hrest]; subst. cbn [serve_all].
  apply IH; [|exact Hrest].
  destruct r; cbn [serve]; try exact Hg;
    rewrite ?make_string_eq, ?make_type_eq, ?make_type_list_eq,
      ?make_proto_eq, ?make_field_eq; try exact Hg.
  rewrite make_method_eq. cbn. apply intern_absent; [exact Hg|exact Hr].
Qed.

(** *** C strings *)

Lemma byte_val_inj (c1 c2 : ascii) : byte_val c1 = byte_val c2 -> c1 = c2.
Proof.
  unfold byte_val. intros E. apply N2Z.inj in E.
  rewrite <- (ascii_N_embedding c1), <- (ascii_N_embedding c2). by rewrite E.
Qed.

Lemma strcmp_refl (s : string) : strcmp s s = 0.
Proof.
  induction s as [|c r IH]; cbn [strcmp]; [reflexivity|].
  by rewrite Z.eqb_refl.
Qed.

Lemma strcmp_eq_0 (s1 s2 : string) : strcmp s1 s2 = 0 <-> s1 = s2.
Proof.
  split; [|intros ->; apply strcmp_refl].
  revert s2. induction s1 as [|c1 r1 IH]; intros [|c2 r2]; cbn [strcmp];
    try discriminate; [reflexivity|].
  destruct (Z.eqb_spec (byte_val c1) (byte_val c2)) as [E|E].
  - intros Hr. apply byte_val_inj in E. apply IH in Hr. congruence.
  - lia.
Qed.

Lemma strlen_eq_0 (s : string) : strlen s = 0 <-> s = EmptyString.
Proof.
  unfold strlen. destruct s; cbn [String.length]; split;
    try reflexivity; try discriminate; lia.
Qed.

Lemma strcmp_lex (s1 s2 : string) :
  (strcmp s1 s2 <? 0) = lex_list Z.ltb (bytes_of s1) (bytes_of s2).
Proof.
  revert s2. induction s1 as [|c1 r1 IH]; intros [|c2 r2];
    cbn [strcmp bytes_of lex_list]; try reflexivity.
  destruct (Z.eqb_spec (byte_val c1) (byte_val c2)) as [E|E].
  - rewrite E, Z.ltb_irrefl. apply IH.
  - destruct (Z.ltb_spec (byte_val c1) (byte_val c2)).
    + apply Z.ltb_lt. lia.
    + assert ((byte_val c2 <? byte_val c1) = true) as -> by (apply Z.ltb_lt; lia).
      apply Z.ltb_ge. lia.
Qed.

(** *** The code-point loop *)

Lemma lockstep_first_difference (pre : list Z) :
  forall x y ra rb,
    x <> y -> lockstep (pre ++ x :: ra) (pre ++ y :: rb) = (x <? y).
Proof.
  induction pre as [|p pre IH]; intros x y ra rb Hne; cbn [app lockstep].
  - by destruct (Z.eqb_spec x y).
  - rewrite Z.eqb_refl.
    specialize (IH x y ra rb Hne).
    destruct pre; cbn [app] in *; exact IH.
Qed.

Lemma lockstep_prefix (xs : list Z) :
  forall y rb,
    xs <> [] ->
    lockstep xs (xs ++ y :: rb) = true
    /\ lockstep (xs ++ y :: rb) xs = false.
Proof.
  induction xs as [|x xs IH]; intros y rb Hne; [done|].
  cbn [app lockstep]. rewrite Z.eqb_refl.
  destruct xs as [|x' xs']; [split; reflexivity|].
  destruct (IH y rb ltac:(discriminate)) as [H1 H2].
  cbn [app] in *. split; assumption.
Qed.

Lemma lockstep_lex (xs ys : list Z) :
  xs <> [] -> ys <> [] -> xs <> ys ->
  lockstep xs ys = lex_list Z.ltb xs ys.
Proof.
  revert ys. induction xs as [|x xs IH]; intros [|y ys] Hx Hy Hne; try done.
  cbn [lockstep lex_list].
  destruct (Z.eqb_spec x y) as [->|E].
  - rewrite Z.ltb_irrefl.
    destruct xs as [|x' xs'], ys as [|y' ys']; try reflexivity; [done|].
    apply IH; congruence.
  - destruct (Z.ltb_spec x y); [reflexivity|].
    assert ((y <? x) = true) as -> by (apply Z.ltb_lt; lia). reflexivity.
Qed.

Section OrderingFacts.

Variable mutf8_units : ascii -> string -> Z * nat.

Local Abbreviation next := (mutf8_next_code_point mutf8_units).
Local Abbreviation cps := (code_points mutf8_units).

Lemma string_drop_length (k : nat) (s : string) :
  (String.length (string_drop k s) <= String.length s)%nat.
Proof.
  revert s. induction k as [|k IH]; intros [|c r]; cbn; try lia.
  specialize (IH r). lia.
Qed.

Lemma next_shrinks (v : ascii) (r : string) :
  (String.length (next (String v r)).2 <= String.length r)%nat.
Proof.
  cbn. destruct (mutf8_units v r) as [cp k]. cbn. apply string_drop_length.
Qed.

Lemma code_points_from_enough (n : nat) :
  forall m s,
    (String.length s <= n)%nat -> (String.length s <= m)%nat ->
    code_points_from mutf8_units n s = code_points_from mutf8_units m s.
Proof.
  induction n as [|n IH]; intros m s Hn Hm.
  - destruct s; cbn in Hn; [|lia]. by destruct m.
  - destruct m as [|m]; [destruct s; cbn in Hm; [reflexivity|lia]|].
    destruct s as [|v r]; [reflexivity|].
    cbn [code_points_from].
    pose proof (next_shrinks v r) as Hs.
    destruct (next (String v r)) as [cp s'] eqn:E. cbn in Hs, Hn, Hm.
    f_equal. apply IH; lia.
Qed.

Lemma code_points_cons (v : ascii) (r : string) :
  cps (String v r) = (next (String v r)).1 :: cps (next (String v r)).2.
Proof.
  unfold code_points. cbn [String.length code_points_from].
  pose proof (next_shrinks v r) as Hs.
  destruct (next (String v r)) as [cp s'] eqn:E. cbn in Hs |- *.
  f_equal. apply code_points_from_enough; lia.
Qed.

Lemma code_points_nil (s : string) : cps s = [] <-> s = EmptyString.
Proof.
  split; [|intros ->; reflexivity].
  destruct s as [|v r]; [reflexivity|].
  rewrite code_points_cons. discriminate.
Qed.

Lemma code_point_loop_lockstep (n : nat) :
  forall sa sb,
    sa <> EmptyString -> sb <> EmptyString ->
    (String.length sa <= n)%nat ->
    code_point_loop mutf8_units n sa sb = Some (lockstep (cps sa) (cps sb)).
Proof.
  induction n as [|n IH]; intros [|va ra] [|vb rb] Ha Hb Hn; try done;
    cbn [String.length] in Hn; [lia|].
  cbn [code_point_loop].
  rewrite (code_points_cons va ra), (code_points_cons vb rb).
  pose proof (next_shrinks va ra) as Hs.
  destruct (next (String va ra)) as [cpa sa'] eqn:Ea.
  destruct (next (String vb rb)) as [cpb sb'] eqn:Eb.
  cbn [fst snd] in *. cbn [lockstep].
  destruct (cpa =? cpb); [|reflexivity].
  case_bool_decide as Hsa.
  - subst sa'. reflexivity.
  - destruct (cps sa') as [|x xs] eqn:Exs;
      [by apply code_points_nil in Exs|].
    case_bool_decide as Hsb.
    + subst sb'. reflexivity.
    + destruct (cps sb') as [|y ys] eqn:Eys;
        [by apply code_points_nil in Eys|].
      rewrite <- Exs, <- Eys. apply IH; [assumption..|lia].
Qed.

(** The comparator always returns. *)
Lemma dexstring_less_total (a b : DexString.t) :
  is_Some (dexstring_less mutf8_units a b).
Proof.
  unfold dexstring_less.
  destruct (_ && _); [eauto|].
  destruct (Z.eqb_spec (strcmp (DexString.c_str a) (DexString.c_str b)) 0);
    [eauto|].
  destruct (Z.eqb_spec (strlen (DexString.c_str a)) 0) as [|Ha]; [eauto|].
  destruct (Z.eqb_spec (strlen (DexString.c_str b)) 0) as [|Hb]; [eauto|].
  rewrite code_point_loop_lockstep; [eauto| | |lia].
  - intros E. apply Ha. by apply strlen_eq_0.
  - intros E. apply Hb. by apply strlen_eq_0.
Qed.

(** *** String order *)

Lemma is_simple_lengths (s : DexString.t) :
  DexString.is_simple s = true
  <-> DexString.m_strlen s = DexString.m_utfsize s.
Proof.
  unfold DexString.is_simple.
  destruct (Z.eqb_spec (DexString.m_strlen s) (DexString.m_utfsize s));
    split; (done || congruence).
Qed.

Lemma not_both_simple (da db : DexString.t) :
  DexString.m_strlen da <> DexString.m_utfsize da
  \/ DexString.m_strlen db <> DexString.m_utfsize db ->
  DexString.is_simple da && DexString.is_simple db = false.
Proof.
  intros Hn. apply andb_false_iff.
  destruct Hn as [Hn|Hn]; [left|right];
    apply not_true_is_false; by rewrite is_simple_lengths.
Qed.

(** C2.  [compare_dexstrings] on two live Strings always returns.  A
    String is simple exactly when its raw length [m_strlen] equals its
    encoded length [m_utfsize]; for a String as the constructor builds
    it, when [strlen] of its text equals the [utfsize] it was given.
    When the two lengths agree on both sides the verdict is
    [strcmp(a, b) < 0], the lexicographic order of the raw bytes.  When
    they differ on either side the code points are compared in
    lockstep: the first pair that differs decides, the smaller value
    first; a String whose code points run out while the other continues
    is the smaller one.  Strings with the same bytes are a tie in
    either case.  "" against "" is a tie and "" is below "a" whatever
    the encoded lengths; "abc" is below "abd". *)
Theorem compare_dexstrings_order (g : RedexContext.t) (a b : ptr)
  (da db : DexString.t) :
  deref_string g a = Some da ->
  deref_string g b = Some db ->
  is_Some (compare_dexstrings mutf8_units g a b)
  /\ (DexString.is_simple da = true
      <-> DexString.m_strlen da = DexString.m_utfsize da)
  /\ (DexString.is_simple db = true
      <-> DexString.m_strlen db = DexString.m_utfsize db)
  /\ (forall nstr utfsize,
        DexString.is_simple (DexString.new nstr utfsize) = true
        <-> to_int (strlen nstr) = utfsize)
  /\ (DexString.m_strlen da = DexString.m_utfsize da ->
      DexString.m_strlen db = DexString.m_utfsize db ->
      compare_dexstrings mutf8_units g a b
      = Some (strcmp (DexString.c_str da) (DexString.c_str db) <? 0)
      /\ (strcmp (DexString.c_str da) (DexString.c_str db) <? 0)
         = lex_list Z.ltb (bytes_of (DexString.c_str da))
                          (bytes_of (DexString.c_str db)))
  /\ (DexString.c_str da = DexString.c_str db ->
      compare_dexstrings mutf8_units g a b = Some false
      /\ compare_dexstrings mutf8_units g b a = Some false)
  /\ (DexString.m_strlen da <> DexString.m_utfsize da
      \/ DexString.m_strlen db <> DexString.m_utfsize db ->
      forall pre x y ra rb,
        code_points mutf8_units (DexString.c_str da) = pre ++ x :: ra ->
        code_points mutf8_units (DexString.c_str db) = pre ++ y :: rb ->
        x <> y ->
        compare_dexstrings mutf8_units g a b = Some (x <? y))
  /\ (DexString.m_strlen da <> DexString.m_utfsize da
      \/ DexString.m_strlen db <> DexString.m_utfsize db ->
      forall y rb,
        code_points mutf8_units (DexString.c_str db)
        = code_points mutf8_units (DexString.c_str da) ++ y :: rb ->
        compare_dexstrings mutf8_units g a b = Some true
        /\ compare_dexstrings mutf8_units g b a = Some false)
  /\ (forall u1 u2,
        dexstring_less mutf8_units (DexString.new "" u1) (DexString.new "" u2)
        = Some false)
  /\ (forall u1 u2,
        dexstring_less mutf8_units (DexString.new "" u1) (DexString.new "a" u2)
        = Some true
        /\ dexstring_less mutf8_units (DexString.new "a" u2)
             (DexString.new "" u1) = Some false)
  /\ dexstring_less mutf8_units (DexString.new "abc" 3) (DexString.new "abd" 3)
     = Some true
  /\ dexstring_less mutf8_units (DexString.new "abd" 3) (DexString.new "abc" 3)
     = Some false.
Proof.
  intros Ha Hb.
  assert (Hab : compare_dexstrings mutf8_units g a b
                = dexstring_less mutf8_units da db)
    by (unfold compare_dexstrings; by rewrite Ha, Hb).
  assert (Hba : compare_dexstrings mutf8_units g b a
                = dexstring_less mutf8_units db da)
    by (unfold compare_dexstrings; by rewrite Ha, Hb).
  rewrite Hab, Hba. clear Hab Hba Ha Hb.
  set (sa := DexString.c_str da). set (sb := DexString.c_str db).
  repeat match goal with |- _ /\ _ => split end.
  - apply dexstring_less_total.
  - apply is_simple_lengths.
  - apply is_simple_lengths.
  - intros nstr utfsize. apply is_simple_lengths.
  - intros H H0. apply is_simple_lengths in H, H0.
    split; [|apply strcmp_lex].
    unfold dexstring_less. by rewrite H, H0.
  - intros H. unfold dexstring_less. fold sa sb. rewrite H, strcmp_refl.
    by split; destruct (_ && _).
  - intros H pre x y ra rb Hca Hcb Hne. apply not_both_simple in H.
    unfold dexstring_less. fold sa sb. rewrite H.
    assert (Hdiff : sa <> sb).
    { intros E. rewrite E, Hcb in Hca.
      apply app_inv_head in Hca. congruence. }
    assert (Hsa : sa <> EmptyString).
    { intros E. rewrite E in Hca. by destruct pre. }
    assert (Hsb : sb <> EmptyString).
    { intros E. rewrite E in Hcb. by destruct pre. }
    destruct (Z.eqb_spec (strcmp sa sb) 0) as [E|_];
      [by apply strcmp_eq_0 in E|].
    destruct (Z.eqb_spec (strlen sa) 0) as [E|_];
      [by apply strlen_eq_0 in E|].
    destruct (Z.eqb_spec (strlen sb) 0) as [E|_];
      [by apply strlen_eq_0 in E|].
    rewrite code_point_loop_lockstep by (assumption || lia).
    rewrite Hca, Hcb. by rewrite lockstep_first_difference.
  - intros H y rb Hcb. apply not_both_simple in H. split.
  { unfold dexstring_less. fold sa sb. rewrite H.
    assert (Hsb : sb <> EmptyString).
    { intros E. rewrite E in Hcb. by destruct (cps sa). }
    assert (Hdiff : sa <> sb).
    { intros E. rewrite E in Hcb.
      rewrite <- (app_nil_r (cps sb)) in Hcb at 1.
      by apply app_inv_head in Hcb. }
    destruct (Z.eqb_spec (strcmp sa sb) 0) as [E|_];
      [by apply strcmp_eq_0 in E|].
    destruct (Z.eqb_spec (strlen sa) 0) as [E|Hsa]; [reflexivity|].
    destruct (Z.eqb_spec (strlen sb) 0) as [E|_];
      [by apply strlen_eq_0 in E|].
    rewrite code_point_loop_lockstep;
      [|by rewrite <- strlen_eq_0|assumption|lia].
    rewrite Hcb. f_equal. apply lockstep_prefix.
    rewrite code_points_nil. by rewrite <- strlen_eq_0. }
  { unfold dexstring_less. fold sa sb.
    rewrite andb_comm, H.
    assert (Hsb : sb <> EmptyString).
    { intros E. rewrite E in Hcb. by destruct (cps sa). }
    assert (Hdiff : sb <> sa).
    { intros E. rewrite E in Hcb.
      rewrite <- (app_nil_r (cps sa)) in Hcb at 1.
      by apply app_inv_head in Hcb. }
    destruct (Z.eqb_spec (strcmp sb sa) 0) as [E|_];
      [by apply strcmp_eq_0 in E|].
    destruct (Z.eqb_spec (strlen sb) 0) as [E|_];
      [by apply strlen_eq_0 in E|].
    destruct (Z.eqb_spec (strlen sa) 0) as [E|Hsa]; [reflexivity|].
    rewrite code_point_loop_lockstep;
      [|assumption|by rewrite <- strlen_eq_0|lia].
    rewrite Hcb. f_equal. apply lockstep_prefix.
    rewrite code_points_nil. by rewrite <- strlen_eq_0. }
  - intros u1 u2. unfold dexstring_less. cbn. by destruct (_ && _).
  - intros u1 u2. unfold dexstring_less. cbn. by split; destruct (_ && _).
  - reflexivity.
  - reflexivity.
Qed.

(** *** Type-list order *)

Lemma typelist_lt_first_difference (g : RedexContext.t) (pre : list ptr) :
  forall x y ra rb,
    x <> y ->
    typelist_lt mutf8_units g (pre ++ x :: ra) (pre ++ y :: rb)
    = compare_dextypes mutf8_units g x y.
Proof.
  induction pre as [|p pre IH]; intros x y ra rb Hne; cbn [app typelist_lt].
  - by rewrite (proj2 (Nat.eqb_neq x y) Hne).
  - rewrite Nat.eqb_refl. cbn [negb]. by apply IH.
Qed.

Lemma typelist_lt_prefix (g : RedexContext.t) (a : list ptr) :
  forall y rb,
    typelist_lt mutf8_units g a (a ++ y :: rb) = Some true
    /\ typelist_lt mutf8_units g (a ++ y :: rb) a = Some false.
Proof.
  induction a as [|x a IH]; intros y rb; cbn [app typelist_lt].
  - split; reflexivity.
  - rewrite Nat.eqb_refl. cbn [negb]. apply IH.
Qed.

Lemma typelist_lt_irrefl (g : RedexContext.t) (a : list ptr) :
  typelist_lt mutf8_units g a a = Some false.
Proof.
  induction a as [|x a IH]; cbn [typelist_lt]; [reflexivity|].
  rewrite Nat.eqb_refl. exact IH.
Qed.

(** C4.  [operator<] on type lists: the first position where the two
    lists hold different pointers decides, by [compare_dextypes] on
    that pair; a list that is a proper prefix of the other is the
    smaller; a list against itself is a tie.  So [A] < [A,B], [A,B]
    against [A,C] is B against C, and the empty list is below every
    non-empty one. *)
Theorem typelist_order (g : RedexContext.t) :
  (forall pre x y ra rb,
      x <> y ->
      DexTypeList_operator_lt mutf8_units g
        (DexTypeList.mk (pre ++ x :: ra)) (DexTypeList.mk (pre ++ y :: rb))
      = compare_dextypes mutf8_units g x y)
  /\ (forall l y rb,
      DexTypeList_operator_lt mutf8_units g
        (DexTypeList.mk l) (DexTypeList.mk (l ++ y :: rb)) = Some true
      /\ DexTypeList_operator_lt mutf8_units g
           (DexTypeList.mk (l ++ y :: rb)) (DexTypeList.mk l) = Some false)
  /\ (forall l,
      DexTypeList_operator_lt mutf8_units g
        (DexTypeList.mk l) (DexTypeList.mk l) = Some false)
  /\ (forall A B,
      DexTypeList_operator_lt mutf8_units g
        (DexTypeList.mk [A]) (DexTypeList.mk [A; B]) = Some true)
  /\ (forall A B C,
      B <> C ->
      DexTypeList_operator_lt mutf8_units g
        (DexTypeList.mk [A; B]) (DexTypeList.mk [A; C])
      = compare_dextypes mutf8_units g B C)
  /\ (forall x r,
      DexTypeList_operator_lt mutf8_units g
        (DexTypeList.mk []) (DexTypeList.mk (x :: r)) = Some true).
Proof.
  unfold DexTypeList_operator_lt. cbn [DexTypeList.m_list].
  repeat match goal with |- _ /\ _ => split end.
  - intros. by apply typelist_lt_first_difference.
  - apply typelist_lt_prefix.
  - apply typelist_lt_irrefl.
  - intros A B. apply (typelist_lt_prefix g [A] B []).
  - intros A B C Hne. by apply (typelist_lt_first_difference g [A] B C [] []).
  - reflexivity.
Qed.

End OrderingFacts.

(** *** Strict total orders *)

Section StrictTotalFacts.
Context {A : Type} (lt : A -> A -> bool) (ST : StrictTotal lt).

Lemma st_neither x y : lt x y = false -> lt y x = false -> x = y.
Proof. apply (st_total lt ST). Qed.

Lemma st_le_trans x y z :
  lt y x = false -> lt z y = false -> lt z x = false.
Proof.
  intros Hxy Hyz. destruct (lt z x) eqn:Hzx; [|reflexivity].
  destruct (lt x y) eqn:E1.
  - by rewrite (st_trans lt ST z x y Hzx E1) in Hyz.
  - rewrite (st_neither x y E1 Hxy) in Hzx. congruence.
Qed.

Lemma lex_list_irrefl (xs : list A) : lex_list lt xs xs = false.
Proof.
  induction xs as [|x xs IH]; cbn [lex_list]; [reflexivity|].
  by rewrite (st_irrefl lt ST).
Qed.

Lemma lex_list_trans (xs : list A) :
  forall ys zs,
    lex_list lt xs ys = true -> lex_list lt ys zs = true ->
    lex_list lt xs zs = true.
Proof.
  induction xs as [|x xs IH]; intros [|y ys] [|z zs]; cbn [lex_list];
    try done.
  destruct (lt x y) eqn:Exy.
  - intros _. destruct (lt y z) eqn:Eyz.
    + by rewrite (st_trans lt ST x y z Exy Eyz).
    + destruct (lt z y) eqn:Ezy; [done|].
      rewrite <- (st_neither y z Eyz Ezy). by rewrite Exy.
  - destruct (lt y x) eqn:Eyx; [done|].
    rewrite (st_neither x y Exy Eyx).
    destruct (lt y z); [done|]. destruct (lt z y); [done|]. apply IH.
Qed.

Lemma lex_list_total (xs : list A) :
  forall ys,
    lex_list lt xs ys = false -> lex_list lt ys xs = false -> xs = ys.
Proof.
  induction xs as [|x xs IH]; intros [|y ys]; cbn [lex_list]; try done.
  destruct (lt x y) eqn:Exy; [done|].
  destruct (lt y x) eqn:Eyx; [done|].
  intros H1 H2. f_equal; [by apply st_neither|by apply IH].
Qed.

Lemma lex_list_strict_total : StrictTotal (lex_list lt).
Proof.
  split; [apply lex_list_irrefl|apply lex_list_trans|apply lex_list_total].
Qed.

Context {B : Type} (ltB : B -> B -> bool) (STB : StrictTotal ltB).

Lemma lex_pair_strict_total : StrictTotal (lex_pair lt ltB).
Proof.
  split.
  - intros [a b]. unfold lex_pair. cbn.
    by rewrite (st_irrefl lt ST), (st_irrefl ltB STB).
  - intros [a1 b1] [a2 b2] [a3 b3]. unfold lex_pair. cbn.
    destruct (lt a1 a2) eqn:E12.
    + intros _. destruct (lt a2 a3) eqn:E23.
      * by rewrite (st_trans lt ST _ _ _ E12 E23).
      * destruct (lt a3 a2) eqn:E32; [done|].
        rewrite <- (st_neither a2 a3 E23 E32). by rewrite E12.
    + destruct (lt a2 a1) eqn:E21; [done|].
      rewrite (st_neither a1 a2 E12 E21).
      destruct (lt a2 a3); [done|]. destruct (lt a3 a2); [done|].
      apply (st_trans ltB STB).
  - intros [a1 b1] [a2 b2]. unfold lex_pair. cbn.
    destruct (lt a1 a2) eqn:E12; [done|].
    destruct (lt a2 a1) eqn:E21; [done|].
    intros H1 H2. f_equal; [by apply st_neither|].
    by apply (st_total ltB STB).
Qed.

(** A list sorted for a strict total order is the only sorted
    arrangement of its elements. *)
Lemma sorted_permutation_unique (l1 : list A) :
  forall l2,
    Sorted (fun x y => lt y x = false) l1 ->
    Sorted (fun x y => lt y x = false) l2 ->
    Permutation l1 l2 ->
    l1 = l2.
Proof.
  assert (Htr : Relations_1.Transitive (fun x y : A => lt y x = false)).
  { intros x y z Hxy Hyz. by eapply st_le_trans. }
  intros l2 H1 H2. apply Sorted_StronglySorted in H1, H2; try exact Htr.
  revert l2 H2.
  induction H1 as [|a l1 Hs1 IH Ha]; intros l2 H2 Hp.
  - by apply Permutation_nil in Hp.
  - destruct H2 as [|b l2 Hs2 Hb].
    + apply Permutation_sym, Permutation_nil in Hp. discriminate.
    + assert (a = b) as ->.
      { assert (Hin_a : In a (b :: l2))
          by (eapply Permutation_in; [exact Hp|by left]).
        assert (Hin_b : In b (a :: l1))
          by (eapply Permutation_in;
              [exact (Permutation_sym Hp)|by left]).
        destruct Hin_a as [->|Hin_a]; [reflexivity|].
        destruct Hin_b as [->|Hin_b]; [reflexivity|].
        rewrite Forall_forall in Ha, Hb.
        apply list_elem_of_In in Hin_a, Hin_b.
        apply st_neither; [apply (Hb _ Hin_a)|apply (Ha _ Hin_b)]. }
      f_equal. apply IH; [exact Hs2|].
      by apply Permutation_cons_inv in Hp.
Qed.

End StrictTotalFacts.

Lemma Zltb_strict_total : StrictTotal Z.ltb.
Proof.
  split.
  - apply Z.ltb_irrefl.
  - intros x y z. rewrite !Z.ltb_lt. lia.
  - intros x y. rewrite !Z.ltb_ge. lia.
Qed.

(** *** The comparators as orders on keys *)

Lemma NoDup_fmap_lookup {A B : Type} (f : A -> B) (l : list A) i j x y :
  NoDup (f <$> l) -> l !! i = Some x -> l !! j = Some y -> f x = f y ->
  i = j.
Proof.
  intros Hnd Hi Hj Hf.
  apply (NoDup_lookup (f <$> l) i j (f x) Hnd).
  - by rewrite list_lookup_fmap, Hi.
  - by rewrite list_lookup_fmap, Hj, Hf.
Qed.

Section MethodOrder.

Variable mutf8_units : ascii -> string -> Z * nat.
Variable g : RedexContext.t.
Hypothesis Hclosed : store_closed g.
Hypothesis Hinterned : interned g.
Hypothesis Hwf : strings_well_formed mutf8_units g.

Local Abbreviation strings := (RedexContext.objs (RedexContext.strings g)).
Local Abbreviation types := (RedexContext.objs (RedexContext.types g)).
Local Abbreviation typelists := (RedexContext.objs (RedexContext.typelists g)).
Local Abbreviation protos := (RedexContext.objs (RedexContext.protos g)).
Local Abbreviation methods := (RedexContext.objs (RedexContext.methods g)).
Local Abbreviation skey := (string_key mutf8_units g).
Local Abbreviation tkey := (type_key mutf8_units g).
Local Abbreviation lkey := (typelist_key mutf8_units g).
Local Abbreviation pkey := (proto_key mutf8_units g).
Local Abbreviation mkey := (method_key mutf8_units g).
Local Abbreviation ltS := (lex_list Z.ltb).

Lemma ltS_strict_total : StrictTotal ltS.
Proof. apply lex_list_strict_total, Zltb_strict_total. Qed.

Lemma string_key_inj (a b : ptr) :
  (a < length strings)%nat -> (b < length strings)%nat ->
  skey a = skey b -> a = b.
Proof.
  intros Ha Hb. unfold string_key, deref_string.
  destruct (lookup_lt_is_Some_2 _ _ Ha) as [da Hda].
  destruct (lookup_lt_is_Some_2 _ _ Hb) as [db Hdb].
  rewrite Hda, Hdb. intros E.
  destruct Hwf as [_ Hnd].
  exact (NoDup_fmap_lookup _ _ _ _ _ _ Hnd Hda Hdb E).
Qed.

Lemma compare_dexstrings_key (a b : ptr) :
  (a < length strings)%nat -> (b < length strings)%nat ->
  compare_dexstrings mutf8_units g a b = Some (ltS (skey a) (skey b)).
Proof.
  intros Ha Hb.
  pose proof (string_key_inj a b Ha Hb) as Hinj.
  unfold compare_dexstrings, string_key in *. unfold deref_string in *.
  destruct (lookup_lt_is_Some_2 _ _ Ha) as [da Hda].
  destruct (lookup_lt_is_Some_2 _ _ Hb) as [db Hdb].
  rewrite Hda, Hdb in *. cbn [mbind option_bind].
  destruct Hwf as [Hsimple _].
  rewrite Forall_lookup in Hsimple.
  pose proof (Hsimple _ _ Hda) as Hsa. pose proof (Hsimple _ _ Hdb) as Hsb.
  unfold dexstring_less, DexString.c_str in *.
  set (sa := DexString.m_cstr da) in *.
  set (sb := DexString.m_cstr db) in *.
  destruct (DexString.is_simple da) eqn:Eda, (DexString.is_simple db) eqn:Edb;
    cbn [andb].
  1: { rewrite Hsa, Hsb by reflexivity. by rewrite strcmp_lex. }
  all: destruct (Z.eqb_spec (strcmp sa sb) 0) as [E|E];
    [apply strcmp_eq_0 in E; rewrite E;
     by rewrite (lex_list_irrefl _ Zltb_strict_total)|].
  all: assert (Hne : code_points mutf8_units sa <> code_points mutf8_units sb)
    by (intros Hk; apply Hinj in Hk; subst b;
        rewrite Hda in Hdb; injection Hdb as <-;
        apply E, strcmp_refl).
  all: destruct (Z.eqb_spec (strlen sa) 0) as [Ea|Ea];
    [apply strlen_eq_0 in Ea; rewrite Ea in *;
     change (code_points mutf8_units EmptyString) with (@nil Z) in *;
     by destruct (code_points mutf8_units sb)|].
  all: destruct (Z.eqb_spec (strlen sb) 0) as [Eb|Eb];
    [apply strlen_eq_0 in Eb; rewrite Eb in *;
     change (code_points mutf8_units EmptyString) with (@nil Z) in *;
     by destruct (code_points mutf8_units sa)|].
  all: rewrite code_point_loop_lockstep;
    [|by rewrite <- strlen_eq_0|by rewrite <- strlen_eq_0|lia].
  all: f_equal; apply lockstep_lex;
    [rewrite code_points_nil; by rewrite <- strlen_eq_0
    |rewrite code_points_nil; by rewrite <- strlen_eq_0
    |exact Hne].
Qed.

Lemma type_name_live (t : ptr) (ty : DexType.t) :
  types !! t = Some ty -> (DexType.m_name ty < length strings)%nat.
Proof.
  intros Ht. destruct Hclosed as [H _].
  rewrite Forall_lookup in H. exact (H _ _ Ht).
Qed.

Lemma type_key_inj (a b : ptr) :
  (a < length types)%nat -> (b < length types)%nat ->
  tkey a = tkey b -> a = b.
Proof.
  intros Ha Hb. unfold type_key, deref_type.
  destruct (lookup_lt_is_Some_2 _ _ Ha) as [ta Hta].
  destruct (lookup_lt_is_Some_2 _ _ Hb) as [tb Htb].
  rewrite Hta, Htb. intros E.
  apply string_key_inj in E; try by eapply type_name_live.
  destruct Hinterned as (_ & Hnd & _).
  exact (NoDup_fmap_lookup _ _ _ _ _ _ Hnd Hta Htb E).
Qed.

Lemma compare_dextypes_key (a b : ptr) :
  (a < length types)%nat -> (b < length types)%nat ->
  compare_dextypes mutf8_units g a b = Some (ltS (tkey a) (tkey b)).
Proof.
  intros Ha Hb. unfold compare_dextypes, type_key, deref_type.
  destruct (lookup_lt_is_Some_2 _ _ Ha) as [ta Hta].
  destruct (lookup_lt_is_Some_2 _ _ Hb) as [tb Htb].
  rewrite Hta, Htb. cbn [mbind option_bind].
  apply compare_dexstrings_key; by eapply type_name_live.
Qed.

Lemma typelist_lt_key (la : list ptr) :
  forall lb,
    Forall (fun t => (t < length types)%nat) la ->
    Forall (fun t => (t < length types)%nat) lb ->
    typelist_lt mutf8_units g la lb
    = Some (lex_list ltS (tkey <$> la) (tkey <$> lb)).
Proof.
  induction la as [|x la IH]; intros [|y lb] Hla Hlb;
    cbn [typelist_lt fmap list_fmap lex_list]; try reflexivity.
  inversion Hla as [|? ? Hx Hla']; inversion Hlb as [|? ? Hy Hlb']; subst.
  destruct (Nat.eqb_spec x y) as [->|Hne]; cbn [negb].
  - rewrite (st_irrefl _ ltS_strict_total). by apply IH.
  - rewrite compare_dextypes_key by assumption.
    destruct (ltS (tkey x) (tkey y)) eqn:Exy; [reflexivity|].
    destruct (ltS (tkey y) (tkey x)) eqn:Eyx; [reflexivity|].
    exfalso. apply Hne. apply type_key_inj; try assumption.
    by apply (st_total _ ltS_strict_total).
Qed.

Lemma typelist_elems_inj (la : list ptr) :
  forall lb,
    Forall (fun t => (t < length types)%nat) la ->
    Forall (fun t => (t < length types)%nat) lb ->
    tkey <$> la = tkey <$> lb -> la = lb.
Proof.
  induction la as [|x la IH]; intros [|y lb] Hla Hlb; cbn; try done.
  inversion Hla; inversion Hlb; subst. intros [= Hk Hr].
  f_equal; [by apply type_key_inj|by apply IH].
Qed.

Lemma typelist_live (l : ptr) (tl : DexTypeList.t) :
  typelists !! l = Some tl ->
  Forall (fun t => (t < length types)%nat) (DexTypeList.m_list tl).
Proof.
  intros Hl. destruct Hclosed as (_ & H & _).
  rewrite Forall_lookup in H. exact (H _ _ Hl).
Qed.

Lemma typelist_key_inj (a b : ptr) :
  (a < length typelists)%nat -> (b < length typelists)%nat ->
  lkey a = lkey b -> a = b.
Proof.
  intros Ha Hb. unfold typelist_key, deref_typelist.
  destruct (lookup_lt_is_Some_2 _ _ Ha) as [la Hla].
  destruct (lookup_lt_is_Some_2 _ _ Hb) as [lb Hlb].
  rewrite Hla, Hlb. intros E.
  apply typelist_elems_inj in E; try by eapply typelist_live.
  destruct Hinterned as (_ & _ & Hnd & _).
  exact (NoDup_fmap_lookup _ _ _ _ _ _ Hnd Hla Hlb E).
Qed.

Lemma proto_live (p : ptr) (pr : DexProto.t) :
  protos !! p = Some pr ->
  (DexProto.m_rtype pr < length types)%nat
  /\ (DexProto.m_args pr < length typelists)%nat.
Proof.
  intros Hp. destruct Hclosed as (_ & _ & H & _).
  rewrite Forall_lookup in H. exact (H _ _ Hp).
Qed.

Lemma proto_key_inj (a b : ptr) :
  (a < length protos)%nat -> (b < length protos)%nat ->
  pkey a = pkey b -> a = b.
Proof.
  intros Ha Hb. unfold proto_key, deref_proto.
  destruct (lookup_lt_is_Some_2 _ _ Ha) as [pa Hpa].
  destruct (lookup_lt_is_Some_2 _ _ Hb) as [pb Hpb].
  rewrite Hpa, Hpb. intros [= Er El].
  destruct (proto_live _ _ Hpa) as [Hra Haa].
  destruct (proto_live _ _ Hpb) as [Hrb Hab].
  apply type_key_inj in Er; try assumption.
  apply typelist_key_inj in El; try assumption.
  destruct Hinterned as (_ & _ & _ & Hnd & _).
  apply (NoDup_fmap_lookup _ _ _ _ _ _ Hnd Hpa Hpb).
  unfold DexProto.get_rtype, DexProto.get_args in *. congruence.
Qed.

Lemma compare_dexprotos_key (a b : ptr) :
  (a < length protos)%nat -> (b < length protos)%nat ->
  compare_dexprotos mutf8_units g a b = Some (proto_key_lt (pkey a) (pkey b)).
Proof.
  intros Ha Hb.
  unfold compare_dexprotos, proto_key, proto_key_lt, lex_pair, deref_proto.
  destruct (lookup_lt_is_Some_2 _ _ Ha) as [pa Hpa].
  destruct (lookup_lt_is_Some_2 _ _ Hb) as [pb Hpb].
  rewrite Hpa, Hpb. cbn [mbind option_bind fst snd].
  destruct (proto_live _ _ Hpa) as [Hra Haa].
  destruct (proto_live _ _ Hpb) as [Hrb Hab].
  unfold DexProto.get_rtype, DexProto.get_args.
  destruct (Nat.eqb_spec (DexProto.m_rtype pa) (DexProto.m_rtype pb))
    as [Er|Er]; cbn [negb].
  - rewrite Er, (st_irrefl _ ltS_strict_total).
    unfold typelist_key, deref_typelist, DexTypeList_operator_lt.
    destruct (lookup_lt_is_Some_2 _ _ Haa) as [la Hla].
    destruct (lookup_lt_is_Some_2 _ _ Hab) as [lb Hlb].
    rewrite Hla, Hlb. cbn [mbind option_bind].
    apply typelist_lt_key; by eapply typelist_live.
  - rewrite compare_dextypes_key by assumption.
    destruct (ltS _ _) eqn:Exy; [reflexivity|].
    destruct (ltS (tkey (DexProto.m_rtype pb)) _) eqn:Eyx; [reflexivity|].
    exfalso. apply Er. apply type_key_inj; try assumption.
    by apply (st_total _ ltS_strict_total).
Qed.

Lemma method_live (m : ptr) (me : DexMethod.t) :
  methods !! m = Some me ->
  (DexMethod.m_class me < length types)%nat
  /\ (DexMethod.m_name me < length strings)%nat
  /\ (DexMethod.m_proto me < length protos)%nat.
Proof.
  intros Hm. destruct Hclosed as (_ & _ & _ & H).
  rewrite Forall_lookup in H. exact (H _ _ Hm).
Qed.

Lemma method_key_inj (a b : ptr) :
  (a < length methods)%nat -> (b < length methods)%nat ->
  mkey a = mkey b -> a = b.
Proof.
  intros Ha Hb. unfold method_key, deref_method.
  destruct (lookup_lt_is_Some_2 _ _ Ha) as [ma Hma].
  destruct (lookup_lt_is_Some_2 _ _ Hb) as [mb Hmb].
  rewrite Hma, Hmb. intros [= Ec En Ep].
  destruct (method_live _ _ Hma) as (Hca & Hna & Hpa).
  destruct (method_live _ _ Hmb) as (Hcb & Hnb & Hpb).
  apply type_key_inj in Ec; try assumption.
  apply string_key_inj in En; try assumption.
  assert (DexMethod.get_proto ma = DexMethod.get_proto mb) as Ep'
    by (apply proto_key_inj; assumption).
  destruct Hinterned as (_ & _ & _ & _ & Hnd).
  apply (NoDup_fmap_lookup _ _ _ _ _ _ Hnd Hma Hmb).
  unfold DexMethod.get_class, DexMethod.get_name, DexMethod.get_proto in *.
  congruence.
Qed.

Lemma compare_dexmethods_key (a b : ptr) :
  (a < length methods)%nat -> (b < length methods)%nat ->
  compare_dexmethods mutf8_units g a b
  = Some (method_key_lt (mkey a) (mkey b)).
Proof.
  intros Ha Hb.
  unfold compare_dexmethods, method_key, method_key_lt, deref_method.
  destruct (lookup_lt_is_Some_2 _ _ Ha) as [ma Hma].
  destruct (lookup_lt_is_Some_2 _ _ Hb) as [mb Hmb].
  rewrite Hma, Hmb. cbn [mbind option_bind].
  destruct (method_live _ _ Hma) as (Hca & Hna & Hpa).
  destruct (method_live _ _ Hmb) as (Hcb & Hnb & Hpb).
  unfold DexMethod.get_class, DexMethod.get_name, DexMethod.get_proto.
  unfold lex_pair at 1. cbn [fst snd].
  destruct (Nat.eqb_spec (DexMethod.m_class ma) (DexMethod.m_class mb))
    as [Ec|Ec]; cbn [negb].
  - rewrite Ec, (st_irrefl _ ltS_strict_total).
    unfold lex_pair at 1. cbn [fst snd].
    destruct (Nat.eqb_spec (DexMethod.m_name ma) (DexMethod.m_name mb))
      as [En|En]; cbn [negb].
    + rewrite En, (st_irrefl _ ltS_strict_total).
      by apply compare_dexprotos_key.
    + rewrite compare_dexstrings_key by assumption.
      destruct (ltS _ _) eqn:Exy; [reflexivity|].
      destruct (ltS (skey (DexMethod.m_name mb)) _) eqn:Eyx; [reflexivity|].
      exfalso. apply En. apply string_key_inj; try assumption.
      by apply (st_total _ ltS_strict_total).
  - rewrite compare_dextypes_key by assumption.
    destruct (ltS _ _) eqn:Exy; [reflexivity|].
    destruct (ltS (tkey (DexMethod.m_class mb)) _) eqn:Eyx; [reflexivity|].
    exfalso. apply Ec. apply type_key_inj; try assumption.
    by apply (st_total _ ltS_strict_total).
Qed.

Lemma method_key_lt_strict_total : StrictTotal method_key_lt.
Proof.
  unfold method_key_lt, proto_key_lt.
  repeat first [apply lex_pair_strict_total | apply lex_list_strict_total
               | apply Zltb_strict_total].
Qed.

Lemma methods_sorted_keys (l : list ptr) :
  Forall (fun m => (m < length methods)%nat) l ->
  methods_sorted mutf8_units g l ->
  Sorted (fun x y => method_key_lt y x = false) (mkey <$> l).
Proof.
  intros Hv Hs. unfold methods_sorted in Hs.
  induction Hs as [|x l Hs IH Hhd]; cbn [fmap list_fmap]; constructor.
  - apply IH. by inversion Hv.
  - destruct Hhd as [|y l Hyx]; cbn [fmap list_fmap]; constructor.
    inversion Hv as [|? ? Hx Hl]; subst. inversion Hl as [|? ? Hy _]; subst.
    rewrite compare_dexmethods_key in Hyx by assumption. congruence.
Qed.

Lemma method_keys_inj (l1 : list ptr) :
  forall l2,
    Forall (fun m => (m < length methods)%nat) l1 ->
    Forall (fun m => (m < length methods)%nat) l2 ->
    mkey <$> l1 = mkey <$> l2 -> l1 = l2.
Proof.
  induction l1 as [|x l1 IH]; intros [|y l2] H1 H2; cbn; try done.
  inversion H1; inversion H2; subst. intros [= Hk Hr].
  f_equal; [by apply method_key_inj|by apply IH].
Qed.

Lemma methods_sorted_unique (l1 l2 : list ptr) :
  Forall (fun m => (m < length methods)%nat) l1 ->
  Permutation l1 l2 ->
  methods_sorted mutf8_units g l1 ->
  methods_sorted mutf8_units g l2 ->
  l1 = l2.
Proof.
  intros Hv1 Hp Hs1 Hs2.
  assert (Hv2 : Forall (fun m => (m < length methods)%nat) l2)
    by (eapply Permutation_Forall; eassumption).
  apply method_keys_inj; try assumption.
  apply (sorted_permutation_unique _ method_key_lt_strict_total).
  - by apply methods_sorted_keys.
  - by apply methods_sorted_keys.
  - by apply fmap_Permutation.
Qed.

End MethodOrder.

(** *** Method order *)

(** C5.  [compare_dexmethods] on two live Methods: when the declaring
    Types are different objects their order decides; otherwise, when
    the names are different objects, the String order of the names
    decides; otherwise [compare_dexprotos] decides, which compares the
    return Types when they are different objects and the argument type
    lists otherwise.  In a store that is closed, interned and whose
    Strings are well-formed, the verdict is the lexicographic order of
    the keys (class, name, (return type, arguments)), a strict total
    order under which different Methods have different keys; hence two
    sorted arrangements of the same Methods are the same list. *)
Theorem compare_dexmethods_order
  (mutf8_units : ascii -> string -> Z * nat) (g : RedexContext.t) :
  (forall a b ma mb,
      deref_method g a = Some ma -> deref_method g b = Some mb ->
      (DexMethod.get_class ma <> DexMethod.get_class mb ->
       compare_dexmethods mutf8_units g a b
       = compare_dextypes mutf8_units g
           (DexMethod.get_class ma) (DexMethod.get_class mb))
      /\ (DexMethod.get_class ma = DexMethod.get_class mb ->
          DexMethod.get_name ma <> DexMethod.get_name mb ->
          compare_dexmethods mutf8_units g a b
          = compare_dexstrings mutf8_units g
              (DexMethod.get_name ma) (DexMethod.get_name mb))
      /\ (DexMethod.get_class ma = DexMethod.get_class mb ->
          DexMethod.get_name ma = DexMethod.get_name mb ->
          compare_dexmethods mutf8_units g a b
          = compare_dexprotos mutf8_units g
              (DexMethod.get_proto ma) (DexMethod.get_proto mb)))
  /\ (forall a b pa pb,
      deref_proto g a = Some pa -> deref_proto g b = Some pb ->
      (DexProto.get_rtype pa <> DexProto.get_rtype pb ->
       compare_dexprotos mutf8_units g a b
       = compare_dextypes mutf8_units g
           (DexProto.get_rtype pa) (DexProto.get_rtype pb))
      /\ (DexProto.get_rtype pa = DexProto.get_rtype pb ->
          compare_dexprotos mutf8_units g a b
          = compare_dextypelists mutf8_units g
              (DexProto.get_args pa) (DexProto.get_args pb)))
  /\ (store_closed g -> interned g -> strings_well_formed mutf8_units g ->
      (forall a b,
          (a < length (RedexContext.objs (RedexContext.methods g)))%nat ->
          (b < length (RedexContext.objs (RedexContext.methods g)))%nat ->
          compare_dexmethods mutf8_units g a b
          = Some (method_key_lt (method_key mutf8_units g a)
                                (method_key mutf8_units g b))
          /\ (method_key mutf8_units g a = method_key mutf8_units g b ->
              a = b))
      /\ StrictTotal method_key_lt
      /\ (forall l1 l2,
          Forall (fun m =>
                    (m < length (RedexContext.objs
                                   (RedexContext.methods g)))%nat) l1 ->
          Permutation l1 l2 ->
          methods_sorted mutf8_units g l1 ->
          methods_sorted mutf8_units g l2 ->
          l1 = l2)).
Proof.
  split; [|split].
  - intros a b ma mb Ha Hb. unfold compare_dexmethods. rewrite Ha, Hb.
    cbn [mbind option_bind].
    split; [|split].
    + intros Hc. by rewrite (proj2 (Nat.eqb_neq _ _) Hc).
    + intros Hc Hn.
      by rewrite Hc, Nat.eqb_refl, (proj2 (Nat.eqb_neq _ _) Hn).
    + intros Hc Hn. by rewrite Hc, Hn, !Nat.eqb_refl.
  - intros a b pa pb Ha Hb. unfold compare_dexprotos. rewrite Ha, Hb.
    cbn [mbind option_bind].
    split.
    + intros Hr. by rewrite (proj2 (Nat.eqb_neq _ _) Hr).
    + intros Hr. by rewrite Hr, Nat.eqb_refl.
  - intros Hc Hi Hw. split; [|split].
    + intros a b Ha Hb. split.
      * by apply compare_dexmethods_key.
      * by apply (method_key_inj mutf8_units g).
    + apply method_key_lt_strict_total.
    + intros l1 l2. by apply methods_sorted_unique.
Qed.

(** *** The small store *)

Lemma example_store_closed : store_closed example_store.
Proof.
  unfold store_closed. repeat split;
    apply (bool_decide_unpack _); vm_compute; exact I.
Qed.

Lemma example_store_interned : interned example_store.
Proof.
  unfold interned. repeat split;
    apply (bool_decide_unpack _); vm_compute; exact I.
Qed.

Lemma example_store_well_formed :
  strings_well_formed mutf8_units_std example_store.
Proof.
  unfold strings_well_formed. split;
    apply (bool_decide_unpack _); vm_compute; exact I.
Qed.

Lemma compare_dexstrings_order_witness :
  compare_dexstrings mutf8_units_std two_unit_store 0 1 = Some true
  /\ (strcmp text_c0_80 text_02 <? 0) = false.
Proof.
  split; [|reflexivity].
  refine (proj1 (proj2 (proj2 (proj2 (proj2 (proj2 (proj2
            (compare_dexstrings_order mutf8_units_std two_unit_store
               0%nat 1%nat
               (DexString.new text_c0_80 1) (DexString.new text_02 1)
               eq_refl eq_refl)))))))
            (or_introl _) [] 0 2 [] [] eq_refl eq_refl _);
    discriminate.
Defined.

Lemma typelist_order_witness :
  DexTypeList_operator_lt mutf8_units_std example_store
    (DexTypeList.mk [0; 1]%nat) (DexTypeList.mk [0; 2]%nat)
  = compare_dextypes mutf8_units_std example_store 1 2.
Proof.
  refine (proj1 (proj2 (proj2 (proj2 (proj2
            (typelist_order mutf8_units_std example_store)))))
            0%nat 1%nat 2%nat _).
  discriminate.
Defined.

Lemma compare_dexmethods_order_witness :
  [1; 0; 3; 2]%nat = [1; 0; 3; 2]%nat
  /\ compare_dexmethods mutf8_units_std example_store 0 3
     = compare_dexstrings mutf8_units_std example_store 2 5.
Proof.
  split.
  - refine (proj2 (proj2 (proj2 (proj2
              (compare_dexmethods_order mutf8_units_std example_store))
              example_store_closed example_store_interned
              example_store_well_formed))
              [1; 0; 3; 2]%nat [1; 0; 3; 2]%nat _ _ _ _).
    + repeat constructor.
    + apply Permutation_refl.
    + repeat constructor.
    + repeat constructor.
  - refine (proj1 (proj2 (proj1
              (compare_dexmethods_order mutf8_units_std example_store)
              0%nat 3%nat (DexMethod.new 0 2 0) (DexMethod.new 0 5 0)
              eq_refl eq_refl)) eq_refl _).
    discriminate.
Defined.

(** C5 as stated fails.  In this closed, interned store the three
    Methods are ordered in a cycle: the names C0 80 and 02 are both
    simple and compare by bytes, the name 01 C0 80 compares with
    either by code points.  Two arrangements of the three Methods are
    both sorted and differ. *)
Lemma sorted_arrangements_differ :
  store_closed cyclic_store
  /\ interned cyclic_store
  /\ compare_dexmethods mutf8_units_std cyclic_store 0 2 = Some true
  /\ compare_dexmethods mutf8_units_std cyclic_store 2 1 = Some true
  /\ compare_dexmethods mutf8_units_std cyclic_store 1 0 = Some true
  /\ Permutation [0; 2; 1]%nat [2; 1; 0]%nat
  /\ methods_sorted mutf8_units_std cyclic_store [0; 2; 1]%nat
  /\ methods_sorted mutf8_units_std cyclic_store [2; 1; 0]%nat
  /\ [0; 2; 1]%nat <> [2; 1; 0]%nat.
Proof.
  split; [|split].
  - unfold store_closed. repeat split;
      apply (bool_decide_unpack _); vm_compute; exact I.
  - unfold interned. repeat split;
      apply (bool_decide_unpack _); vm_compute; exact I.
  - split; [vm_compute; reflexivity|].
    split; [vm_compute; reflexivity|].
    split; [vm_compute; reflexivity|].
    split; [|split; [|split]].
    + apply (perm_trans (l' := [2; 0; 1]%nat));
        [apply perm_swap|apply perm_skip, perm_swap].
    + unfold methods_sorted.
      repeat first [apply Sorted_nil | apply Sorted_cons
                   | apply HdRel_nil | apply HdRel_cons];
        vm_compute; reflexivity.
    + unfold methods_sorted.
      repeat first [apply Sorted_nil | apply Sorted_cons
                   | apply HdRel_nil | apply HdRel_cons];
        vm_compute; reflexivity.
    + discriminate.
Qed.

(** ** Further properties of the header *)

(** *** A comparator that follows a key order *)

Lemma strict_order_on_key {K : Type} (lt : K -> K -> bool)
  (live : nat -> Prop) (key : nat -> K) (cmp : nat -> nat -> option bool) :
  StrictTotal lt ->
  (forall a b, live a -> live b -> cmp a b = Some (lt (key a) (key b))) ->
  (forall a b, live a -> live b -> key a = key b -> a = b) ->
  strict_order_on live cmp.
Proof.
  intros ST Hcmp Hinj. split.
  - intros a b Ha Hb. rewrite Hcmp by assumption. eauto.
  - intros a Ha. rewrite Hcmp by assumption. by rewrite (st_irrefl lt ST).
  - intros a b Ha Hb. rewrite !Hcmp by assumption. intros [= Hab].
    f_equal. destruct (lt (key b) (key a)) eqn:Hba; [|reflexivity].
    pose proof (st_trans lt ST _ _ _ Hab Hba) as H.
    by rewrite (st_irrefl lt ST) in H.
  - intros a b c Ha Hb Hc. rewrite !Hcmp by assumption.
    intros [= Hab] [= Hbc]. f_equal. by apply (st_trans lt ST _ (key b)).
  - intros a b Ha Hb Hne. rewrite !Hcmp by assumption.
    destruct (lt (key a) (key b)) eqn:Hab; [by left|].
    destruct (lt (key b) (key a)) eqn:Hba; [by right|].
    exfalso. apply Hne, Hinj; try assumption.
    by apply (st_total lt ST).
Qed.

(** *** The comparators as strict total orders *)

(** X1.  In a store whose Strings are well-formed encoded text,
    [compare_dexstrings] returns on live Strings and is a strict total
    order on them: irreflexive, asymmetric, transitive, and of two
    different Strings one is below the other. *)
Theorem compare_dexstrings_strict_order
  (mutf8_units : ascii -> string -> Z * nat) (g : RedexContext.t) :
  strings_well_formed mutf8_units g ->
  strict_order_on (live_string g) (compare_dexstrings mutf8_units g).
Proof.
  intros Hwf.
  apply (strict_order_on_key (lex_list Z.ltb) _ (string_key mutf8_units g)).
  - apply ltS_strict_total.
  - intros a b. by apply compare_dexstrings_key.
  - intros a b. by apply string_key_inj.
Qed.

Lemma example_live_string (p : nat) :
  (p < 6)%nat -> live_string example_store p.
Proof.
  unfold live_string.
  replace (length (RedexContext.objs (RedexContext.strings example_store)))
    with 6%nat by (vm_compute; reflexivity).
  done.
Qed.

Lemma compare_dexstrings_strict_order_witness :
  compare_dexstrings mutf8_units_std example_store 2 3 = Some false.
Proof.
  refine (so_asym _ _
            (compare_dexstrings_strict_order mutf8_units_std example_store
               example_store_well_formed)
            3%nat 2%nat _ _ _).
  - apply example_live_string. lia.
  - apply example_live_string. lia.
  - vm_compute. reflexivity.
Defined.

(** X2.  In a closed, interned store with well-formed Strings,
    [compare_dextypes] is a strict total order on the live Types. *)
Theorem compare_dextypes_strict_order
  (mutf8_units : ascii -> string -> Z * nat) (g : RedexContext.t) :
  store_closed g -> interned g -> strings_well_formed mutf8_units g ->
  strict_order_on (live_type g) (compare_dextypes mutf8_units g).
Proof.
  intros Hc Hi Hwf.
  apply (strict_order_on_key (lex_list Z.ltb) _ (type_key mutf8_units g)).
  - apply ltS_strict_total.
  - intros a b. by apply compare_dextypes_key.
  - intros a b. by apply type_key_inj.
Qed.

Lemma example_live_type (p : nat) :
  (p < 3)%nat -> live_type example_store p.
Proof.
  unfold live_type.
  replace (length (RedexContext.objs (RedexContext.types example_store)))
    with 3%nat by (vm_compute; reflexivity).
  done.
Qed.

Lemma compare_dextypes_strict_order_witness :
  compare_dextypes mutf8_units_std example_store 1 0 = Some false.
Proof.
  refine (so_asym _ _
            (compare_dextypes_strict_order mutf8_units_std example_store
               example_store_closed example_store_interned
               example_store_well_formed)
            0%nat 1%nat _ _ _).
  - apply example_live_type. lia.
  - apply example_live_type. lia.
  - vm_compute. reflexivity.
Defined.

Lemma compare_dextypelists_key
  (mutf8_units : ascii -> string -> Z * nat) (g : RedexContext.t) :
  store_closed g -> interned g -> strings_well_formed mutf8_units g ->
  forall a b,
    live_typelist g a -> live_typelist g b ->
    compare_dextypelists mutf8_units g a b
    = Some (lex_list (lex_list Z.ltb) (typelist_key mutf8_units g a)
                                      (typelist_key mutf8_units g b)).
Proof.
  intros Hc Hi Hwf a b Ha Hb.
  unfold compare_dextypelists, typelist_key, deref_typelist,
    DexTypeList_operator_lt.
  destruct (lookup_lt_is_Some_2 _ _ Ha) as [la Hla].
  destruct (lookup_lt_is_Some_2 _ _ Hb) as [lb Hlb].
  rewrite Hla, Hlb. cbn [mbind option_bind].
  apply typelist_lt_key; try assumption; by eapply typelist_live.
Qed.

(** X3.  In a closed, interned store with well-formed Strings,
    [compare_dextypelists] is a strict total order on the live type
    lists. *)
Theorem compare_dextypelists_strict_order
  (mutf8_units : ascii -> string -> Z * nat) (g : RedexContext.t) :
  store_closed g -> interned g -> strings_well_formed mutf8_units g ->
  strict_order_on (live_typelist g) (compare_dextypelists mutf8_units g).
Proof.
  intros Hc Hi Hwf.
  apply (strict_order_on_key (lex_list (lex_list Z.ltb)) _
           (typelist_key mutf8_units g)).
  - apply lex_list_strict_total, ltS_strict_total.
  - intros a b. by apply compare_dextypelists_key.
  - intros a b. by apply typelist_key_inj.
Qed.

Lemma example_live_typelist (p : nat) :
  (p < 2)%nat -> live_typelist example_store p.
Proof.
  unfold live_typelist.
  replace (length (RedexContext.objs (RedexContext.typelists example_store)))
    with 2%nat by (vm_compute; reflexivity).
  done.
Qed.

Lemma compare_dextypelists_strict_order_witness :
  compare_dextypelists mutf8_units_std example_store 1 0 = Some false.
Proof.
  refine (so_asym _ _
            (compare_dextypelists_strict_order mutf8_units_std example_store
               example_store_closed example_store_interned
               example_store_well_formed)
            0%nat 1%nat _ _ _).
  - apply example_live_typelist. lia.
  - apply example_live_typelist. lia.
  - vm_compute. reflexivity.
Defined.

(** X4.  In a closed, interned store with well-formed Strings,
    [compare_dexprotos] is a strict total order on the live
    Prototypes. *)
Theorem compare_dexprotos_strict_order
  (mutf8_units : ascii -> string -> Z * nat) (g : RedexContext.t) :
  store_closed g -> interned g -> strings_well_formed mutf8_units g ->
  strict_order_on (live_proto g) (compare_dexprotos mutf8_units g).
Proof.
  intros Hc Hi Hwf.
  apply (strict_order_on_key proto_key_lt _ (proto_key mutf8_units g)).
  - unfold proto_key_lt.
    repeat first [apply lex_pair_strict_total | apply lex_list_strict_total
                 | apply Zltb_strict_total].
  - intros a b. by apply compare_dexprotos_key.
  - intros a b. by apply proto_key_inj.
Qed.

Lemma example_live_proto (p : nat) :
  (p < 2)%nat -> live_proto example_store p.
Proof.
  unfold live_proto.
  replace (length (RedexContext.objs (RedexContext.protos example_store)))
    with 2%nat by (vm_compute; reflexivity).
  done.
Qed.

Lemma compare_dexprotos_strict_order_witness :
  compare_dexprotos mutf8_units_std example_store 1 0 = Some false.
Proof.
  refine (so_asym _ _
            (compare_dexprotos_strict_order mutf8_units_std example_store
               example_store_closed example_store_interned
               example_store_well_formed)
            0%nat 1%nat _ _ _).
  - apply example_live_proto. lia.
  - apply example_live_proto. lia.
  - vm_compute. reflexivity.
Defined.

Section FieldOrder.

Variable mutf8_units : ascii -> string -> Z * nat.
Variable g : RedexContext.t.
Hypothesis Hclosed : store_closed g.
Hypothesis Hinterned : interned g.
Hypothesis Hwf : strings_well_formed mutf8_units g.
Hypothesis Hfclosed : fields_closed g.
Hypothesis Hfinterned : fields_interned g.

Lemma field_live (f : ptr) (fo : DexField.t) :
  RedexContext.objs (RedexContext.fields g) !! f = Some fo ->
  live_type g (DexField.m_class fo)
  /\ live_string g (DexField.m_name fo)
  /\ live_type g (DexField.m_type fo).
Proof.
  intros Hf. unfold fields_closed in Hfclosed.
  rewrite Forall_lookup in Hfclosed. exact (Hfclosed _ _ Hf).
Qed.

Lemma field_key_inj (a b : ptr) :
  live_field g a -> live_field g b ->
  field_key mutf8_units g a = field_key mutf8_units g b -> a = b.
Proof.
  intros Ha Hb. unfold field_key, deref_field.
  destruct (lookup_lt_is_Some_2 _ _ Ha) as [fa Hfa].
  destruct (lookup_lt_is_Some_2 _ _ Hb) as [fb Hfb].
  rewrite Hfa, Hfb. intros [= Ec En Et].
  destruct (field_live _ _ Hfa) as (Hca & Hna & Hta).
  destruct (field_live _ _ Hfb) as (Hcb & Hnb & Htb).
  apply (type_key_inj _ _ Hclosed Hinterned Hwf) in Ec; try assumption.
  apply (string_key_inj _ _ Hwf) in En; try assumption.
  apply (type_key_inj _ _ Hclosed Hinterned Hwf) in Et; try assumption.
  apply (NoDup_fmap_lookup _ _ _ _ _ _ Hfinterned Hfa Hfb).
  unfold DexField.get_class, DexField.get_name, DexField.get_type in *.
  congruence.
Qed.

Lemma compare_dexfields_key (a b : ptr) :
  live_field g a -> live_field g b ->
  compare_dexfields mutf8_units g a b
  = Some (field_key_lt (field_key mutf8_units g a)
                       (field_key mutf8_units g b)).
Proof.
  intros Ha Hb.
  unfold compare_dexfields, field_key, field_key_lt, deref_field.
  destruct (lookup_lt_is_Some_2 _ _ Ha) as [fa Hfa].
  destruct (lookup_lt_is_Some_2 _ _ Hb) as [fb Hfb].
  rewrite Hfa, Hfb. cbn [mbind option_bind].
  destruct (field_live _ _ Hfa) as (Hca & Hna & Hta).
  destruct (field_live _ _ Hfb) as (Hcb & Hnb & Htb).
  unfold DexField.get_class, DexField.get_name, DexField.get_type.
  unfold lex_pair at 1. cbn [fst snd].
  destruct (Nat.eqb_spec (DexField.m_class fa) (DexField.m_class fb))
    as [Ec|Ec]; cbn [negb].
  - rewrite Ec, (st_irrefl _ ltS_strict_total).
    unfold lex_pair. cbn [fst snd].
    destruct (Nat.eqb_spec (DexField.m_name fa) (DexField.m_name fb))
      as [En|En]; cbn [negb].
    + rewrite En, (st_irrefl _ ltS_strict_total).
      by apply compare_dextypes_key.
    + rewrite (compare_dexstrings_key _ _ Hwf) by assumption.
      destruct (lex_list Z.ltb _ _) eqn:Exy; [reflexivity|].
      destruct (lex_list Z.ltb
                  (string_key mutf8_units g (DexField.m_name fb)) _) eqn:Eyx;
        [reflexivity|].
      exfalso. apply En. apply (string_key_inj _ _ Hwf); try assumption.
      by apply (st_total _ ltS_strict_total).
  - rewrite (compare_dextypes_key _ _ Hclosed Hwf) by assumption.
    destruct (lex_list Z.ltb _ _) eqn:Exy; [reflexivity|].
    destruct (lex_list Z.ltb
                (type_key mutf8_units g (DexField.m_class fb)) _) eqn:Eyx;
      [reflexivity|].
    exfalso. apply Ec.
    apply (type_key_inj _ _ Hclosed Hinterned Hwf); try assumption.
    by apply (st_total _ ltS_strict_total).
Qed.

End FieldOrder.

(** X5.  In a closed, interned store with well-formed Strings whose
    Fields hold live pointers and are interned, [compare_dexfields]
    is a strict total order on the live Fields: the lexicographic
    order of (declaring Type, name, Type). *)
Theorem compare_dexfields_strict_order
  (mutf8_units : ascii -> string -> Z * nat) (g : RedexContext.t) :
  store_closed g -> interned g -> strings_well_formed mutf8_units g ->
  fields_closed g -> fields_interned g ->
  strict_order_on (live_field g) (compare_dexfields mutf8_units g)
  /\ (forall a b,
        live_field g a -> live_field g b ->
        compare_dexfields mutf8_units g a b
        = Some (field_key_lt (field_key mutf8_units g a)
                             (field_key mutf8_units g b))).
Proof.
  intros Hc Hi Hwf Hfc Hfi.
  split; [|intros a b; by apply compare_dexfields_key].
  apply (strict_order_on_key field_key_lt _ (field_key mutf8_units g)).
  - unfold field_key_lt.
    repeat first [apply lex_pair_strict_total | apply lex_list_strict_total
                 | apply Zltb_strict_total].
  - intros a b. by apply compare_dexfields_key.
  - intros a b. by apply field_key_inj.
Qed.

Lemma example_field_store_invariants :
  store_closed example_field_store
  /\ interned example_field_store
  /\ strings_well_formed mutf8_units_std example_field_store
  /\ fields_closed example_field_store
  /\ fields_interned example_field_store.
Proof.
  unfold store_closed, interned, strings_well_formed, fields_closed,
    fields_interned, live_type, live_string.
  repeat split; apply (bool_decide_unpack _); vm_compute; exact I.
Qed.

Lemma example_live_field (p : nat) :
  (p < 3)%nat -> live_field example_field_store p.
Proof.
  unfold live_field.
  replace (length (RedexContext.objs
                     (RedexContext.fields example_field_store)))
    with 3%nat by (vm_compute; reflexivity).
  done.
Qed.

Lemma compare_dexfields_strict_order_witness :
  compare_dexfields mutf8_units_std example_field_store 0 1 = Some false.
Proof.
  destruct example_field_store_invariants as (Hc & Hi & Hw & Hfc & Hfi).
  refine (so_asym _ _
            (proj1 (compare_dexfields_strict_order mutf8_units_std
                      example_field_store Hc Hi Hw Hfc Hfi))
            1%nat 0%nat _ _ _).
  - apply example_live_field. lia.
  - apply example_live_field. lia.
  - vm_compute. reflexivity.
Defined.

(** *** String order without assumptions on the decoder *)

Lemma bytes_of_inj (s1 s2 : string) : bytes_of s1 = bytes_of s2 -> s1 = s2.
Proof.
  revert s2. induction s1 as [|c1 r1 IH]; intros [|c2 r2]; cbn; try done.
  intros [= Hc Hr]. f_equal; [by apply byte_val_inj|by apply IH].
Qed.

(** X6.  Whatever the decoder: on the simple Strings of a store that
    holds no text twice, [compare_dexstrings] is the lexicographic
    order of the raw bytes, a strict total order. *)
Theorem simple_strings_byte_order
  (mutf8_units : ascii -> string -> Z * nat) (g : RedexContext.t) :
  NoDup (DexString.m_cstr <$> RedexContext.objs (RedexContext.strings g)) ->
  strict_order_on
    (fun p => exists s, deref_string g p = Some s
                        /\ DexString.is_simple s = true)
    (compare_dexstrings mutf8_units g)
  /\ (forall a b da db,
        deref_string g a = Some da -> deref_string g b = Some db ->
        DexString.is_simple da = true -> DexString.is_simple db = true ->
        compare_dexstrings mutf8_units g a b
        = Some (lex_list Z.ltb (bytes_of (DexString.c_str da))
                               (bytes_of (DexString.c_str db)))).
Proof.
  intros Hnd.
  assert (Hcmp : forall a b da db,
             deref_string g a = Some da -> deref_string g b = Some db ->
             DexString.is_simple da = true -> DexString.is_simple db = true ->
             compare_dexstrings mutf8_units g a b
             = Some (lex_list Z.ltb (bytes_of (DexString.c_str da))
                                    (bytes_of (DexString.c_str db)))).
  { intros a b da db Ha Hb Hsa Hsb.
    unfold compare_dexstrings. rewrite Ha, Hb. cbn [mbind option_bind].
    unfold dexstring_less. rewrite Hsa, Hsb. cbn [andb].
    by rewrite strcmp_lex. }
  split; [|exact Hcmp].
  apply (strict_order_on_key (lex_list Z.ltb) _
           (fun p => match deref_string g p with
                     | Some s => bytes_of (DexString.c_str s)
                     | None => []
                     end)).
  - apply ltS_strict_total.
  - intros a b (da & Ha & Hsa) (db & Hb & Hsb). rewrite Ha, Hb.
    by apply Hcmp.
  - intros a b (da & Ha & Hsa) (db & Hb & Hsb). rewrite Ha, Hb.
    intros E. apply bytes_of_inj in E.
    exact (NoDup_fmap_lookup _ _ _ _ _ _ Hnd Ha Hb E).
Qed.

Lemma simple_strings_byte_order_witness :
  compare_dexstrings mutf8_units_std cyclic_store 1 0 = Some true.
Proof.
  assert (Hnd : NoDup (DexString.m_cstr
                         <$> RedexContext.objs
                               (RedexContext.strings cyclic_store)))
    by (apply (bool_decide_unpack _); vm_compute; exact I).
  rewrite (proj2 (simple_strings_byte_order mutf8_units_std cyclic_store Hnd)
             1%nat 0%nat (DexString.new text_02 1) (DexString.new text_c0_80 2)
             eq_refl eq_refl eq_refl eq_refl).
  reflexivity.
Defined.

(** X7.  Whatever the decoder and the encoded lengths: the empty
    String is below every other String and no String is below it. *)
Theorem empty_string_is_least
  (mutf8_units : ascii -> string -> Z * nat) (g : RedexContext.t)
  (a b : ptr) (da db : DexString.t) :
  deref_string g a = Some da -> deref_string g b = Some db ->
  DexString.c_str da = EmptyString ->
  DexString.c_str db <> EmptyString ->
  compare_dexstrings mutf8_units g a b = Some true
  /\ compare_dexstrings mutf8_units g b a = Some false.
Proof.
  intros Ha Hb Hea Hnb. unfold compare_dexstrings.
  rewrite Ha, Hb. cbn [mbind option_bind]. unfold dexstring_less.
  rewrite Hea. destruct (DexString.c_str db) as [|c r] eqn:Edb; [done|].
  cbn [strcmp]. split.
  - by destruct (_ && _).
  - destruct (_ && _); [reflexivity|].
    change (1 =? 0) with false. cbv iota.
    destruct (Z.eqb_spec (strlen (String c r)) 0) as [E|_];
      [by apply strlen_eq_0 in E|].
    reflexivity.
Qed.

Lemma empty_string_is_least_witness :
  compare_dexstrings mutf8_units_std
    (serve_all [MakeString "" 7; MakeString "a" 1] RedexContext.empty) 0 1
  = Some true.
Proof.
  refine (proj1 (empty_string_is_least mutf8_units_std
                   (serve_all [MakeString "" 7; MakeString "a" 1]
                      RedexContext.empty) 0%nat 1%nat
                   (DexString.new "" 7) (DexString.new "a" 1)
                   eq_refl eq_refl eq_refl _)).
  discriminate.
Defined.

Lemma lockstep_same (xs : list Z) : xs <> [] -> lockstep xs xs = true.
Proof.
  induction xs as [|x xs IH]; [done|]. intros _. cbn [lockstep].
  rewrite Z.eqb_refl. destruct xs as [|y ys]; [reflexivity|].
  apply IH. discriminate.
Qed.

(** X8.  Two Strings of different bytes that spell the same code
    points, not both simple, are each reported below the other: the
    loop answers true as soon as the first String is exhausted,
    without looking at the second. *)
Theorem same_code_points_both_below
  (mutf8_units : ascii -> string -> Z * nat) (g : RedexContext.t)
  (a b : ptr) (da db : DexString.t) :
  deref_string g a = Some da -> deref_string g b = Some db ->
  DexString.is_simple da && DexString.is_simple db = false ->
  DexString.c_str da <> DexString.c_str db ->
  code_points mutf8_units (DexString.c_str da)
  = code_points mutf8_units (DexString.c_str db) ->
  compare_dexstrings mutf8_units g a b = Some true
  /\ compare_dexstrings mutf8_units g b a = Some true.
Proof.
  intros Ha Hb Hns Hne Hcp. unfold compare_dexstrings.
  rewrite Ha, Hb. cbn [mbind option_bind]. unfold dexstring_less.
  rewrite (andb_comm (DexString.is_simple db)), Hns.
  set (sa := DexString.c_str da) in *. set (sb := DexString.c_str db) in *.
  assert (Hsa : sa <> EmptyString).
  { intros E. apply Hne. rewrite E in *. symmetry.
    apply (code_points_nil mutf8_units). by rewrite <- Hcp. }
  assert (Hsb : sb <> EmptyString).
  { intros E. apply Hne. rewrite E in *.
    apply (code_points_nil mutf8_units). by rewrite Hcp. }
  destruct (Z.eqb_spec (strcmp sa sb) 0) as [E|_];
    [by apply strcmp_eq_0 in E|].
  destruct (Z.eqb_spec (strcmp sb sa) 0) as [E|_];
    [apply strcmp_eq_0 in E; by symmetry in E|].
  destruct (Z.eqb_spec (strlen sa) 0) as [E|_]; [by apply strlen_eq_0 in E|].
  destruct (Z.eqb_spec (strlen sb) 0) as [E|_]; [by apply strlen_eq_0 in E|].
  rewrite !code_point_loop_lockstep by (assumption || lia).
  rewrite Hcp. rewrite lockstep_same; [done|].
  by rewrite code_points_nil.
Qed.

Lemma same_code_points_both_below_witness :
  compare_dexstrings mutf8_units_std overlong_store 0 1 = Some true
  /\ compare_dexstrings mutf8_units_std overlong_store 1 0 = Some true.
Proof.
  refine (same_code_points_both_below mutf8_units_std overlong_store
            0%nat 1%nat (DexString.new "A" 1) (DexString.new text_c1_81 1)
            eq_refl eq_refl eq_refl _ eq_refl).
  discriminate.
Defined.

(** *** Parameter annotations *)

(** X9.  [attach_param_annotation_set] stores [aset] under [paramno]
    exactly when that parameter has no entry and the method is not
    concrete, and otherwise takes the assertion path naming the
    parameter and the method.  After it returns, the other
    parameters' entries and the method's own annotation set are as
    before, [get_param_anno] is non-null, and a further call for the
    same parameter takes the assertion path, also when the set stored
    was null. *)
Theorem attach_param_annotation_set_slots (this : ptr) (paramno : Z)
  (aset : option ptr) (m : DexMethod.t) :
  (DexMethod.m_param_anno m !! paramno = None
   /\ DexMethod.m_concrete m = false ->
   exists m',
     DexMethod.attach_param_annotation_set this paramno aset m = Ok m'
     /\ DexMethod.m_param_anno m' !! paramno = Some aset
     /\ (forall q, q <> paramno ->
           DexMethod.m_param_anno m' !! q = DexMethod.m_param_anno m !! q)
     /\ DexMethod.get_anno_set m' = DexMethod.get_anno_set m
     /\ DexMethod.get_param_anno m' = Some (DexMethod.m_param_anno m')
     /\ (forall aset',
           DexMethod.attach_param_annotation_set this paramno aset' m'
           = Abort (assertion_failed_log
                      "attach_param_annotation_set failed for param %d to method %s\n"
                      [arg_int paramno; arg_show_short this])))
  /\ (~ (DexMethod.m_param_anno m !! paramno = None
         /\ DexMethod.m_concrete m = false) ->
      DexMethod.attach_param_annotation_set this paramno aset m
      = Abort (assertion_failed_log
                 "attach_param_annotation_set failed for param %d to method %s\n"
                 [arg_int paramno; arg_show_short this])).
Proof.
  split.
  - intros [Hnone Hconc].
    unfold DexMethod.attach_param_annotation_set.
    rewrite Hnone, Hconc. cbn [bool_decide andb].
    rewrite !bool_decide_eq_true_2 by reflexivity. cbn [andb].
    eexists. split; [reflexivity|]. cbn.
    repeat split.
    + apply lookup_insert_eq.
    + intros q Hq. by apply lookup_insert_ne.
    + unfold DexMethod.get_param_anno. cbn.
      destruct (Nat.eqb_spec
                  (size (<[paramno:=aset]> (DexMethod.m_param_anno m))) 0)
        as [E|_]; [|reflexivity].
      apply map_size_empty_iff in E. by apply insert_non_empty in E.
    + intros aset'. rewrite lookup_insert_eq.
      rewrite bool_decide_eq_false_2 by discriminate. reflexivity.
  - intros Hc. unfold DexMethod.attach_param_annotation_set.
    destruct (DexMethod.m_param_anno m !! paramno) as [x|] eqn:E1.
    + rewrite bool_decide_eq_false_2 by discriminate. reflexivity.
    + destruct (DexMethod.m_concrete m) eqn:E2.
      * rewrite (bool_decide_eq_false_2 (true = false)) by discriminate.
        by rewrite andb_false_r.
      * exfalso. by apply Hc.
Qed.

Lemma attach_param_annotation_set_slots_witness :
  exists m',
    DexMethod.attach_param_annotation_set 3 0 None (DexMethod.new 0 1 2)
    = Ok m'
    /\ DexMethod.get_param_anno m' = Some (DexMethod.m_param_anno m').
Proof.
  destruct (proj1 (attach_param_annotation_set_slots 3%nat 0 None
                     (DexMethod.new 0 1 2)) (conj eq_refl eq_refl))
    as (m' & H1 & _ & _ & _ & H2 & _).
  exists m'. split; assumption.
Defined.

(** *** Access flags, written and read *)

(** X10.  [set_access] never changes whether a Field or Method is a
    definition.  When it returns, [get_access] yields the flags just
    written on a definition and still takes the assertion path on a
    bare reference; on a bare reference [set_access] always returns.
    When [set_external] returns, the entity is a definition and
    [get_access] yields the flags stored before. *)
Theorem set_access_then_get_access (NDEBUG : bool) (access : DexAccessFlags) :
  (forall f f',
      DexField.set_access NDEBUG access f = Ok f' ->
      DexField.is_def f' = DexField.is_def f
      /\ DexField.get_access f'
         = if DexField.is_def f then Ok access
           else Abort (assertion_failed "is_def()"))
  /\ (forall f,
      DexField.is_def f = false ->
      DexField.set_access NDEBUG access f = Ok (DexField.with_access access f))
  /\ (forall f f',
      DexField.set_external f = Ok f' ->
      DexField.is_def f' = true
      /\ DexField.get_access f' = Ok (DexField.m_access f))
  /\ (forall m m',
      DexMethod.set_access NDEBUG access m = Ok m' ->
      DexMethod.is_def m' = DexMethod.is_def m
      /\ DexMethod.get_access m'
         = if DexMethod.is_def m then Ok access
           else Abort (assertion_failed "is_def()"))
  /\ (forall m,
      DexMethod.is_def m = false ->
      DexMethod.set_access NDEBUG access m
      = Ok (DexMethod.with_access access m))
  /\ (forall m m',
      DexMethod.set_external m = Ok m' ->
      DexMethod.is_def m' = true
      /\ DexMethod.get_access m' = Ok (DexMethod.m_access m)).
Proof.
  repeat match goal with |- _ /\ _ => split end.
  - intros f f' H. apply assert_Ok_inv in H. subst f'.
    split; [reflexivity|].
    unfold DexField.get_access, always_assert.
    change (DexField.is_def (DexField.with_access access f))
      with (DexField.is_def f).
    by destruct (DexField.is_def f).
  - intros f Hd. unfold DexField.is_def, DexField.is_concrete,
      DexField.is_external in Hd.
    apply orb_false_elim in Hd as [_ He].
    unfold DexField.set_access, assert, always_assert. rewrite He.
    by destruct NDEBUG.
  - intros f f' H. apply always_assert_Ok_inv in H. destruct H as [_ <-].
    split; [apply orb_true_r|].
    unfold DexField.get_access, always_assert.
    change (DexField.is_def (DexField.with_external true f))
      with (DexField.is_concrete f || true).
    by rewrite orb_true_r.
  - intros m m' H. apply assert_Ok_inv in H. subst m'.
    split; [reflexivity|].
    unfold DexMethod.get_access, always_assert.
    change (DexMethod.is_def (DexMethod.with_access access m))
      with (DexMethod.is_def m).
    by destruct (DexMethod.is_def m).
  - intros m Hd. unfold DexMethod.is_def, DexMethod.is_concrete,
      DexMethod.is_external in Hd.
    apply orb_false_elim in Hd as [_ He].
    unfold DexMethod.set_access, assert, always_assert. rewrite He.
    by destruct NDEBUG.
  - intros m m' H. apply always_assert_Ok_inv in H. destruct H as [_ <-].
    split; [apply orb_true_r|].
    unfold DexMethod.get_access, always_assert.
    change (DexMethod.is_def (DexMethod.with_external true m))
      with (DexMethod.is_concrete m || true).
    by rewrite orb_true_r.
Qed.

Lemma set_access_then_get_access_witness :
  DexField.get_access (DexField.with_access 9 (DexField.new 0 1 2))
  = Abort (assertion_failed "is_def()")
  /\ DexMethod.get_access (DexMethod.with_external true (DexMethod.new 0 1 2))
     = Ok 0.
Proof.
  destruct (set_access_then_get_access false 9)
    as (H1 & _ & _ & _ & _ & H6).
  split.
  - exact (proj2 (H1 (DexField.new 0 1 2) _ eq_refl)).
  - exact (proj2 (H6 (DexMethod.new 0 1 2) _ eq_refl)).
Defined.

(** *** What the mutators leave alone *)

Lemma field_step_identity (NDEBUG : bool) (f f' : DexField.t) :
  field_step NDEBUG f f' ->
  DexField.get_class f' = DexField.get_class f
  /\ DexField.get_name f' = DexField.get_name f
  /\ DexField.get_type f' = DexField.get_type f
  /\ DexField.get_static_value f' = DexField.get_static_value f.
Proof.
  intros Hstep. destruct Hstep as [a f f' H|f f' H|f|aset f f' H].
  - apply assert_Ok_inv in H. by subst f'.
  - apply always_assert_Ok_inv in H. by destruct H as [_ <-].
  - done.
  - rewrite field_attach_spec in H. case_bool_decide; [|discriminate].
    by injection H as <-.
Qed.

Lemma method_step_identity (NDEBUG : bool) (m m' : DexMethod.t) :
  method_step NDEBUG m m' ->
  DexMethod.get_class m' = DexMethod.get_class m
  /\ DexMethod.get_name m' = DexMethod.get_name m
  /\ DexMethod.get_proto m' = DexMethod.get_proto m.
Proof.
  intros Hstep.
  destruct Hstep as [a m m' H|v m m' H|m m' H|c m|m|this aset m m' H
                    |this pn aset m m' H].
  - apply assert_Ok_inv in H. by subst m'.
  - apply assert_Ok_inv in H. by subst m'.
  - apply always_assert_Ok_inv in H. by destruct H as [_ <-].
  - done.
  - done.
  - rewrite method_attach_spec in H. case_bool_decide; [|discriminate].
    by injection H as <-.
  - unfold DexMethod.attach_param_annotation_set in H.
    destruct (_ && _); [|discriminate]. by injection H as <-.
Qed.

Lemma class_step_identity (NDEBUG : bool) (c c' : DexClass.t) :
  class_step NDEBUG c c' ->
  DexClass.get_type c' = DexClass.get_type c
  /\ DexClass.get_super_class c' = DexClass.get_super_class c
  /\ DexClass.get_sfields_const c' = DexClass.get_sfields_const c
  /\ DexClass.get_ifields_const c' = DexClass.get_ifields_const c
  /\ DexClass.get_dmethods_const c' = DexClass.get_dmethods_const c
  /\ DexClass.get_vmethods_const c' = DexClass.get_vmethods_const c
  /\ DexClass.has_class_data c' = DexClass.has_class_data c.
Proof.
  intros Hstep. destruct Hstep as [a c c' H|sf c|i c c' H|c].
  - apply assert_Ok_inv in H. by subst c'.
  - done.
  - apply assert_Ok_inv in H. by subst c'.
  - done.
Qed.

(** X11.  Along any sequence of successful calls of the mutators
    that act on the object itself, a Field ([set_access],
    [set_external], [clear_annotations], [attach_annotation_set]) keeps
    its declaring Type, name, Type and static value, a Method
    ([set_access], [set_virtual], [set_external], [set_code],
    [clear_annotations], [attach_annotation_set],
    [attach_param_annotation_set]) keeps its declaring Type, name and
    Prototype, the attributes it is interned by, and a Class
    ([set_access], [set_source_file], [set_interfaces],
    [clear_annotations]) keeps its Type, its super class, its four
    member lists and its class-data flag.  [change_class] and
    [change_proto] are not among these calls: they hand the Method to
    the authority to be re-keyed, and the declaring Type and the
    Prototype are what they change. *)
Theorem mutators_keep_identity (NDEBUG : bool) :
  (forall f f', rtc (field_step NDEBUG) f f' ->
      DexField.get_class f' = DexField.get_class f
      /\ DexField.get_name f' = DexField.get_name f
      /\ DexField.get_type f' = DexField.get_type f
      /\ DexField.get_static_value f' = DexField.get_static_value f)
  /\ (forall m m', rtc (method_step NDEBUG) m m' ->
      DexMethod.get_class m' = DexMethod.get_class m
      /\ DexMethod.get_name m' = DexMethod.get_name m
      /\ DexMethod.get_proto m' = DexMethod.get_proto m)
  /\ (forall c c', rtc (class_step NDEBUG) c c' ->
      DexClass.get_type c' = DexClass.get_type c
      /\ DexClass.get_super_class c' = DexClass.get_super_class c
      /\ DexClass.get_sfields_const c' = DexClass.get_sfields_const c
      /\ DexClass.get_ifields_const c' = DexClass.get_ifields_const c
      /\ DexClass.get_dmethods_const c' = DexClass.get_dmethods_const c
      /\ DexClass.get_vmethods_const c' = DexClass.get_vmethods_const c
      /\ DexClass.has_class_data c' = DexClass.has_class_data c).
Proof.
  split; [|split].
  - intros f f' H. induction H as [|x y z Hs _ IH]; [done|].
    destruct (field_step_identity _ _ _ Hs) as (H1 & H2 & H3 & H4).
    destruct IH as (I1 & I2 & I3 & I4).
    repeat split; congruence.
  - intros m m' H. induction H as [|x y z Hs _ IH]; [done|].
    destruct (method_step_identity _ _ _ Hs) as (H1 & H2 & H3).
    destruct IH as (I1 & I2 & I3).
    repeat split; congruence.
  - intros c c' H. induction H as [|x y z Hs _ IH]; [done|].
    destruct (class_step_identity _ _ _ Hs)
      as (H1 & H2 & H3 & H4 & H5 & H6 & H7).
    destruct IH as (I1 & I2 & I3 & I4 & I5 & I6 & I7).
    repeat split; congruence.
Qed.

Lemma mutators_keep_identity_witness :
  DexMethod.get_proto
    (DexMethod.with_code (Some 4%nat)
       (DexMethod.with_external true (DexMethod.new 0 1 2)))
  = DexMethod.get_proto (DexMethod.new 0 1 2).
Proof.
  refine (proj2 (proj2 (proj1 (proj2 (mutators_keep_identity false))
                          (DexMethod.new 0 1 2) _ _))).
  eapply rtc_l; [apply method_set_external; reflexivity|].
  apply rtc_once. apply (method_set_code false (Some 4%nat)).
Defined.

(** *** Clearing annotations *)

(** X12.  [clear_annotations] always returns and leaves no annotation
    set, on a concrete entity too.  After it, [attach_annotation_set]
    succeeds exactly when the entity is not concrete: the annotations
    of a concrete Field or Method can be dropped but not attached
    again. *)
Theorem clear_annotations_then_attach :
  (forall (aset : option ptr) (f : DexField.t),
      DexField.get_anno_set (DexField.clear_annotations f) = None
      /\ DexField.is_concrete (DexField.clear_annotations f)
         = DexField.is_concrete f
      /\ (DexField.is_concrete f = false ->
          DexField.attach_annotation_set aset (DexField.clear_annotations f)
          = Ok (DexField.with_anno aset f))
      /\ (DexField.is_concrete f = true ->
          is_ok (DexField.attach_annotation_set aset
                   (DexField.clear_annotations f)) = false))
  /\ (forall (this : ptr) (aset : option ptr) (m : DexMethod.t),
      DexMethod.get_anno_set (DexMethod.clear_annotations m) = None
      /\ DexMethod.is_concrete (DexMethod.clear_annotations m)
         = DexMethod.is_concrete m
      /\ (DexMethod.is_concrete m = false ->
          DexMethod.attach_annotation_set this aset
            (DexMethod.clear_annotations m)
          = Ok (DexMethod.with_anno aset m))
      /\ (DexMethod.is_concrete m = true ->
          is_ok (DexMethod.attach_annotation_set this aset
                   (DexMethod.clear_annotations m)) = false)).
Proof.
  split.
  - intros aset f. repeat split.
    + unfold DexField.is_concrete. intros Hc.
      unfold DexField.attach_annotation_set. cbn. by rewrite Hc.
    + unfold DexField.is_concrete. intros Hc.
      unfold DexField.attach_annotation_set. cbn. by rewrite Hc.
  - intros this aset m. repeat split.
    + unfold DexMethod.is_concrete. intros Hc.
      unfold DexMethod.attach_annotation_set. cbn. by rewrite Hc.
    + unfold DexMethod.is_concrete. intros Hc.
      unfold DexMethod.attach_annotation_set. cbn. by rewrite Hc.
Qed.

Lemma clear_annotations_then_attach_witness :
  is_ok (DexField.attach_annotation_set (Some 7%nat)
           (DexField.clear_annotations
              (DexField.mk 0 1 2 (Some 5%nat) None 0 true false))) = false.
Proof.
  exact (proj2 (proj2 (proj2 (proj1 clear_annotations_then_attach
                                (Some 7%nat)
                                (DexField.mk 0 1 2 (Some 5%nat) None 0
                                   true false))))
           eq_refl).
Defined.

(** *** DexClasses *)

Lemma dexclasses_at_of_nat (c : DexClasses.t) (i : nat) :
  DexClasses.at_ c (Z.of_nat i)
  = match DexClasses.m_classes c !! i with
    | Some cls => Returns cls
    | None => Throws std_out_of_range
    end.
Proof.
  unfold DexClasses.at_. rewrite Nat2Z.id.
  assert ((0 <=? Z.of_nat i) = true) as -> by (apply Z.leb_le; lia).
  cbn [andb].
  destruct (Z.ltb_spec (Z.of_nat i)
              (Z.of_nat (length (DexClasses.m_classes c)))) as [H|H];
    [reflexivity|].
  rewrite (proj2 (lookup_ge_None _ _)) by lia. reflexivity.
Qed.

Lemma dexclasses_at_nonneg (c : DexClasses.t) (num : Z) :
  0 <= num ->
  DexClasses.at_ c num
  = match DexClasses.m_classes c !! Z.to_nat num with
    | Some cls => Returns cls
    | None => Throws std_out_of_range
    end.
Proof.
  intros Hn. pose proof (dexclasses_at_of_nat c (Z.to_nat num)) as H.
  by rewrite Z2Nat.id in H by lia.
Qed.

Lemma dexclasses_at_out_of_range (c : DexClasses.t) (num : Z) :
  ~ (0 <= num < Z.of_nat (length (DexClasses.m_classes c))) ->
  DexClasses.at_ c num = Throws std_out_of_range.
Proof.
  intros H. unfold DexClasses.at_.
  destruct (Z.leb_spec 0 num), (Z.ltb_spec num
              (Z.of_nat (length (DexClasses.m_classes c))));
    cbn [andb]; try reflexivity.
  lia.
Qed.

(** X13.  [insert_at] and [get] check the index.  Inside the vector
    [insert_at] stores the class, [get] at that index then returns it,
    the other positions and the size are as before; at a negative
    index or one not below the number of entries both throw
    [std::out_of_range] and nothing is written. *)
Theorem dexclasses_insert_get (c : DexClasses.t) (cls : option ptr)
  (num : Z) :
  (0 <= num < Z.of_nat (length (DexClasses.m_classes c)) ->
   exists c',
     DexClasses.insert_at cls num c = Returns c'
     /\ DexClasses.get num c' = Returns cls
     /\ (forall j, j <> num -> DexClasses.get j c' = DexClasses.get j c)
     /\ DexClasses.size c' = DexClasses.size c)
  /\ (~ (0 <= num < Z.of_nat (length (DexClasses.m_classes c))) ->
      DexClasses.insert_at cls num c = Throws std_out_of_range
      /\ DexClasses.get num c = Throws std_out_of_range).
Proof.
  split.
  - intros Hr.
    assert (Hn : (Z.to_nat num < length (DexClasses.m_classes c))%nat) by lia.
    unfold DexClasses.insert_at.
    rewrite dexclasses_at_nonneg by lia.
    destruct (lookup_lt_is_Some_2 _ _ Hn) as [old Hold]. rewrite Hold.
    eexists. split; [reflexivity|].
    unfold DexClasses.get. split; [|split].
    + rewrite dexclasses_at_nonneg by lia. cbn.
      by rewrite list_lookup_insert_eq.
    + intros j Hj.
      destruct (Z_lt_le_dec j 0) as [Hneg|Hpos].
      * rewrite !dexclasses_at_out_of_range by (cbn; lia). reflexivity.
      * rewrite !dexclasses_at_nonneg by lia. cbn.
        rewrite list_lookup_insert_ne by lia. reflexivity.
    + unfold DexClasses.size. cbn. by rewrite length_insert.
  - intros Hr. unfold DexClasses.insert_at, DexClasses.get.
    by rewrite dexclasses_at_out_of_range.
Qed.

Lemma dexclasses_insert_get_witness :
  exists c',
    DexClasses.insert_at (Some 4%nat) 1 (DexClasses.mk [None; None; None])
    = Returns c'
    /\ DexClasses.get 1 c' = Returns (Some 4%nat).
Proof.
  destruct (proj1 (dexclasses_insert_get (DexClasses.mk [None; None; None])
                     (Some 4%nat) 1) ltac:(cbn; lia))
    as (c' & H1 & H2 & _).
  exists c'. split; assumption.
Defined.

(** X14.  [DexClasses(size)] with a non-negative [size] holds [size]
    null entries: [get] returns null below [size] and throws at
    [size], and [size()] returns [size]. *)
Theorem dexclasses_new_null (size : Z) :
  0 <= size <= INT_MAX ->
  exists c,
    DexClasses.new size = Returns c
    /\ DexClasses.size c = size
    /\ (forall i, 0 <= i < size -> DexClasses.get i c = Returns None)
    /\ DexClasses.get size c = Throws std_out_of_range.
Proof.
  intros Hs. unfold DexClasses.new.
  assert ((size <? 0) = false) as -> by (apply Z.ltb_ge; lia).
  eexists. split; [reflexivity|]. split; [|split].
  - unfold DexClasses.size. cbn. rewrite length_replicate, Z2Nat.id by lia.
    apply to_int_small. unfold INT_MAX in *. lia.
  - intros i Hi. unfold DexClasses.get.
    rewrite dexclasses_at_nonneg by lia. cbn.
    rewrite lookup_replicate_2 by lia. reflexivity.
  - unfold DexClasses.get. apply dexclasses_at_out_of_range. cbn.
    rewrite length_replicate. lia.
Qed.

Lemma dexclasses_new_null_witness :
  exists c, DexClasses.new 3 = Returns c /\ DexClasses.size c = 3.
Proof.
  destruct (dexclasses_new_null 3 ltac:(unfold INT_MAX; lia))
    as (c & H1 & H2 & _).
  exists c. split; assumption.
Defined.

(** X15.  [erase(first, last)] on a valid range returns the position
    [first], removes [last - first] entries, keeps the entries before
    [first] and moves each later entry down by [last - first];
    erasing from [begin()] to [end()] leaves no entry. *)
Theorem dexclasses_erase_range (c : DexClasses.t) (first last : nat) :
  (first <= last <= length (DexClasses.m_classes c))%nat ->
  (DexClasses.erase first last c).1 = first
  /\ length (DexClasses.m_classes (DexClasses.erase first last c).2)
     = (length (DexClasses.m_classes c) - (last - first))%nat
  /\ (forall i, (i < first)%nat ->
        DexClasses.get (Z.of_nat i) (DexClasses.erase first last c).2
        = DexClasses.get (Z.of_nat i) c)
  /\ (forall i, (first <= i)%nat ->
        DexClasses.get (Z.of_nat i) (DexClasses.erase first last c).2
        = DexClasses.get (Z.of_nat (i + (last - first))) c)
  /\ DexClasses.m_classes
       (DexClasses.erase (DexClasses.begin_ c) (DexClasses.end_ c) c).2 = [].
Proof.
  intros Hr. unfold DexClasses.erase, DexClasses.get. cbn [fst snd].
  split; [reflexivity|]. split; [|split; [|split]].
  - cbn. rewrite length_app, length_take, length_drop. lia.
  - intros i Hi. rewrite !dexclasses_at_of_nat. cbn.
    rewrite lookup_app_l by (rewrite length_take; lia).
    by rewrite lookup_take_lt.
  - intros i Hi. rewrite !dexclasses_at_of_nat. cbn.
    rewrite lookup_app_r by (rewrite length_take; lia).
    rewrite length_take, lookup_drop.
    replace (last + (i - first `min` length (DexClasses.m_classes c)))%nat
      with (i + (last - first))%nat by lia.
    reflexivity.
  - unfold DexClasses.begin_, DexClasses.end_. cbn.
    by rewrite drop_all.
Qed.

Lemma dexclasses_erase_range_witness :
  DexClasses.get 1
    (DexClasses.erase 1 2
       (DexClasses.mk [Some 7%nat; Some 8%nat; Some 9%nat])).2
  = Returns (Some 9%nat).
Proof.
  refine (eq_trans
            (proj1 (proj2 (proj2 (proj2
               (dexclasses_erase_range
                  (DexClasses.mk [Some 7%nat; Some 8%nat; Some 9%nat])
                  1 2 _)))) 1%nat _) _).
  - cbn. lia.
  - lia.
  - reflexivity.
Defined.

(** *** The text overloads of the factories *)

Lemma with_strings_id (g : RedexContext.t) :
  RedexContext.with_strings (RedexContext.strings g) g = g.
Proof. by destruct g. Qed.

Lemma with_types_id (g : RedexContext.t) :
  RedexContext.with_types (RedexContext.types g) g = g.
Proof. by destruct g. Qed.

Lemma make_string_found nstr utfsize g p :
  RedexContext.find nstr (RedexContext.strings g) = Some p ->
  DexString_make_string nstr utfsize g = (p, g).
Proof.
  intros Hf. rewrite make_string_eq, (intern_found _ _ _ _ Hf). cbn.
  by rewrite with_strings_id.
Qed.

Lemma make_type_found dstring g p :
  RedexContext.find dstring (RedexContext.types g) = Some p ->
  DexType_make_type dstring g = (p, g).
Proof.
  intros Hf. rewrite make_type_eq, (intern_found _ _ _ _ Hf). cbn.
  by rewrite with_types_id.
Qed.

Lemma intern_keeps_objs {K : Type} `{Countable K} {V : Type}
  (k : K) (v x : V) (tb : RedexContext.table K V) (p : nat) :
  RedexContext.objs tb !! p = Some x ->
  RedexContext.objs (RedexContext.intern k v tb).2 !! p = Some x.
Proof.
  intros Hp. unfold RedexContext.intern.
  destruct (RedexContext.index tb !! k); cbn; [exact Hp|].
  rewrite lookup_app_l; [exact Hp|]. by eapply lookup_lt_Some.
Qed.

Lemma make_type_cstr_resolves type_string utfsize g :
  let r := DexType_make_type_cstr_utf type_string utfsize g in
  exists s,
    RedexContext.find type_string (RedexContext.strings r.2) = Some s
    /\ RedexContext.find s (RedexContext.types r.2) = Some r.1.
Proof.
  unfold DexType_make_type_cstr_utf.
  rewrite make_string_eq.
  set (rs := RedexContext.intern type_string _ (RedexContext.strings g)).
  rewrite make_type_eq. cbn.
  exists rs.1. split; [apply intern_find|apply intern_find].
Qed.

(** X16.  With the authority modelled as a table per class: after
    [DexType::make_type(text)], [DexType::get_type(text)] returns the
    Type made and a second [make_type(text)] returns it without
    changing the context, with or without an encoded length given;
    [get_type(text)] of a text that was never interned returns null,
    going through [get_string], which does not intern the text. *)
Theorem make_type_by_text (g : RedexContext.t) (type_string : string) :
  (let r := DexType_make_type_cstr type_string g in
   DexType_get_type_cstr type_string r.2 = Some r.1
   /\ DexType_make_type_cstr type_string r.2 = r
   /\ (forall utfsize,
         DexType_get_type_cstr_utf type_string utfsize r.2 = Some r.1
         /\ DexType_make_type_cstr_utf type_string utfsize r.2 = r))
  /\ (DexString_get_string_cstr type_string g = None ->
      DexType_get_type_cstr type_string g = None
      /\ forall utfsize,
           DexType_get_type_cstr_utf type_string utfsize g = None).
Proof.
  split.
  - intros r.
    destruct (make_type_cstr_resolves type_string
                (to_int (strlen type_string)) g) as (s & Hs & Ht).
    change (DexType_make_type_cstr_utf type_string
              (to_int (strlen type_string)) g) with r in Hs, Ht.
    assert (Hget : forall u,
               DexType_get_type_cstr_utf type_string u r.2 = Some r.1).
    { intros u. unfold DexType_get_type_cstr_utf, DexString_get_string,
        RedexContext.get_string. rewrite Hs. exact Ht. }
    assert (Hmake : forall u,
               DexType_make_type_cstr_utf type_string u r.2 = r).
    { intros u. unfold DexType_make_type_cstr_utf.
      rewrite (make_string_found _ _ _ _ Hs), (make_type_found _ _ _ Ht).
      by destruct r. }
    split; [apply Hget|]. split; [apply Hmake|].
    intros u. split; [apply Hget|apply Hmake].
  - intros Hnone.
    unfold DexType_get_type_cstr, DexType_get_type_cstr_utf,
      DexString_get_string_cstr, DexString_get_string,
      RedexContext.get_string in *.
    rewrite Hnone. by split.
Qed.

Lemma make_type_by_text_witness :
  DexType_get_type_cstr "LA;" RedexContext.empty = None.
Proof.
  exact (proj1 (proj2 (make_type_by_text RedexContext.empty "LA;") eq_refl)).
Defined.

(** X17.  A String created by the one-argument [make_string] has its
    raw length for encoded length, so it is simple whatever its bytes;
    two texts first interned that way are compared by [strcmp], never
    by code points. *)
Theorem make_string_cstr_is_simple
  (mutf8_units : ascii -> string -> Z * nat) (g : RedexContext.t)
  (n1 n2 : string) :
  let r1 := DexString_make_string_cstr n1 g in
  let r2 := DexString_make_string_cstr n2 r1.2 in
  DexString_get_string_cstr n1 g = None ->
  DexString_get_string_cstr n2 r1.2 = None ->
  (exists s1, deref_string r1.2 r1.1 = Some s1
              /\ DexString.c_str s1 = n1
              /\ DexString.is_simple s1 = true)
  /\ compare_dexstrings mutf8_units r2.2 r1.1 r2.1
     = Some (strcmp n1 n2 <? 0).
Proof.
  intros r1 r2 H1 H2.
  unfold DexString_get_string_cstr, DexString_get_string,
    RedexContext.get_string in H1, H2.
  set (u1 := to_int (strlen n1)) in *. set (u2 := to_int (strlen n2)) in *.
  assert (Hsimple : forall n, DexString.is_simple
                                (DexString.new n (to_int (strlen n))) = true).
  { intros n. unfold DexString.is_simple, DexString.new. cbn.
    by rewrite Z.eqb_refl. }
  destruct (intern_fresh n1 (DexString.new n1 u1) _ H1) as [_ Hd1].
  assert (Hr1 : deref_string r1.2 r1.1 = Some (DexString.new n1 u1)).
  { subst r1. unfold DexString_make_string_cstr. rewrite make_string_eq.
    exact Hd1. }
  destruct (intern_fresh n2 (DexString.new n2 u2) _ H2) as [_ Hd2].
  assert (Hr2 : deref_string r2.2 r2.1 = Some (DexString.new n2 u2)).
  { subst r2. unfold DexString_make_string_cstr. rewrite make_string_eq.
    exact Hd2. }
  assert (Hr12 : deref_string r2.2 r1.1 = Some (DexString.new n1 u1)).
  { subst r2. unfold DexString_make_string_cstr. rewrite make_string_eq.
    unfold deref_string in *. cbn. by apply intern_keeps_objs. }
  split.
  - exists (DexString.new n1 u1). repeat split; [exact Hr1|apply Hsimple].
  - unfold compare_dexstrings. rewrite Hr12, Hr2. cbn [mbind option_bind].
    unfold dexstring_less. by rewrite !Hsimple.
Qed.

Lemma make_string_cstr_is_simple_witness :
  compare_dexstrings mutf8_units_std
    (DexString_make_string_cstr text_02
       (DexString_make_string_cstr text_c0_80 RedexContext.empty).2).2
    (DexString_make_string_cstr text_c0_80 RedexContext.empty).1
    (DexString_make_string_cstr text_02
       (DexString_make_string_cstr text_c0_80 RedexContext.empty).2).1
  = Some (strcmp text_c0_80 text_02 <? 0).
Proof.
  exact (proj2 (make_string_cstr_is_simple mutf8_units_std RedexContext.empty
                  text_c0_80 text_02 eq_refl eq_refl)).
Defined.

(** *** Sorting fields *)

Lemma fields_sorted_keys (mutf8_units : ascii -> string -> Z * nat)
  (g : RedexContext.t) (l : list ptr) :
  (forall a b,
      live_field g a -> live_field g b ->
      compare_dexfields mutf8_units g a b
      = Some (field_key_lt (field_key mutf8_units g a)
                           (field_key mutf8_units g b))) ->
  Forall (live_field g) l ->
  fields_sorted mutf8_units g l ->
  Sorted (fun x y => field_key_lt y x = false) (field_key mutf8_units g <$> l).
Proof.
  intros Hkey Hv Hs. unfold fields_sorted in Hs.
  induction Hs as [|x l Hs IH Hhd]; cbn [fmap list_fmap]; constructor.
  - apply IH. by inversion Hv.
  - destruct Hhd as [|y l Hyx]; cbn [fmap list_fmap]; constructor.
    inversion Hv as [|? ? Hx Hl]; subst. inversion Hl as [|? ? Hy _]; subst.
    rewrite Hkey in Hyx by assumption. congruence.
Qed.

(** X18.  In a closed, interned store with well-formed Strings and
    closed, interned Fields, two arrangements of the same live Fields
    that are both sorted for [compare_dexfields] are the same list. *)
Theorem fields_sorted_unique
  (mutf8_units : ascii -> string -> Z * nat) (g : RedexContext.t)
  (l1 l2 : list ptr) :
  store_closed g -> interned g -> strings_well_formed mutf8_units g ->
  fields_closed g -> fields_interned g ->
  Forall (live_field g) l1 ->
  Permutation l1 l2 ->
  fields_sorted mutf8_units g l1 ->
  fields_sorted mutf8_units g l2 ->
  l1 = l2.
Proof.
  intros Hc Hi Hwf Hfc Hfi Hv1 Hp Hs1 Hs2.
  assert (Hv2 : Forall (live_field g) l2)
    by (eapply Permutation_Forall; eassumption).
  assert (Hkey := compare_dexfields_key mutf8_units g Hc Hi Hwf Hfc).
  assert (Hinj := field_key_inj mutf8_units g Hc Hi Hwf Hfc Hfi).
  assert (Hst : StrictTotal field_key_lt).
  { unfold field_key_lt.
    repeat first [apply lex_pair_strict_total | apply lex_list_strict_total
                 | apply Zltb_strict_total]. }
  assert (Hk : field_key mutf8_units g <$> l1
               = field_key mutf8_units g <$> l2).
  { apply (sorted_permutation_unique _ Hst).
    - by apply fields_sorted_keys.
    - by apply fields_sorted_keys.
    - by apply fmap_Permutation. }
  clear Hp Hs1 Hs2. revert l2 Hv2 Hk.
  induction l1 as [|x l1 IH]; intros [|y l2] Hv2; cbn; try done.
  inversion Hv1; inversion Hv2; subst. intros [= Hx Hr].
  f_equal; [by apply Hinj|by apply IH].
Qed.

Lemma fields_sorted_unique_witness : [1; 0; 2]%nat = [1; 0; 2]%nat.
Proof.
  destruct example_field_store_invariants as (Hc & Hi & Hw & Hfc & Hfi).
  refine (fields_sorted_unique mutf8_units_std example_field_store
            [1; 0; 2]%nat [1; 0; 2]%nat Hc Hi Hw Hfc Hfi _ _ _ _).
  - repeat first [ apply List.Forall_nil
                 | apply List.Forall_cons; [apply example_live_field; lia|] ].
  - apply Permutation_refl.
  - unfold fields_sorted.
    repeat first [apply Sorted_nil | apply Sorted_cons
                 | apply HdRel_nil | apply HdRel_cons];
      vm_compute; reflexivity.
  - unfold fields_sorted.
    repeat first [apply Sorted_nil | apply Sorted_cons
                 | apply HdRel_nil | apply HdRel_cons];
      vm_compute; reflexivity.
Defined.

(** *** Irreflexivity without assumptions on the text *)

Lemma dexstring_less_irrefl (mutf8_units : ascii -> string -> Z * nat)
  (s : DexString.t) :
  dexstring_less mutf8_units s s = Some false.
Proof.
  unfold dexstring_less. rewrite strcmp_refl. by destruct (_ && _).
Qed.

Lemma compare_dextypes_irrefl (mutf8_units : ascii -> string -> Z * nat)
  (g : RedexContext.t) (t : ptr) :
  store_closed g -> live_type g t ->
  compare_dextypes mutf8_units g t t = Some false.
Proof.
  intros Hc Ht. unfold compare_dextypes, deref_type.
  destruct (lookup_lt_is_Some_2 _ _ Ht) as [ty Hty]. rewrite Hty.
  cbn [mbind option_bind].
  pose proof (type_name_live g Hc t ty Hty) as Hn.
  unfold compare_dexstrings, deref_string.
  destruct (lookup_lt_is_Some_2 _ _ Hn) as [sn Hsn].
  unfold DexType.get_name. rewrite Hsn. cbn [mbind option_bind].
  apply dexstring_less_irrefl.
Qed.

(** X19.  In a closed store, whatever the decoder and however the
    Strings are encoded, no live Type, Prototype or Method is below
    itself, and neither is a live Field whose pointers are live. *)
Theorem comparators_irreflexive
  (mutf8_units : ascii -> string -> Z * nat) (g : RedexContext.t) :
  store_closed g ->
  (forall t, live_type g t -> compare_dextypes mutf8_units g t t = Some false)
  /\ (forall p, live_proto g p ->
        compare_dexprotos mutf8_units g p p = Some false)
  /\ (forall m,
        (m < length (RedexContext.objs (RedexContext.methods g)))%nat ->
        compare_dexmethods mutf8_units g m m = Some false)
  /\ (fields_closed g ->
      forall f, live_field g f ->
        compare_dexfields mutf8_units g f f = Some false).
Proof.
  intros Hc.
  assert (Hproto : forall p, live_proto g p ->
            compare_dexprotos mutf8_units g p p = Some false).
  { intros p Hp. unfold compare_dexprotos, deref_proto.
    destruct (lookup_lt_is_Some_2 _ _ Hp) as [pr Hpr]. rewrite Hpr.
    cbn [mbind option_bind]. rewrite Nat.eqb_refl. cbn [negb].
    destruct (proto_live g Hc p pr Hpr) as [_ Ha].
    unfold deref_typelist, DexProto.get_args.
    destruct (lookup_lt_is_Some_2 _ _ Ha) as [tl Htl]. rewrite Htl.
    cbn [mbind option_bind]. apply typelist_lt_irrefl. }
  split; [|split; [|split]].
  - intros t Ht. by apply compare_dextypes_irrefl.
  - exact Hproto.
  - intros m Hm. unfold compare_dexmethods, deref_method.
    destruct (lookup_lt_is_Some_2 _ _ Hm) as [me Hme]. rewrite Hme.
    cbn [mbind option_bind]. rewrite !Nat.eqb_refl. cbn [negb].
    destruct (method_live g Hc m me Hme) as (_ & _ & Hp).
    by apply Hproto.
  - intros Hfc f Hf. unfold compare_dexfields, deref_field.
    destruct (lookup_lt_is_Some_2 _ _ Hf) as [fo Hfo]. rewrite Hfo.
    cbn [mbind option_bind]. rewrite !Nat.eqb_refl. cbn [negb].
    unfold fields_closed in Hfc. rewrite Forall_lookup in Hfc.
    destruct (Hfc _ _ Hfo) as (_ & _ & Ht).
    by apply compare_dextypes_irrefl.
Qed.

Lemma comparators_irreflexive_witness :
  compare_dexmethods mutf8_units_std cyclic_store 0 0 = Some false.
Proof.
  assert (Hc : store_closed cyclic_store).
  { unfold store_closed. repeat split;
      apply (bool_decide_unpack _); vm_compute; exact I. }
  refine (proj1 (proj2 (proj2
            (comparators_irreflexive mutf8_units_std cyclic_store Hc)))
            0%nat _).
  vm_compute. lia.
Defined.

(** *** Interning under re-keying *)

Lemma perform_rekeys_only_types (this new_name : ptr) (g : RedexContext.t) :
  RedexContext.strings (perform (AssignNameAlias this new_name) g)
  = RedexContext.strings g
  /\ RedexContext.fields (perform (AssignNameAlias this new_name) g)
     = RedexContext.fields g
  /\ RedexContext.methods (perform (AssignNameAlias this new_name) g)
     = RedexContext.methods g.
Proof.
  cbn [perform].
  unfold DexType_assign_name_alias, RedexContext.alias_type_name.
  by destruct (RedexContext.objs (RedexContext.types g) !! this).
Qed.

Lemma perform_change_class_only_methods (this cls : ptr)
  (g : RedexContext.t) :
  RedexContext.strings (perform (ChangeClass this cls) g)
  = RedexContext.strings g
  /\ RedexContext.fields (perform (ChangeClass this cls) g)
     = RedexContext.fields g
  /\ RedexContext.types (perform (ChangeClass this cls) g)
     = RedexContext.types g.
Proof.
  cbn [perform].
  unfold DexMethod_change_class, RedexContext.mutate_method_class.
  by destruct (RedexContext.objs (RedexContext.methods g) !! this).
Qed.

Lemma perform_change_proto_only_methods (this proto : ptr)
  (g : RedexContext.t) :
  RedexContext.strings (perform (ChangeProto this proto) g)
  = RedexContext.strings g
  /\ RedexContext.fields (perform (ChangeProto this proto) g)
     = RedexContext.fields g
  /\ RedexContext.types (perform (ChangeProto this proto) g)
     = RedexContext.types g.
Proof.
  cbn [perform].
  unfold DexMethod_change_proto, RedexContext.mutate_method_proto.
  by destruct (RedexContext.objs (RedexContext.methods g) !! this).
Qed.

Lemma perform_keeps_string (c : call) (g : RedexContext.t) k p :
  RedexContext.find k (RedexContext.strings g) = Some p ->
  RedexContext.find k (RedexContext.strings (perform c g)) = Some p.
Proof.
  destruct c as [r| | |].
  - apply (ext_strings _ _ (serve_extends r g)).
  - by rewrite (proj1 (perform_rekeys_only_types _ _ g)).
  - by rewrite (proj1 (perform_change_class_only_methods _ _ g)).
  - by rewrite (proj1 (perform_change_proto_only_methods _ _ g)).
Qed.

Lemma perform_keeps_field (c : call) (g : RedexContext.t) k p :
  RedexContext.find k (RedexContext.fields g) = Some p ->
  RedexContext.find k (RedexContext.fields (perform c g)) = Some p.
Proof.
  destruct c as [r| | |].
  - apply (ext_fields _ _ (serve_extends r g)).
  - by rewrite (proj1 (proj2 (perform_rekeys_only_types _ _ g))).
  - by rewrite (proj1 (proj2 (perform_change_class_only_methods _ _ g))).
  - by rewrite (proj1 (proj2 (perform_change_proto_only_methods _ _ g))).
Qed.

Lemma perform_keeps_type (c : call) (g : RedexContext.t) k p :
  ~ rekeys_type k c g ->
  RedexContext.find k (RedexContext.types g) = Some p ->
  RedexContext.find k (RedexContext.types (perform c g)) = Some p.
Proof.
  destruct c as [r|this new_name| |]; intros Hn Hk.
  - by apply (ext_types _ _ (serve_extends r g)).
  - cbn [perform rekeys_type] in *.
    unfold DexType_assign_name_alias, RedexContext.alias_type_name,
      deref_type in *.
    destruct (RedexContext.objs (RedexContext.types g) !! this) as [ty|];
      [|exact Hk].
    cbn. unfold RedexContext.find in *. cbn.
    rewrite lookup_insert_ne by (intros E; apply Hn; by left).
    rewrite lookup_delete_ne; [exact Hk|].
    intros E. apply Hn. right. by exists ty.
  - by rewrite (proj2 (proj2 (perform_change_class_only_methods _ _ g))).
  - by rewrite (proj2 (proj2 (perform_change_proto_only_methods _ _ g))).
Qed.

Lemma perform_keeps_method (c : call) (g : RedexContext.t) t n pr p :
  ~ rekeys_method t n pr c g ->
  RedexContext.find (t, n, pr) (RedexContext.methods g) = Some p ->
  RedexContext.find (t, n, pr) (RedexContext.methods (perform c g)) = Some p.
Proof.
  destruct c as [r| |this cls|this proto]; intros Hn Hk.
  - by apply (ext_methods _ _ (serve_extends r g)).
  - by rewrite (proj2 (proj2 (perform_rekeys_only_types _ _ g))).
  - cbn [perform rekeys_method] in *.
    unfold DexMethod_change_class, RedexContext.mutate_method_class,
      deref_method, DexMethod.get_class, DexMethod.get_name,
      DexMethod.get_proto in *.
    destruct (RedexContext.objs (RedexContext.methods g) !! this) as [m|];
      [|exact Hk].
    cbn. unfold RedexContext.find in *. cbn.
    rewrite lookup_insert_ne
      by (intros E; apply Hn; exists m; split; [done|by left]).
    rewrite lookup_delete_ne; [exact Hk|].
    intros E. apply Hn. exists m. split; [done|by right].
  - cbn [perform rekeys_method] in *.
    unfold DexMethod_change_proto, RedexContext.mutate_method_proto,
      deref_method, DexMethod.get_class, DexMethod.get_name,
      DexMethod.get_proto in *.
    destruct (RedexContext.objs (RedexContext.methods g) !! this) as [m|];
      [|exact Hk].
    cbn. unfold RedexContext.find in *. cbn.
    rewrite lookup_insert_ne
      by (intros E; apply Hn; exists m; split; [done|by left]).
    rewrite lookup_delete_ne; [exact Hk|].
    intros E. apply Hn. exists m. split; [done|by right].
Qed.

Lemma perform_all_keeps_string (cs : list call) :
  forall g k p,
    RedexContext.find k (RedexContext.strings g) = Some p ->
    RedexContext.find k (RedexContext.strings (perform_all cs g)) = Some p.
Proof.
  induction cs as [|c rest IH]; intros g k p Hk; [exact Hk|].
  cbn [perform_all]. by apply IH, perform_keeps_string.
Qed.

Lemma perform_all_keeps_field (cs : list call) :
  forall g k p,
    RedexContext.find k (RedexContext.fields g) = Some p ->
    RedexContext.find k (RedexContext.fields (perform_all cs g)) = Some p.
Proof.
  induction cs as [|c rest IH]; intros g k p Hk; [exact Hk|].
  cbn [perform_all]. by apply IH, perform_keeps_field.
Qed.

Lemma perform_all_keeps_type (cs : list call) :
  forall g k p,
    throughout (fun c g => ~ rekeys_type k c g) cs g ->
    RedexContext.find k (RedexContext.types g) = Some p ->
    RedexContext.find k (RedexContext.types (perform_all cs g)) = Some p.
Proof.
  induction cs as [|c rest IH]; intros g k p Hcs Hk; [exact Hk|].
  destruct Hcs as [Hc Hrest]. cbn [perform_all].
  apply IH; [exact Hrest|]. by apply perform_keeps_type.
Qed.

Lemma perform_all_keeps_method (cs : list call) :
  forall g t n pr p,
    throughout (fun c g => ~ rekeys_method t n pr c g) cs g ->
    RedexContext.find (t, n, pr) (RedexContext.methods g) = Some p ->
    RedexContext.find (t, n, pr) (RedexContext.methods (perform_all cs g))
    = Some p.
Proof.
  induction cs as [|c rest IH]; intros g t n pr p Hcs Hk; [exact Hk|].
  destruct Hcs as [Hc Hrest]. cbn [perform_all].
  apply IH; [exact Hrest|]. by apply perform_keeps_method.
Qed.

Lemma perform_absent_string (c : call) (g : RedexContext.t) k :
  ~ installs_string k c g ->
  RedexContext.find k (RedexContext.strings g) = None ->
  RedexContext.find k (RedexContext.strings (perform c g)) = None.
Proof.
  destruct c as [r| | |]; intros Hn Hk.
  - apply (never_made_string k [r] g Hk). by constructor.
  - by rewrite (proj1 (perform_rekeys_only_types _ _ g)).
  - by rewrite (proj1 (perform_change_class_only_methods _ _ g)).
  - by rewrite (proj1 (perform_change_proto_only_methods _ _ g)).
Qed.

Lemma perform_absent_field (c : call) (g : RedexContext.t) cn n t :
  ~ installs_field cn n t c g ->
  RedexContext.find (cn, n, t) (RedexContext.fields g) = None ->
  RedexContext.find (cn, n, t) (RedexContext.fields (perform c g)) = None.
Proof.
  destruct c as [r| | |]; intros Hn Hk.
  - apply (never_made_field cn n t [r] g Hk). by constructor.
  - by rewrite (proj1 (proj2 (perform_rekeys_only_types _ _ g))).
  - by rewrite (proj1 (proj2 (perform_change_class_only_methods _ _ g))).
  - by rewrite (proj1 (proj2 (perform_change_proto_only_methods _ _ g))).
Qed.

Lemma perform_absent_type (c : call) (g : RedexContext.t) k :
  ~ installs_type k c g ->
  RedexContext.find k (RedexContext.types g) = None ->
  RedexContext.find k (RedexContext.types (perform c g)) = None.
Proof.
  destruct c as [r|this new_name| |]; intros Hn Hk.
  - apply (never_made_type k [r] g Hk). by constructor.
  - cbn [perform installs_type] in *.
    unfold DexType_assign_name_alias, RedexContext.alias_type_name.
    destruct (RedexContext.objs (RedexContext.types g) !! this) as [ty|];
      [|exact Hk].
    cbn. unfold RedexContext.find in *. cbn.
    rewrite lookup_insert_ne by exact Hn.
    apply lookup_delete_None. by right.
  - by rewrite (proj2 (proj2 (perform_change_class_only_methods _ _ g))).
  - by rewrite (proj2 (proj2 (perform_change_proto_only_methods _ _ g))).
Qed.

Lemma perform_absent_method (c : call) (g : RedexContext.t) t n pr :
  ~ installs_method t n pr c g ->
  RedexContext.find (t, n, pr) (RedexContext.methods g) = None ->
  RedexContext.find (t, n, pr) (RedexContext.methods (perform c g)) = None.
Proof.
  destruct c as [r| |this cls|this proto]; intros Hn Hk.
  - apply (never_made_method t n pr [r] g Hk). by constructor.
  - by rewrite (proj2 (proj2 (perform_rekeys_only_types _ _ g))).
  - cbn [perform installs_method] in *.
    unfold DexMethod_change_class, RedexContext.mutate_method_class,
      deref_method, DexMethod.get_class, DexMethod.get_name,
      DexMethod.get_proto in *.
    destruct (RedexContext.objs (RedexContext.methods g) !! this) as [m|];
      [|exact Hk].
    cbn. unfold RedexContext.find in *. cbn.
    rewrite lookup_insert_ne by (intros E; apply Hn; by exists m).
    apply lookup_delete_None. by right.
  - cbn [perform installs_method] in *.
    unfold DexMethod_change_proto, RedexContext.mutate_method_proto,
      deref_method, DexMethod.get_class, DexMethod.get_name,
      DexMethod.get_proto in *.
    destruct (RedexContext.objs (RedexContext.methods g) !! this) as [m|];
      [|exact Hk].
    cbn. unfold RedexContext.find in *. cbn.
    rewrite lookup_insert_ne by (intros E; apply Hn; by exists m).
    apply lookup_delete_None. by right.
Qed.

Lemma throughout_absent {K : Type} `{Countable K} {V : Type}
  (tbl : RedexContext.t -> RedexContext.table K V)
  (P : call -> RedexContext.t -> Prop) (k : K) :
  (forall c g, ~ P c g -> RedexContext.find k (tbl g) = None ->
               RedexContext.find k (tbl (perform c g)) = None) ->
  forall cs g,
    throughout (fun c g => ~ P c g) cs g ->
    RedexContext.find k (tbl g) = None ->
    RedexContext.find k (tbl (perform_all cs g)) = None.
Proof.
  intros Hstep cs.
  induction cs as [|c rest IH]; intros g Hcs Hk; [exact Hk|].
  destruct Hcs as [Hc Hrest]. cbn [perform_all].
  apply IH; [exact Hrest|]. by apply Hstep.
Qed.

(** A run of factory calls alone. *)
Lemma factory_traffic_throughout (rs : list request)
  (P : call -> RedexContext.t -> Prop) :
  (forall r g, P (Factory r) g) ->
  forall g, throughout P (map Factory rs) g
            /\ perform_all (map Factory rs) g = serve_all rs g.
Proof.
  intros HP. induction rs as [|r rest IH]; intros g; cbn; [done|].
  destruct (IH (serve r g).2) as [H1 H2]. by repeat split.
Qed.

(** C1, as the code has it.  For DexString (keyed by its bytes) and
    DexField (by its triple): after a [make_*] call, and whatever
    factory and re-keying calls follow it, a [make_*] call with the
    same key returns the same pointer and leaves the context as it is,
    and a [get_*] call with that key returns that pointer.  For
    DexType (keyed by its name String) and DexMethod (by its triple)
    the same holds provided no [assign_name_alias], [change_class] or
    [change_proto] call in between moves an object away from that key
    or onto it.  Starting from the empty context, [get_*] of a key
    that no [make_*] call was given and no re-keying call moved an
    object onto returns null; and no [get_*] call changes the
    context. *)
Theorem interning_uniqueness (g : RedexContext.t) (cs : list call) :
  (forall nstr utfsize utfsize',
      let r := DexString_make_string nstr utfsize g in
      let g2 := perform_all cs r.2 in
      DexString_make_string nstr utfsize' g2 = (r.1, g2)
      /\ DexString_get_string nstr utfsize' g2 = Some r.1)
  /\ (forall dstring,
      let r := DexType_make_type dstring g in
      let g2 := perform_all cs r.2 in
      throughout (fun c g => ~ rekeys_type dstring c g) cs r.2 ->
      DexType_make_type dstring g2 = (r.1, g2)
      /\ DexType_get_type dstring g2 = Some r.1)
  /\ (forall container name type,
      let r := DexField_make_field container name type g in
      let g2 := perform_all cs r.2 in
      DexField_make_field container name type g2 = (r.1, g2)
      /\ DexField_get_field container name type g2 = Some r.1)
  /\ (forall type name proto,
      let r := DexMethod_make_method type name proto g in
      let g2 := perform_all cs r.2 in
      throughout (fun c g => ~ rekeys_method type name proto c g) cs r.2 ->
      DexMethod_make_method type name proto g2 = (r.1, g2)
      /\ DexMethod_get_method type name proto g2 = Some r.1)
  /\ (forall nstr utfsize,
      throughout (fun c g => ~ installs_string nstr c g) cs
        RedexContext.empty ->
      DexString_get_string nstr utfsize (perform_all cs RedexContext.empty)
      = None)
  /\ (forall dstring,
      throughout (fun c g => ~ installs_type dstring c g) cs
        RedexContext.empty ->
      DexType_get_type dstring (perform_all cs RedexContext.empty) = None)
  /\ (forall container name type,
      throughout (fun c g => ~ installs_field container name type c g) cs
        RedexContext.empty ->
      DexField_get_field container name type
        (perform_all cs RedexContext.empty) = None)
  /\ (forall type name proto,
      throughout (fun c g => ~ installs_method type name proto c g) cs
        RedexContext.empty ->
      DexMethod_get_method type name proto
        (perform_all cs RedexContext.empty) = None)
  /\ (forall nstr utfsize, perform (Factory (GetString nstr utfsize)) g = g)
  /\ (forall dstring, perform (Factory (GetType dstring)) g = g)
  /\ (forall container name type,
         perform (Factory (GetField container name type)) g = g)
  /\ (forall type name proto,
         perform (Factory (GetMethod type name proto)) g = g).
Proof.
  repeat match goal with |- _ /\ _ => split end; try reflexivity.
  - intros nstr u u' r g2.
    assert (Hf : RedexContext.find nstr (RedexContext.strings g2) = Some r.1).
    { apply perform_all_keeps_string.
      subst r. rewrite make_string_eq. cbn. apply intern_find. }
    split; [|exact Hf].
    rewrite make_string_eq, (intern_found _ _ _ _ Hf). cbn. by destruct g2.
  - intros d r g2 Hcs.
    assert (Hf : RedexContext.find d (RedexContext.types g2) = Some r.1).
    { apply perform_all_keeps_type; [exact Hcs|].
      subst r. rewrite make_type_eq. cbn. apply intern_find. }
    split; [|exact Hf].
    rewrite make_type_eq, (intern_found _ _ _ _ Hf). cbn. by destruct g2.
  - intros c n t r g2.
    assert (Hf : RedexContext.find (c, n, t) (RedexContext.fields g2)
                 = Some r.1).
    { apply perform_all_keeps_field.
      subst r. rewrite make_field_eq. cbn. apply intern_find. }
    split; [|exact Hf].
    rewrite make_field_eq, (intern_found _ _ _ _ Hf). cbn. by destruct g2.
  - intros t n p r g2 Hcs.
    assert (Hf : RedexContext.find (t, n, p) (RedexContext.methods g2)
                 = Some r.1).
    { apply perform_all_keeps_method; [exact Hcs|].
      subst r. rewrite make_method_eq. cbn. apply intern_find. }
    split; [|exact Hf].
    rewrite make_method_eq, (intern_found _ _ _ _ Hf). cbn. by destruct g2.
  - intros nstr u Hcs.
    by apply (throughout_absent RedexContext.strings
                (installs_string nstr) nstr (fun c g => perform_absent_string c g nstr)).
  - intros d Hcs.
    by apply (throughout_absent RedexContext.types
                (installs_type d) d (fun c g => perform_absent_type c g d)).
  - intros c n t Hcs.
    by apply (throughout_absent RedexContext.fields
                (installs_field c n t) (c, n, t)
                (fun c' g => perform_absent_field c' g c n t)).
  - intros t n p Hcs.
    by apply (throughout_absent RedexContext.methods
                (installs_method t n p) (t, n, p)
                (fun c g => perform_absent_method c g t n p)).
Qed.

Lemma interning_uniqueness_witness :
  DexType_get_type 1
    (perform_all [Factory (MakeString "Baz;" 4); AssignNameAlias 0 2]
       (DexType_make_type 1 foo_store).2)
  = Some 1%nat.
Proof.
  refine (proj2 (proj1 (proj2
            (interning_uniqueness foo_store
               [Factory (MakeString "Baz;" 4); AssignNameAlias 0%nat 2%nat]))
            1%nat _)).
  split; [tauto|]. split; [|exact I].
  intros [E|[ty [Hty E]]]; [discriminate|].
  vm_compute in Hty. injection Hty as <-. discriminate.
Defined.

(** After "Foo;" and "Bar;" are interned and the Type Foo; is made at
    pointer 0, [assign_name_alias] gives it the name "Bar;".  Then
    [get_type] of Foo; is null although [make_type] was called with it,
    a second [make_type] of Foo; returns pointer 1, and [get_type] of
    Bar; returns pointer 0 although no [make_type] call was given
    Bar;. *)
Lemma alias_breaks_interning :
  foo_bar_store
  = perform_all (foo_calls ++ [AssignNameAlias 0 1]) RedexContext.empty
  /\ (DexType_make_type 0
        (perform_all [Factory (MakeString "Foo;" 4);
                      Factory (MakeString "Bar;" 4)] RedexContext.empty)).1
     = 0%nat
  /\ DexType_get_type 0 foo_store = Some 0%nat
  /\ DexType_get_type 0 foo_bar_store = None
  /\ (DexType_make_type 0 foo_bar_store).1 = 1%nat
  /\ Forall (fun c => forall r, c = Factory r -> ~ makes_type 1 r)
       (foo_calls ++ [AssignNameAlias 0 1])
  /\ DexType_get_type 1 foo_bar_store = Some 0%nat.
Proof.
  repeat match goal with |- _ /\ _ => split end;
    try (vm_compute; reflexivity).
  unfold foo_calls. cbn [app].
  repeat apply List.Forall_cons; try apply List.Forall_nil;
    intros r E; try discriminate E; injection E as <-; cbn;
    (tauto || discriminate).
Qed.

(** *** Re-keying a type name *)












(** The names given to aliases have to be fresh: when Foo; is given
    the name of the live Type Bar;, that Type keeps its name and no key
    resolves to it any more. *)
Lemma alias_onto_live_name :
  ~ types_indexed
      (perform_all (foo_calls ++ [Factory (MakeType 1); AssignNameAlias 0 1])
         RedexContext.empty).
Proof.
  intros Hidx. destruct (Hidx 1%nat 1%nat) as [_ Hback].
  assert (Hget : DexType_get_type 1
                   (perform_all
                      (foo_calls ++ [Factory (MakeType 1);
                                     AssignNameAlias 0 1])
                      RedexContext.empty) = Some 1%nat).
  { apply Hback. exists (DexType.mk 1). split; vm_compute; reflexivity. }
  vm_compute in Hget. discriminate.
Qed.
